(** * DORA dashboard: the metrics-derivation engine and the CSV feed parser

    A shallow embedding of the module [@/lib/dora-calculations]
    ([filterDataByDays], [calculateDoraMetrics] and their helpers), of
    [parseCSV] of the repository-summary page, and of the computations of
    the components that show their results: the team and author tables,
    the list of recent deployments, the four charts, the summary card and
    the counts made from the GitHub responses.

    Conventions of the embedding.
    - Values have the shapes their TypeScript types declare: a required
      collection is present, an optional one is an [option].  The one
      exception is [calculateDoraMetrics_unchecked], which tells what the
      code does when the collection declared as required is missing at run
      time.
    - A timestamp string is represented by the instant it denotes, in
      milliseconds since the epoch ([Z]); the platform's date parser, and
      with it the strings it rejects, is outside the model.
    - A JavaScript [number] that holds a count or an instant is a [Z] or a
      [nat]; a measured quantity is an exact rational ([Qc]).  Rounding and
      the range limits of IEEE doubles are outside the model, with one
      exception: the success rate that [calculateDeploymentTrendText]
      prints with [toFixed] is computed as the platform computes it, every
      operation rounded to the nearest double ([binary64]), since the
      digits printed depend on it.
    - Arrays are objects: they live in a heap and records hold references to
      them, so that in-place [sort] and [reverse] are visible through every
      alias.  TypeScript keeps arrays of different element types apart, so
      the heap has one address space per element type.
    - The wall clock is an explicit parameter [now]. *)

From Stdlib Require Import Ascii String QArith Qcanon Qround Lqa.
From stdpp Require Import base numbers list strings gmap pretty sorting.

Local Open Scope Z_scope.

(** ** Records of the input snapshot ([DoraData]) *)

(** The descriptive fields [ref], [log_url], [source_fetched_at_utc] and
    [etl_run_id] are never read by the engine and are left out. *)
Record Deployment := mkDeployment {
  deployment_id : Z;
  environment : string;
  created_at_utc : Z;
  finished_at_utc : Z;
  state : string;
  actor : string;
  sha : string
}.

Record PullRequest := mkPullRequest {
  pr_number : Z;
  pr_merged_at_utc : Z;
  pr_merge_sha : string;
  author : string
}.

Record Incident := mkIncident {
  incident_id : string;
  title : string;
  created_utc : Z;
  closed_utc : Z;
  duration_minutes : Qc
}.

(** Only the fields every event has; the optional cross references are not
    read by the engine. *)
Record Event := mkEvent {
  event_id : Z;
  event_type : string;
  when_utc : Z
}.

Record Rollup := mkRollup {
  date : Z;
  deploys : Qc;
  failed_deploys : Qc;
  cfr : Qc;
  avg_lt_hours : Qc;
  mttr_min : Qc
}.

(** ** The heap of arrays *)

Abbreviation loc := nat.

Record Heap := mkHeap {
  deployment_arrays : list (list Deployment);
  pr_arrays : list (list PullRequest);
  incident_arrays : list (list Incident);
  event_arrays : list (list Event);
  rollup_arrays : list (list Rollup)
}.

(** [Stored T]: arrays of [T] have an address space in the heap. *)
Class Stored (T : Type) := {
  arrays : Heap -> list (list T);
  with_arrays : list (list T) -> Heap -> Heap
}.

#[global] Instance Stored_Deployment : Stored Deployment := {|
  arrays := deployment_arrays;
  with_arrays c h :=
    mkHeap c (pr_arrays h) (incident_arrays h) (event_arrays h) (rollup_arrays h)
|}.

#[global] Instance Stored_PullRequest : Stored PullRequest := {|
  arrays := pr_arrays;
  with_arrays c h :=
    mkHeap (deployment_arrays h) c (incident_arrays h) (event_arrays h) (rollup_arrays h)
|}.

#[global] Instance Stored_Incident : Stored Incident := {|
  arrays := incident_arrays;
  with_arrays c h :=
    mkHeap (deployment_arrays h) (pr_arrays h) c (event_arrays h) (rollup_arrays h)
|}.

#[global] Instance Stored_Event : Stored Event := {|
  arrays := event_arrays;
  with_arrays c h :=
    mkHeap (deployment_arrays h) (pr_arrays h) (incident_arrays h) c (rollup_arrays h)
|}.

#[global] Instance Stored_Rollup : Stored Rollup := {|
  arrays := rollup_arrays;
  with_arrays c h :=
    mkHeap (deployment_arrays h) (pr_arrays h) (incident_arrays h) (event_arrays h) c
|}.

(** The elements of the array at [r]; a reference that points nowhere reads
    as the empty array (well-formed stores have none, see [allocated]). *)
Definition contents {T} `{Stored T} (h : Heap) (r : loc) : list T :=
  default [] (arrays h !! r).

(** ** State monad over the heap *)

Definition M (A : Type) : Type := Heap -> A * Heap.

Definition ret {A} (a : A) : M A := fun h => (a, h).

Definition bind {A B} (m : M A) (k : A -> M B) : M B :=
  fun h => let '(a, h') := m h in k a h'.

Notation "'let*' x ':=' m 'in' k" := (bind m (fun x => k))
  (at level 10, x pattern, m at level 100, k at level 200).

(** A new array object. *)
Definition newArray {T} `{Stored T} (l : list T) : M loc :=
  fun h => (length (arrays h), with_arrays (arrays h ++ [l]) h).

(** Reading the elements through a reference. *)
Definition readArray {T} `{Stored T} (r : loc) : M (list T) :=
  fun h => (contents h r, h).

(** Overwriting the elements of an existing array object. *)
Definition writeArray {T} `{Stored T} (r : loc) (l : list T) : M unit :=
  fun h => (tt, with_arrays (<[r := l]> (arrays h)) h).

(** [a.filter(p)]: a new array. *)
Definition jsFilter {T} `{Stored T} (P : T -> Prop) `{forall x, Decision (P x)}
    (r : loc) : M loc :=
  let* l := readArray r in newArray (filter P l).

(** [a.slice()]: a shallow copy. *)
Definition jsSlice {T} `{Stored T} (r : loc) : M loc :=
  let* l := readArray (T:=T) r in newArray l.

(** [a.reverse()]: reverses [a] in place and returns [a]. *)
Definition jsReverse {T} `{Stored T} (r : loc) : M loc :=
  let* l := readArray (T:=T) r in
  let* _ := writeArray r (reverse l) in
  ret r.

(** [a || []] for an optional array. *)
Definition orEmpty {T} `{Stored T} (o : option loc) : M loc :=
  match o with
  | Some r => ret r
  | None => newArray (T:=T) []
  end.

(** ** [DoraData] and [FilteredData] *)

Record DoraData := mkDoraData {
  fact_deployment : loc;
  fact_pr : option loc;
  fact_incident : option loc;
  dora_events : option loc;
  dora_summary_daily : option loc
}.

(** [FilteredData] has the same field names; its projections live in a
    module of their own. *)
Module FilteredData.
Record t := mk {
  fact_deployment : loc;
  dora_summary_daily : option loc;
  fact_pr : option loc;
  fact_incident : option loc;
  dora_events : option loc
}.
End FilteredData.

Definition ms_per_day : Z := 24 * 60 * 60 * 1000.

(** ** [filterDataByDays] *)

Definition filterDataByDays (data : DoraData) (days : option Z) (now : Z)
    : M FilteredData.t :=
  match days with
  | None =>
      let* summary :=
        match dora_summary_daily data with
        | Some r => let* c := jsSlice (T:=Rollup) r in jsReverse (T:=Rollup) c
        | None => newArray (T:=Rollup) []
        end in
      let* pr := orEmpty (T:=PullRequest) (fact_pr data) in
      let* incident := orEmpty (T:=Incident) (fact_incident data) in
      let* events := orEmpty (T:=Event) (dora_events data) in
      ret {| FilteredData.fact_deployment := fact_deployment data;
             FilteredData.dora_summary_daily := Some summary;
             FilteredData.fact_pr := Some pr;
             FilteredData.fact_incident := Some incident;
             FilteredData.dora_events := Some events |}
  | Some days =>
      let cutoffDate := now - days * ms_per_day in
      let* deployment :=
        jsFilter (fun d => cutoffDate <= created_at_utc d) (fact_deployment data) in
      let* summary :=
        match dora_summary_daily data with
        | Some r =>
            let* c := jsFilter (fun d => cutoffDate <= date d) r in
            jsReverse (T:=Rollup) c
        | None => newArray (T:=Rollup) []
        end in
      let* pr :=
        match fact_pr data with
        | Some r => jsFilter (fun pr => cutoffDate <= pr_merged_at_utc pr) r
        | None => newArray (T:=PullRequest) []
        end in
      let* incident :=
        match fact_incident data with
        | Some r => jsFilter (fun incident => cutoffDate <= created_utc incident) r
        | None => newArray (T:=Incident) []
        end in
      let* events :=
        match dora_events data with
        | Some r => jsFilter (fun event => cutoffDate <= when_utc event) r
        | None => newArray (T:=Event) []
        end in
      ret {| FilteredData.fact_deployment := deployment;
             FilteredData.dora_summary_daily := Some summary;
             FilteredData.fact_pr := Some pr;
             FilteredData.fact_incident := Some incident;
             FilteredData.dora_events := Some events |}
  end.

(** ** Numbers *)

Local Open Scope Qc_scope.

Definition num (n : nat) : Qc := Qc_of_Z (Z.of_nat n).

Definition ms_per_hour : Z := 1000 * 60 * 60.

(** [(finished - created) / (1000 * 60 * 60)] *)
Definition leadTimeHours (d : Deployment) : Qc :=
  Qc_of_Z (finished_at_utc d - created_at_utc d) / Qc_of_Z ms_per_hour.

(** [a.reduce((sum, d) => sum + f(d), 0)] *)
Definition reduce_sum {T} (f : T -> Qc) (l : list T) : Qc :=
  fold_left (fun sum d => sum + f d) l 0.

Definition num_max (x y : Qc) : Qc := if decide (x ≤ y) then y else x.
Definition num_min (x y : Qc) : Qc := if decide (x ≤ y) then x else y.

(** [Math.max(...a)] and [Math.min(...a)] for a non-empty [a = x :: xs]. *)
Definition Math_max (x : Qc) (xs : list Qc) : Qc := fold_left num_max xs x.
Definition Math_min (x : Qc) (xs : list Qc) : Qc := fold_left num_min xs x.

(** ** IEEE 754 doubles

    The value of a double is a rational; an arithmetic operation returns
    the double nearest to the exact result, the one with the even
    significand on a tie.  A double other than 0 is [m * 2^e] for an
    integer [m] with [2^52 <= |m| < 2^53] (or [|m| = 2^53], the next
    binade's smallest value); overflow and the subnormal range are outside
    the model. *)

(** [2^e] for an integer [e]. *)
Definition pow2 (e : Z) : Qc :=
  Qc_of_Z (2 ^ Z.max 0 e) / Qc_of_Z (2 ^ Z.max 0 (- e)).

(** The integer nearest to [x], the even one on a tie. *)
Definition round_half_even (x : Qc) : Z :=
  let f := Qfloor x in
  let r := x - Qc_of_Z f in
  if decide (r < Q2Qc (1 # 2)) then f
  else if decide (Q2Qc (1 # 2) < r) then (f + 1)%Z
  else if Z.even f then f else (f + 1)%Z.

(** The exponent [e] with [2^52 <= x / 2^e < 2^53], for [0 < x]: the
    difference of the binary logarithms of numerator and denominator is
    off by at most one. *)
Definition exponent (x : Qc) : Z :=
  let e := (Z.log2 (Qnum x) - Z.log2 (Zpos (Qden x)) - 52)%Z in
  if decide (x / pow2 e < pow2 52) then (e - 1)%Z else e.

(** The double nearest to [x]. *)
Definition binary64 (x : Qc) : Qc :=
  if decide (x = 0) then 0
  else
    let a := if decide (0 < x) then x else - x in
    let e := exponent a in
    let r := Qc_of_Z (round_half_even (a / pow2 e)) * pow2 e in
    if decide (0 < x) then r else - r.

(** [x.toFixed(0)] for the double of value [x]: the integer nearest to [x],
    the larger one on a tie, with the sign of a negative [x] put in
    front. *)
Definition round_half_up (x : Qc) : Z := Qfloor ((x + Q2Qc (1 # 2))%Qc).

Definition toFixed0 (x : Qc) : string :=
  if decide (x < 0) then "-" +:+ pretty (round_half_up (- x))
  else pretty (round_half_up x).

(** ** Classification of deployments *)

Definition successful (d : Deployment) : Prop :=
  state d = "success" ∨ state d = "inactive".

Definition failed (d : Deployment) : Prop :=
  state d = "error" ∨ state d = "failure".

#[global] Instance successful_dec d : Decision (successful d).
Proof. unfold successful. apply _. Defined.

#[global] Instance failed_dec d : Decision (failed d).
Proof. unfold failed. apply _. Defined.

(** ** [Array.prototype.sort]

    With a consistent comparator the result of [sort] is determined: the
    elements in comparator order, equal elements in their original order.
    Insertion from the right computes it.  [sort] works in place and returns
    the array it was called on. *)

Fixpoint sort_insert {T} (compareFn : T -> T -> Z) (x : T) (l : list T) : list T :=
  match l with
  | [] => [x]
  | y :: l' =>
      if decide (compareFn x y ≤ 0)%Z then x :: y :: l'
      else y :: sort_insert compareFn x l'
  end.

Definition sorted_by {T} (compareFn : T -> T -> Z) (l : list T) : list T :=
  foldr (sort_insert compareFn) [] l.

Definition jsSort {T} `{Stored T} (compareFn : T -> T -> Z) (r : loc) : M loc :=
  let* l := readArray (T:=T) r in
  let* _ := writeArray r (sorted_by compareFn l) in
  ret r.

(** The heap after running [m]. *)
Definition heap_after {A} (m : M A) (h : Heap) : Heap := (m h).2.

(** Reading an optional array: [None] is [undefined]. *)
Definition readOptional {T} `{Stored T} (h : Heap) (o : option loc) : option (list T) :=
  contents h <$> o.

(** ** [calculateDeploymentTrendText]

    The helpers below only read the heap: they are functions of it. *)

(** [lo <= new Date(d.created_at_utc) && new Date(d.created_at_utc) <= hi] *)
Definition deployedBetween (lo hi : Z) (d : Deployment) : Prop :=
  (lo ≤ created_at_utc d)%Z ∧ (created_at_utc d ≤ hi)%Z.

#[global] Instance deployedBetween_dec lo hi d : Decision (deployedBetween lo hi d).
Proof. unfold deployedBetween. apply _. Defined.

(** The rate is [((successfulWeek / weekCount) * 100).toFixed(0)]: the
    quotient of the two counts is rounded to a double, and so is its
    product with 100, before [toFixed] reads it. *)
Definition calculateDeploymentTrendText (filteredData : FilteredData.t)
    (originalData : DoraData) (now : Z) (h : Heap) : string :=
  let lastWeekStart := (now - 7 * ms_per_day)%Z in
  let allDeployments := contents h (fact_deployment originalData) in
  let lastWeekDeployments := filter (deployedBetween lastWeekStart now) allDeployments in
  let weekCount := length lastWeekDeployments in
  if decide (weekCount = 0)%nat then "0 deployments in last week"
  else
    let successfulWeek := length (filter successful lastWeekDeployments) in
    let weekSuccessRate :=
      toFixed0
        (binary64 (binary64 (num successfulWeek / num weekCount) * Qc_of_Z 100)) in
    pretty weekCount +:+ " deployments in last week, with "
      +:+ weekSuccessRate +:+ "% success rate".

(** ** [calculateDeploymentCounts] *)

Record DeploymentCounts := mkDeploymentCounts {
  yesterday : nat;
  lastWeek : nat;
  lastMonth : nat
}.

Definition calculateDeploymentCounts (originalData : DoraData) (now : Z)
    (h : Heap) : DeploymentCounts :=
  let yesterday := (now - 1 * ms_per_day)%Z in
  let lastWeek := (now - 7 * ms_per_day)%Z in
  let lastMonth := (now - 30 * ms_per_day)%Z in
  let all := contents h (fact_deployment originalData) in
  {| yesterday := length (filter (deployedBetween yesterday now) all);
     lastWeek := length (filter (deployedBetween lastWeek now) all);
     lastMonth := length (filter (deployedBetween lastMonth now) all) |}.

(** ** [calculateCFRTrendStatus] *)

Inductive TrendStatus := good | bad.

#[global] Instance TrendStatus_eq_dec : EqDecision TrendStatus.
Proof. solve_decision. Defined.

(** [previousPeriodStart <= deployDate && deployDate < currentPeriodStart
     && (d.state === 'error' || d.state === 'failure')] *)
Definition failedInPreviousPeriod (previousPeriodStart currentPeriodStart : Z)
    (d : Deployment) : Prop :=
  (previousPeriodStart ≤ created_at_utc d)%Z
  ∧ (created_at_utc d < currentPeriodStart)%Z ∧ failed d.

#[global] Instance failedInPreviousPeriod_dec p c d :
  Decision (failedInPreviousPeriod p c d).
Proof. unfold failedInPreviousPeriod. apply _. Defined.

Definition calculateCFRTrendStatus (filteredData : FilteredData.t)
    (originalData : DoraData) (timeFilterDays : option Z) (now : Z)
    (h : Heap) : TrendStatus :=
  match timeFilterDays with
  | None =>
      let all := contents h (fact_deployment originalData) in
      let totalDeployments := length all in
      let failedDeployments := length (filter failed all) in
      let cfrPercentage :=
        if decide (0 < totalDeployments)%nat
        then (num failedDeployments / num totalDeployments) * Qc_of_Z 100
        else 0 in
      if decide (cfrPercentage < Qc_of_Z 20) then good else bad
  | Some timeFilterDays =>
      let current := contents h (FilteredData.fact_deployment filteredData) in
      let currentFailures := length (filter failed current) in
      let currentPeriodStart := (now - timeFilterDays * ms_per_day)%Z in
      let previousPeriodStart :=
        (currentPeriodStart - timeFilterDays * ms_per_day)%Z in
      let all := contents h (fact_deployment originalData) in
      let previousFailures :=
        length (filter (failedInPreviousPeriod previousPeriodStart currentPeriodStart) all) in
      if decide (currentFailures ≤ previousFailures)%nat then good else bad
  end.

(** ** [calculateDoraMetrics] *)

Module DoraMetrics.
Record t := mk {
  deploymentFrequency : Qc;
  deploymentFrequencyTrend : Qc;
  deploymentFrequencyTrendText : string;
  deploymentsYesterday : nat;
  deploymentsLastWeek : nat;
  deploymentsLastMonth : nat;
  leadTime : Qc;
  leadTimeTrend : Qc;
  maxLeadTime : Qc;
  minLeadTime : Qc;
  lastDeploymentLeadTime : Qc;
  cfr : Qc;
  cfrTrend : Qc;
  cfrTrendStatus : TrendStatus;
  failedDeployments : nat;
  successfulDeployments : nat;
  mttr : Qc;
  mttrTrend : Qc;
  maxMTTR : Qc;
  minMTTR : Qc;
  lastIncidentMTTR : Qc;
  totalDeployments : nat;
  successRate : Qc;
  totalIncidents : nat;
  totalPRs : nat
}.
End DoraMetrics.

(** The local closure [getTrend]. *)
Definition getTrend (current previous : list Qc) : Qc :=
  if decide (length previous = 0 ∨ length current = 0)%nat then 0
  else
    let currentAvg := reduce_sum id current / num (length current) in
    let previousAvg := reduce_sum id previous / num (length previous) in
    if decide (previousAvg = 0) then 0
    else ((currentAvg - previousAvg) / previousAvg) * Qc_of_Z 100.

(** The four mutable locals [avgDeploymentFreq], [avgLeadTime], [avgCFR] and
    [avgMTTR], all initialised to 0. *)
Record Averages := mkAverages {
  avgDeploymentFreq : Qc;
  avgLeadTime : Qc;
  avgCFR : Qc;
  avgMTTR : Qc
}.

(** Their values after the branch [summary && summary.length > 0]. *)
Definition averagesFromSummary (summary : list Rollup) : Averages :=
  let validData := filter (fun d => 0 < deploys d) summary in
  if decide (0 < length validData)%nat then
    {| avgDeploymentFreq := reduce_sum deploys validData / num (length validData);
       avgLeadTime := reduce_sum avg_lt_hours validData / num (length validData);
       avgCFR :=
         (reduce_sum cfr validData / num (length validData)) * Qc_of_Z 100;
       avgMTTR := reduce_sum (fun d => mttr_min d / Qc_of_Z 60) summary |}
  else mkAverages 0 0 0 0.

(** Their values after the [else] branch, from the raw records; [avgMTTR] is
    still 0 when the branch tests it. *)
Definition averagesFromRaw (deployments : list Deployment)
    (incidents : option (list Incident)) (events : option (list Event))
    (now : Z) : Averages :=
  let totalDeployments := length deployments in
  let leadTimes := filter (fun time => 0 < time) (map leadTimeHours deployments) in
  let failedDeployments := length (filter failed deployments) in
  let fromEvents :=
    match events with
    | Some ((_ :: _) as events) =>
        let incidents := filter (fun event => event_type event = "incident") events in
        if decide (0 < length incidents)%nat
        then num (length incidents) * Qc_of_Z 3 else 0
    | _ => 0
    end in
  {| avgDeploymentFreq :=
       num totalDeployments /
       Qc_of_Z (Z.max 1 (Qceiling
         (match last deployments with
          | Some oldest =>
              Qc_of_Z (now - created_at_utc oldest) / Qc_of_Z ms_per_day
          | None => 1
          end)%Qc));
     avgLeadTime :=
       if decide (0 < length leadTimes)%nat
       then reduce_sum id leadTimes / num (length leadTimes) else 0;
     avgCFR :=
       if decide (0 < totalDeployments)%nat
       then (num failedDeployments / num totalDeployments) * Qc_of_Z 100 else 0;
     avgMTTR :=
       match incidents with
       | Some ((_ :: _) as incidents) =>
           reduce_sum duration_minutes incidents / Qc_of_Z 60
       | _ => fromEvents
       end |}.

(** [filteredData.fact_incident?.length
      || filteredData.dora_events?.filter(...).length || 0] *)
Definition countIncidents (incidents : option (list Incident))
    (events : option (list Event)) : nat :=
  let fromEvents :=
    match events with
    | Some events => length (filter (fun event => event_type event = "incident") events)
    | None => 0%nat
    end in
  match incidents with
  | Some ((_ :: _) as incidents) => length incidents
  | _ => fromEvents
  end.

(** The two comparators handed to [sort]. *)
Definition newestDeploymentFirst (a b : Deployment) : Z :=
  (created_at_utc b - created_at_utc a)%Z.

Definition newestIncidentFirst (a b : Incident) : Z :=
  (created_utc b - created_utc a)%Z.

(** The heap after [filteredData.fact_incident.sort(...)], which runs only
    inside [if (filteredData.fact_incident && filteredData.fact_incident.length > 0)]. *)
Definition sortIncidents (filteredData : FilteredData.t) (h : Heap) : Heap :=
  match FilteredData.fact_incident filteredData with
  | Some r =>
      if decide (0 < length (contents (T:=Incident) h r))%nat
      then heap_after (jsSort newestIncidentFirst r) h
      else h
  | None => h
  end.

(** An array that never leaves the function that creates it ([validData],
    [leadTimes], the halves of [summary], ...) is a plain list; the arrays of
    [filteredData] and [originalData] are read and sorted through the heap:
    [h] is the heap at the call, [h1] the heap after [deployments.sort(...)],
    [h2] the heap after the incidents are sorted, in which the object literal
    of the result is evaluated. *)
Definition calculateDoraMetrics (filteredData : FilteredData.t)
    (originalData : DoraData) (timeFilterDays : option Z) (now : Z)
    : M DoraMetrics.t := fun h =>
  let deployments := contents h (FilteredData.fact_deployment filteredData) in
  let summary : option (list Rollup) :=
    readOptional h (FilteredData.dora_summary_daily filteredData) in
  let deploymentCounts := calculateDeploymentCounts originalData now h in
  let totalDeployments := length deployments in
  let successfulDeployments := length (filter successful deployments) in
  let failedDeployments := length (filter failed deployments) in
  let successRate :=
    if decide (0 < totalDeployments)%nat
    then (num successfulDeployments / num totalDeployments) * Qc_of_Z 100
    else 0 in
  let averages :=
    match summary with
    | Some ((_ :: _) as summary) => averagesFromSummary summary
    | _ =>
        averagesFromRaw deployments
          (readOptional h (FilteredData.fact_incident filteredData))
          (readOptional h (FilteredData.dora_events filteredData)) now
    end in
  let allLeadTimes := filter (fun time => 0 < time) (map leadTimeHours deployments) in
  let maxLeadTime :=
    match allLeadTimes with x :: xs => Math_max x xs | [] => 0 end in
  let minLeadTime :=
    match allLeadTimes with x :: xs => Math_min x xs | [] => 0 end in
  let h1 :=
    heap_after
      (jsSort newestDeploymentFirst (FilteredData.fact_deployment filteredData)) h in
  let sortedDeployments : list Deployment :=
    contents h1 (FilteredData.fact_deployment filteredData) in
  let lastDeploymentLeadTime :=
    match sortedDeployments with
    | lastDeploy :: _ => leadTimeHours lastDeploy
    | [] => 0
    end in
  let incidentDurations :=
    map (fun incident => duration_minutes incident / Qc_of_Z 60)
      (default [] (readOptional h1 (FilteredData.fact_incident filteredData))) in
  let maxMTTR :=
    match incidentDurations with x :: xs => Math_max x xs | [] => 0 end in
  let minMTTR :=
    match incidentDurations with x :: xs => Math_min x xs | [] => 0 end in
  let h2 := sortIncidents filteredData h1 in
  let sortedIncidents : list Incident :=
    default [] (readOptional h2 (FilteredData.fact_incident filteredData)) in
  let lastIncidentMTTR :=
    match sortedIncidents with
    | last :: _ => duration_minutes last / Qc_of_Z 60
    | [] => 0
    end in
  let midPoint := (length (default [] summary) / 2)%nat in
  let recentPeriod := take midPoint (default [] summary) in
  let previousPeriod := drop midPoint (default [] summary) in
  ({|
    DoraMetrics.deploymentFrequency := avgDeploymentFreq averages;
    DoraMetrics.deploymentFrequencyTrend :=
      getTrend (map deploys recentPeriod) (map deploys previousPeriod);
    DoraMetrics.deploymentFrequencyTrendText :=
      calculateDeploymentTrendText filteredData originalData now h2;
    DoraMetrics.deploymentsYesterday := yesterday deploymentCounts;
    DoraMetrics.deploymentsLastWeek := lastWeek deploymentCounts;
    DoraMetrics.deploymentsLastMonth := lastMonth deploymentCounts;
    DoraMetrics.leadTime := avgLeadTime averages;
    DoraMetrics.leadTimeTrend :=
      getTrend (map avg_lt_hours recentPeriod) (map avg_lt_hours previousPeriod);
    DoraMetrics.maxLeadTime := maxLeadTime;
    DoraMetrics.minLeadTime := minLeadTime;
    DoraMetrics.lastDeploymentLeadTime := lastDeploymentLeadTime;
    DoraMetrics.maxMTTR := maxMTTR;
    DoraMetrics.minMTTR := minMTTR;
    DoraMetrics.lastIncidentMTTR := lastIncidentMTTR;
    DoraMetrics.cfr := avgCFR averages;
    DoraMetrics.cfrTrend := getTrend (map cfr recentPeriod) (map cfr previousPeriod);
    DoraMetrics.failedDeployments := failedDeployments;
    DoraMetrics.successfulDeployments := successfulDeployments;
    DoraMetrics.cfrTrendStatus :=
      calculateCFRTrendStatus filteredData originalData timeFilterDays now h2;
    DoraMetrics.mttr := avgMTTR averages;
    DoraMetrics.mttrTrend :=
      getTrend (map (fun d => mttr_min d / Qc_of_Z 60) recentPeriod)
               (map (fun d => mttr_min d / Qc_of_Z 60) previousPeriod);
    DoraMetrics.totalDeployments := totalDeployments;
    DoraMetrics.successRate := successRate;
    DoraMetrics.totalIncidents :=
      countIncidents (readOptional h2 (FilteredData.fact_incident filteredData))
        (readOptional h2 (FilteredData.dora_events filteredData));
    DoraMetrics.totalPRs :=
      length (default [] (readOptional (T:=PullRequest) h2
                            (FilteredData.fact_pr filteredData)))
  |}, h2).

(** [getDeploymentStatusCounts]: the values of the two buckets. *)
Definition getDeploymentStatusCounts (deployments : list Deployment)
    : list (string * nat * string) :=
  let success := length (filter successful deployments) in
  let failed := length (filter failed deployments) in
  [("Success", success, "hsl(142, 76%, 36%)");
   ("Failed", failed, "hsl(0, 84%, 60%)")].

(** ** [loadDoraData]

    The imported document [dora.json]: the collections by value.  Loading it
    creates one array object per collection that is present. *)
Record Document := mkDocument {
  doc_fact_deployment : list Deployment;
  doc_fact_pr : option (list PullRequest);
  doc_fact_incident : option (list Incident);
  doc_dora_events : option (list Event);
  doc_dora_summary_daily : option (list Rollup)
}.

Definition newOptional {T} `{Stored T} (o : option (list T)) : M (option loc) :=
  match o with
  | Some l => let* r := newArray l in ret (Some r)
  | None => ret None
  end.

Definition loadDoraData (doc : Document) : M DoraData :=
  let* deployment := newArray (doc_fact_deployment doc) in
  let* pr := newOptional (doc_fact_pr doc) in
  let* incident := newOptional (doc_fact_incident doc) in
  let* events := newOptional (doc_dora_events doc) in
  let* summary := newOptional (doc_dora_summary_daily doc) in
  ret {| fact_deployment := deployment;
         fact_pr := pr;
         fact_incident := incident;
         dora_events := events;
         dora_summary_daily := summary |}.

Definition empty_heap : Heap := mkHeap [] [] [] [] [].

(** What the store [data] holds in heap [h], by value. *)
Definition document_of (h : Heap) (data : DoraData) : Document :=
  {| doc_fact_deployment := contents h (fact_deployment data);
     doc_fact_pr := contents h <$> fact_pr data;
     doc_fact_incident := contents h <$> fact_incident data;
     doc_dora_events := contents h <$> dora_events data;
     doc_dora_summary_daily := contents h <$> dora_summary_daily data |}.

(** The dashboard's pipeline: load, filter, derive.  The result carries the
    snapshot, the store and the final heap. *)
Definition dashboard (doc : Document) (timeFilter : option Z) (now : Z)
    : M (DoraData * FilteredData.t * DoraMetrics.t) :=
  let* data := loadDoraData doc in
  let* filteredData := filterDataByDays data timeFilter now in
  let* metrics := calculateDoraMetrics filteredData data timeFilter now in
  ret (data, filteredData, metrics).

(** ** Inputs without the required collection

    [loadDoraData] casts the imported document to [DoraData] without
    looking at it, so at run time a store can lack [fact_deployment], and
    with it the view that [filterDataByDays] makes of it for the unbounded
    window, which passes the field on as it is.  Reading a property of
    [undefined] raises a [TypeError]. *)


(** A store as it may be at run time. *)
Module UncheckedData.
Record t := mk {
  fact_deployment : option loc;
  fact_pr : option loc;
  fact_incident : option loc;
  dora_events : option loc;
  dora_summary_daily : option loc
}.

(** The store as a value of the declared type, when it is one. *)
Definition declared (data : t) : option DoraData :=
  match fact_deployment data with
  | Some deployment =>
      Some (mkDoraData deployment (fact_pr data) (fact_incident data)
              (dora_events data) (dora_summary_daily data))
  | None => None
  end.
End UncheckedData.

(** A view as it may be at run time. *)
Module UncheckedView.
Record t := mk {
  fact_deployment : option loc;
  dora_summary_daily : option loc;
  fact_pr : option loc;
  fact_incident : option loc;
  dora_events : option loc
}.

Definition declared (view : t) : option FilteredData.t :=
  match fact_deployment view with
  | Some deployment =>
      Some (FilteredData.mk deployment (dora_summary_daily view) (fact_pr view)
              (fact_incident view) (dora_events view))
  | None => None
  end.
End UncheckedView.


(** ** The repository-summary feed: [parseCSV]

    The version with [daysSinceLastRelease]; the older one differs only in
    lacking that field.  Strings are sequences of 8-bit characters; the
    white space of [trim] and [parseInt] is the ASCII part of JavaScript's.
    The object [row] is a finite map from column names to cells: none of the
    names [parseCSV] looks up is inherited from [Object.prototype]. *)

Local Open Scope Z_scope.

(** A JavaScript number that [parseInt] can return. *)
Inductive number := NaN | Int (n : Z).

#[global] Instance number_eq_dec : EqDecision number.
Proof. solve_decision. Defined.

(** [a + b] *)
Definition number_add (a b : number) : number :=
  match a, b with
  | Int x, Int y => Int (x + y)
  | _, _ => NaN
  end.

Definition isWhiteSpace (c : ascii) : bool :=
  bool_decide (c ∈ [" "; "009"; "010"; "011"; "012"; "013"]%char).

Fixpoint trimStart (s : string) : string :=
  match s with
  | EmptyString => EmptyString
  | String c s' => if isWhiteSpace c then trimStart s' else s
  end.

Fixpoint trimEnd (s : string) : string :=
  match s with
  | EmptyString => EmptyString
  | String c s' =>
      match trimEnd s' with
      | EmptyString => if isWhiteSpace c then EmptyString else String c EmptyString
      | t => String c t
      end
  end.

(** [s.trim()] *)
Definition trim (s : string) : string := trimEnd (trimStart s).

(** [s.split(sep)] for a one-character separator. *)
Fixpoint split (sep : ascii) (s : string) : list string :=
  match s with
  | EmptyString => [EmptyString]
  | String c s' =>
      if decide (c = sep) then EmptyString :: split sep s'
      else
        match split sep s' with
        | x :: xs => String c x :: xs
        | [] => [String c EmptyString]
        end
  end.

Definition digit (c : ascii) : option Z :=
  let n := Z.of_nat (nat_of_ascii c) in
  if decide (48 ≤ n ≤ 57) then Some (n - 48) else None.

(** The value of the longest prefix of decimal digits, starting from [acc];
    [None] when there is no digit at all. *)
Fixpoint leadingDigits (s : string) (acc : option Z) : option Z :=
  match s with
  | EmptyString => acc
  | String c s' =>
      match digit c with
      | Some d => leadingDigits s' (Some (10 * default 0 acc + d))
      | None => acc
      end
  end.

(** [parseInt(s, 10)]: leading white space skipped, an optional sign, then
    the longest run of digits; [NaN] when that run is empty. *)
Definition parseInt (s : string) : number :=
  let s := trimStart s in
  let signed :=
    match s with
    | String "-"%char s' => (-1, s')
    | String "+"%char s' => (1, s')
    | _ => (1, s)
    end in
  match leadingDigits signed.2 None with
  | Some n => Int (signed.1 * n)
  | None => NaN
  end.

Record RepoMetrics := mkRepoMetrics {
  repoName : string;
  displayName : string;
  prsOpened : number;
  prsMerged : number;
  issuesReadyForQA : number;
  issuesQACompleted : number;
  daysSinceLastRelease : option number;
  fetchedAt : string
}.

(** [headers.forEach((header, index) =>
      { row[header.trim()] = values[index]?.trim() || ""; })],
    from position [index] on. *)
Fixpoint fillRow (headers : list string) (index : nat) (values : list string)
    (row : gmap string string) : gmap string string :=
  match headers with
  | [] => row
  | header :: headers' =>
      fillRow headers' (S index) values
        (<[trim header := default EmptyString (trim <$> values !! index)]> row)
  end.

(** [row[key] || dflt]: the empty string and [undefined] are falsy. *)
Definition orElse (row : gmap string string) (key dflt : string) : string :=
  match row !! key with
  | Some EmptyString | None => dflt
  | Some v => v
  end.

(** The body of the loop for one line. *)
Definition parseRow (headers values : list string) : RepoMetrics :=
  let row := fillRow headers 0 values ∅ in
  {| repoName := orElse row "repo_name" "";
     displayName := orElse row "display_name" "";
     prsOpened := parseInt (orElse row "prs_opened" "0");
     prsMerged := parseInt (orElse row "prs_merged" "0");
     issuesReadyForQA := parseInt (orElse row "issues_ready_for_qa" "0");
     issuesQACompleted := parseInt (orElse row "issues_qa_completed" "0");
     daysSinceLastRelease :=
       match row !! "days_since_last_release" with
       | Some EmptyString | None => None
       | Some v => Some (parseInt v)
       end;
     fetchedAt := orElse row "fetched_at" "" |}.

Definition parseCSV (csvText : string) : list RepoMetrics :=
  let lines := split "010" (trim csvText) in
  if decide (length lines < 2)%nat then []
  else
    match lines with
    | headerLine :: rows =>
        let headers := split "," headerLine in
        map (fun line => parseRow headers (split "," line)) rows
    | [] => []
    end.

(** The accumulator of [SummaryCard]'s [metrics.reduce(...)]. *)
Module Totals.
Record t := mk {
  prsOpened : number;
  prsMerged : number;
  issuesReadyForQA : number;
  issuesQACompleted : number
}.
End Totals.

Definition totals (metrics : list RepoMetrics) : Totals.t :=
  fold_left
    (fun acc repo =>
       {| Totals.prsOpened := number_add (Totals.prsOpened acc) (prsOpened repo);
          Totals.prsMerged := number_add (Totals.prsMerged acc) (prsMerged repo);
          Totals.issuesReadyForQA :=
            number_add (Totals.issuesReadyForQA acc) (issuesReadyForQA repo);
          Totals.issuesQACompleted :=
            number_add (Totals.issuesQACompleted acc) (issuesQACompleted repo) |})
    metrics (Totals.mk (Int 0) (Int 0) (Int 0) (Int 0)).

(** ** Vocabulary of the statements *)

Local Open Scope Qc_scope.

(** The sum and the arithmetic mean of a sequence of numbers. *)
Definition total (l : list Qc) : Qc := foldr Qcplus 0 l.

Definition arithmetic_mean (l : list Qc) : Qc := total l / num (length l).

(** What a view holds in heap [h], by value. *)
Definition view_of (h : Heap) (filteredData : FilteredData.t) : Document :=
  {| doc_fact_deployment := contents h (FilteredData.fact_deployment filteredData);
     doc_fact_pr := readOptional h (FilteredData.fact_pr filteredData);
     doc_fact_incident := readOptional h (FilteredData.fact_incident filteredData);
     doc_dora_events := readOptional h (FilteredData.dora_events filteredData);
     doc_dora_summary_daily :=
       readOptional h (FilteredData.dora_summary_daily filteredData) |}.

(** Every array of the store exists in the heap. *)
Definition allocated (h : Heap) (data : DoraData) : Prop :=
  (fact_deployment data < length (deployment_arrays h))%nat
  ∧ (∀ r, fact_pr data = Some r → r < length (pr_arrays h))%nat
  ∧ (∀ r, fact_incident data = Some r → r < length (incident_arrays h))%nat
  ∧ (∀ r, dora_events data = Some r → r < length (event_arrays h))%nat
  ∧ (∀ r, dora_summary_daily data = Some r → r < length (rollup_arrays h))%nat.

(** The bound [2^-53] on the relative error of a rounding. *)
Definition unit_roundoff : Qc := Q2Qc (1 # 9007199254740992).

(** ** Inputs used in examples *)

(** A view with an older deployment that took one hour and a newer one
    whose [finished_at_utc] lies [late] milliseconds after its
    [created_at_utc]. *)
Definition two_deployments (late : Z) : Heap * FilteredData.t * DoraData :=
  (mkHeap [[mkDeployment 1 "production" 0 3600000 "success" "ann" "a1";
            mkDeployment 2 "production" 7200000 (7200000 + late) "success" "bob" "b2"]]
          [] [] [] [],
   FilteredData.mk 0 None None None None,
   mkDoraData 0 None None None None).

(** Scenario A of the spec as a view: two rollup rows,
    (deploys 2, cfr 0.5, 4 h, 60 min) and (deploys 4, cfr 0, 2 h, 0 min). *)
Definition scenario_A : Heap * FilteredData.t * DoraData :=
  (mkHeap [[]] [] [] []
     [[mkRollup 86400000 2 1 (Q2Qc (1 # 2)) (Qc_of_Z 4) (Qc_of_Z 60);
       mkRollup 172800000 (Qc_of_Z 4) 0 0 2 0]],
   FilteredData.mk 0 (Some 0%nat) None None None,
   mkDoraData 0 None None None None).

(** A view with two rollup rows without deployments, 60 minutes of
    recovery on each. *)
Definition idle_days : Heap * FilteredData.t * DoraData :=
  (mkHeap [[]] [] [] []
     [[mkRollup 86400000 0 0 0 0 (Qc_of_Z 60);
       mkRollup 172800000 0 0 0 0 (Qc_of_Z 60)]],
   FilteredData.mk 0 (Some 0%nat) None None None,
   mkDoraData 0 None None None None).

(** An optional collection that is absent or empty. *)
Definition nothing {T} (o : option (list T)) : Prop := o = None ∨ o = Some [].

(** The snapshot of "no data". *)
Definition zero_metrics : DoraMetrics.t :=
  {| DoraMetrics.deploymentFrequency := 0;
     DoraMetrics.deploymentFrequencyTrend := 0;
     DoraMetrics.deploymentFrequencyTrendText := "0 deployments in last week";
     DoraMetrics.deploymentsYesterday := 0;
     DoraMetrics.deploymentsLastWeek := 0;
     DoraMetrics.deploymentsLastMonth := 0;
     DoraMetrics.leadTime := 0;
     DoraMetrics.leadTimeTrend := 0;
     DoraMetrics.maxLeadTime := 0;
     DoraMetrics.minLeadTime := 0;
     DoraMetrics.lastDeploymentLeadTime := 0;
     DoraMetrics.cfr := 0;
     DoraMetrics.cfrTrend := 0;
     DoraMetrics.cfrTrendStatus := good;
     DoraMetrics.failedDeployments := 0;
     DoraMetrics.successfulDeployments := 0;
     DoraMetrics.mttr := 0;
     DoraMetrics.mttrTrend := 0;
     DoraMetrics.maxMTTR := 0;
     DoraMetrics.minMTTR := 0;
     DoraMetrics.lastIncidentMTTR := 0;
     DoraMetrics.totalDeployments := 0;
     DoraMetrics.successRate := 0;
     DoraMetrics.totalIncidents := 0;
     DoraMetrics.totalPRs := 0 |}.


(** A store whose deployments and incidents are kept oldest first. *)
Definition two_releases : Document :=
  {| doc_fact_deployment :=
       [mkDeployment 1 "production" 0 3600000 "success" "ann" "a1";
        mkDeployment 2 "production" 7200000 9000000 "failure" "bob" "b2"];
     doc_fact_pr := None;
     doc_fact_incident :=
       Some [mkIncident "INC-1" "outage" 1000 2000 (Qc_of_Z 30);
             mkIncident "INC-2" "rollback" 8000000 9000000 (Qc_of_Z 45)];
     doc_dora_events := None;
     doc_dora_summary_daily := None |}.

(** A store with two daily rollups, newest first: four deployments on the
    later day, two on the day before. *)
Definition rising_frequency : Document :=
  {| doc_fact_deployment := [];
     doc_fact_pr := None;
     doc_fact_incident := None;
     doc_dora_events := None;
     doc_dora_summary_daily :=
       Some [mkRollup 172800000 (Qc_of_Z 4) 0 0 2 0;
             mkRollup 86400000 2 0 0 2 0] |}.

(** The column names that [parseRow] looks up. *)
Definition recognized_columns : list string :=
  ["repo_name"; "display_name"; "prs_opened"; "prs_merged";
   "issues_ready_for_qa"; "issues_qa_completed"; "days_since_last_release";
   "fetched_at"].

Definition newline : string := String "010" EmptyString.

(** A feed whose second column holds text where a count is expected. *)
Definition malformed_feed : string :=
  "repo_name,prs_opened" +:+ newline +:+ "web,abc".

(** The cell of [values] under the column at position [i]. *)
Definition cell (values : list string) (i : nat) : string :=
  default EmptyString (trim <$> values !! i).

(** The four count columns with the fields they fill. *)
Definition count_columns : list (string * (RepoMetrics → number)) :=
  [("prs_opened", prsOpened); ("prs_merged", prsMerged);
   ("issues_ready_for_qa", issuesReadyForQA);
   ("issues_qa_completed", issuesQACompleted)].

(** ** Further functions of the dashboard *)

(** *** [getTeamPerformance] *)

(** [Array.from(new Set(a))]: the distinct elements of [a] in the order of
    their first occurrence. *)
Fixpoint distinctInOrder (a : list string) : list string :=
  match a with
  | [] => []
  | x :: a' => x :: filter (λ y, y ≠ x) (distinctInOrder a')
  end.

Module TeamMember.
Record t := mk {
  actor : string;
  deployments : nat;
  successRate : Qc
}.
End TeamMember.

Definition getTeamPerformance (deployments : list Deployment) : list TeamMember.t :=
  let actors := distinctInOrder (map actor deployments) in
  map (λ a,
         let actorDeployments := filter (λ d, actor d = a) deployments in
         let successRate :=
           if decide (0 < length actorDeployments)%nat
           then (num (length (filter successful actorDeployments))
                 / num (length actorDeployments)) * Qc_of_Z 100
           else 0 in
         {| TeamMember.actor := a;
            TeamMember.deployments := length actorDeployments;
            TeamMember.successRate := successRate |})
      actors.

(** *** [RecentDeployments] *)

(** [deployments.slice(0, 8)] *)
Definition recentDeployments (deployments : list Deployment) : list Deployment :=
  take 8 deployments.

Inductive BadgeVariant :=
  badge_default | badge_secondary | badge_destructive | badge_outline.

(** The [switch] of [getStatusVariant]. *)
Definition getStatusVariant (state : string) : BadgeVariant :=
  if decide (state = "success") then badge_default
  else if decide (state = "inactive") then badge_secondary
  else if decide (state = "error" ∨ state = "failure") then badge_destructive
  else badge_outline.

(** *** The four charts

    Each chart returns a placeholder ([None]) for an absent or empty
    sequence; otherwise it filters the rows, sorts the new array by date and
    maps every row to a point.  The label of a point is made by
    [toLocaleDateString], which is a parameter here. *)

Record ChartPoint := mkChartPoint {
  point_date : string;
  point_value : Qc
}.

(** [(a, b) => new Date(a.date).getTime() - new Date(b.date).getTime()] *)
Definition oldestRollupFirst (a b : Rollup) : Z := (date a - date b)%Z.

Section charts.
Context (toLocaleDateString : Z → string).

(** [data.filter(keep).sort(...).map(d => ({date: ..., value: f(d)}))] *)
Definition chartData (keep : Rollup → Prop) `{∀ d, Decision (keep d)}
    (f : Rollup → Qc) (data : option (list Rollup)) : option (list ChartPoint) :=
  match data with
  | Some ((_ :: _) as data) =>
      Some (map (λ d, {| point_date := toLocaleDateString (date d);
                         point_value := f d |})
              (sorted_by oldestRollupFirst (filter keep data)))
  | _ => None
  end.

Definition DeploymentFrequencyChart :=
  chartData (λ d, 0 < deploys d) deploys.

Definition LeadTimeChart :=
  chartData (λ d, 0 < avg_lt_hours d) avg_lt_hours.

Definition FailureRateChart :=
  chartData (λ d, 0 < deploys d) (λ d, cfr d * Qc_of_Z 100).

Definition MTTRChart :=
  chartData (λ d, 0 < mttr_min d) (λ d, mttr_min d / Qc_of_Z 60).
End charts.

(** *** [SummaryCard] of the repository-summary page *)

(** [Math.round(x)]: the nearest integer, the larger one on a tie. *)
Definition Math_round (x : Qc) : Z := Qfloor ((x + Q2Qc (1 # 2))%Qc).

(** [Math.round(sum / n)] for a sum that may be NaN. *)
Definition roundedQuotient (sum : number) (n : nat) : number :=
  match sum with
  | Int z => Int (Math_round (Qc_of_Z z / num n))
  | NaN => NaN
  end.

(** The immediately invoked function that computes [avgDaysSinceRelease];
    [None] is [null]. *)
Definition avgDaysSinceRelease (metrics : list RepoMetrics) : option number :=
  let withRelease := filter (λ m, daysSinceLastRelease m ≠ None) metrics in
  if decide (length withRelease = 0)%nat then None
  else
    let sum :=
      fold_left (λ s m, number_add s (default (Int 0) (daysSinceLastRelease m)))
        withRelease (Int 0) in
    Some (roundedQuotient sum (length withRelease)).

(** *** [fetchGitHubData]: the counts made from the two responses *)

Record GitHubPR := mkGitHubPR {
  gh_pr_id : Z;
  gh_pr_state : string;
  merged_at : option Z;
  created_at : Z
}.

(** [labels] holds the names of the labels; [pull_request] tells whether the
    optional field is present. *)
Record GitHubIssue := mkGitHubIssue {
  gh_issue_id : Z;
  labels : list string;
  gh_issue_state : string;
  pull_request : bool
}.

(** [s.toLowerCase()] on the 8-bit characters of the model. *)
Definition lowerChar (c : ascii) : ascii :=
  let n := nat_of_ascii c in
  if decide (65 ≤ n ≤ 90)%nat then ascii_of_nat (n + 32) else c.

Fixpoint toLowerCase (s : string) : string :=
  match s with
  | EmptyString => EmptyString
  | String c s' => String (lowerChar c) (toLowerCase s')
  end.

Fixpoint startsWith (s prefix : string) : bool :=
  match prefix, s with
  | EmptyString, _ => true
  | String p prefix', String c s' =>
      if decide (p = c) then startsWith s' prefix' else false
  | String _ _, EmptyString => false
  end.

(** [s.includes(part)] *)
Fixpoint includes (s part : string) : bool :=
  startsWith s part ||
  match s with
  | EmptyString => false
  | String _ s' => includes s' part
  end.

(** [issue.labels.some(label => patterns.some(p =>
      label.name.toLowerCase().includes(p)))] *)
Definition hasLabelLike (patterns : list string) (issue : GitHubIssue) : Prop :=
  Exists (λ name, Exists (λ p, includes (toLowerCase name) p = true) patterns)
    (labels issue).

#[global] Instance hasLabelLike_dec patterns issue :
  Decision (hasLabelLike patterns issue).
Proof. unfold hasLabelLike. apply _. Defined.

Definition readyForQAPatterns : list string :=
  ["ready for qa"; "ready-for-qa"; "qa ready"].

Definition qaCompletedPatterns : list string :=
  ["qa completed"; "qa-completed"; "qa done"; "qa-done"; "qa'd"].

Module GitHubCounts.
Record t := mk {
  prsOpened : nat;
  prsMerged : nat;
  issuesReadyForQA : nat;
  issuesQACompleted : nat
}.
End GitHubCounts.

(** What [fetchGitHubData] returns once both responses have been parsed
    into [prs] and [issues]. *)
Definition countGitHubData (prs : list GitHubPR) (issues : list GitHubIssue)
    (now : Z) : GitHubCounts.t :=
  let thirtyDaysAgo := (now - 30 * 24 * 60 * 60 * 1000)%Z in
  let recentPRs := filter (λ pr, (thirtyDaysAgo ≤ created_at pr)%Z) prs in
  let actualIssues := filter (λ issue, pull_request issue = false) issues in
  {| GitHubCounts.prsOpened := length recentPRs;
     GitHubCounts.prsMerged := length (filter (λ pr, merged_at pr ≠ None) recentPRs);
     GitHubCounts.issuesReadyForQA :=
       length (filter (hasLabelLike readyForQAPatterns) actualIssues);
     GitHubCounts.issuesQACompleted :=
       length (filter (hasLabelLike qaCompletedPatterns) actualIssues) |}.

(** *** [PRPerformance]

    The statistics are collected in an object literal whose properties are
    named by the authors.  Such an object inherits the members of
    [Object.prototype]: for their names [acc[author]] is truthy from the
    start, so no property is created, and the two increments change the
    inherited member and not [acc].  [Object.values] lists the values of
    the properties of the object itself, those named by an array index
    first, in ascending order, then the others in the order of their
    creation. *)

Definition objectPrototypeNames : list string :=
  ["constructor"; "__defineGetter__"; "__defineSetter__"; "hasOwnProperty";
   "__lookupGetter__"; "__lookupSetter__"; "isPrototypeOf";
   "propertyIsEnumerable"; "toString"; "valueOf"; "__proto__";
   "toLocaleString"].

(** The number that a string of decimal digits denotes. *)
Fixpoint digitsValue (s : string) (acc : Z) : option Z :=
  match s with
  | EmptyString => Some acc
  | String c s' =>
      match digit c with
      | Some d => digitsValue s' (10 * acc + d)%Z
      | None => None
      end
  end.

(** The array index that a property name is the canonical numeral of: a
    number from 0 to 2^32 - 2 written without sign or leading zero. *)
Definition arrayIndex (name : string) : option Z :=
  match name with
  | EmptyString => None
  | String "0"%char EmptyString => Some 0%Z
  | String "0"%char _ => None
  | _ =>
      match digitsValue name 0%Z with
      | Some n => if decide (n ≤ 4294967294)%Z then Some n else None
      | None => None
      end
  end.

Module AuthorStats.
Record t := mk {
  author : string;
  totalPRs : nat;
  mergedPRs : nat
}.
End AuthorStats.

(** The object [acc]: the names of its own properties in the order of
    their creation, and their values. *)
Record StatsObject := mkStatsObject {
  created : list string;
  own : gmap string AuthorStats.t
}.

(** The callback of [prs.reduce]. *)
Definition countPR (acc : StatsObject) (pr : PullRequest) : StatsObject :=
  let author := author pr in
  if decide (author ∈ objectPrototypeNames) then acc
  else
    let acc :=
      match own acc !! author with
      | Some _ => acc
      | None =>
          {| created := created acc ++ [author];
             own := <[author := AuthorStats.mk author 0 0]> (own acc) |}
      end in
    {| created := created acc;
       own :=
         alter (λ stats,
                  AuthorStats.mk (AuthorStats.author stats)
                    (S (AuthorStats.totalPRs stats))
                    (S (AuthorStats.mergedPRs stats)))
           author (own acc) |}.

(** [Object.values(o)] *)
Definition Object_values (o : StatsObject) : list AuthorStats.t :=
  let indices := filter (λ name, is_Some (arrayIndex name)) (created o) in
  let others := filter (λ name, arrayIndex name = None) (created o) in
  let keys :=
    sorted_by (λ a b, default 0 (arrayIndex a) - default 0 (arrayIndex b))%Z indices
    ++ others in
  omap (λ name, own o !! name) keys.

(** [authorData]: the statistics, most pull requests first. *)
Definition authorData (prs : list PullRequest) : list AuthorStats.t :=
  let authorStats := fold_left countPR prs (mkStatsObject [] ∅) in
  sorted_by (λ a b, Z.of_nat (AuthorStats.totalPRs b)
                    - Z.of_nat (AuthorStats.totalPRs a))%Z
    (Object_values authorStats).

(** The rows that the component shows; [None] is the placeholder. *)
Definition PRPerformance (prs : option (list PullRequest)) (isExpanded : bool)
    : option (list AuthorStats.t) :=
  match prs with
  | Some ((_ :: _) as prs) =>
      Some (if isExpanded then authorData prs else take 5 (authorData prs))
  | _ => None
  end.

(** The authors that get a property of their own, in the order of their
    first pull request. *)
Definition counted (prs : list PullRequest) : list string :=
  distinctInOrder (filter (λ a, a ∉ objectPrototypeNames) (author <$> prs)).

(** A store of forty deployments of one day, 23 of them successful. *)
Definition forty_deployments : Heap * DoraData :=
  (mkHeap [replicate 23 (mkDeployment 1 "production" 0 3600000 "success" "ann" "a1")
           ++ replicate 17 (mkDeployment 2 "production" 0 3600000 "failure" "bob" "b2")]
          [] [] [] [],
   mkDoraData 0 None None None None).


(** *** Further inputs used in examples *)

(** A view without rollup rows: three deployments, one of them failed and
    one with a state outside the four classified ones, and two incidents. *)
Definition raw_records : Heap * FilteredData.t * DoraData :=
  (mkHeap [[mkDeployment 1 "production" 0 3600000 "success" "ann" "a1";
            mkDeployment 2 "production" 7200000 9000000 "failure" "bob" "b2";
            mkDeployment 3 "staging" 10800000 18000000 "pending" "ann" "c3"]]
          []
          [[mkIncident "INC-1" "outage" 1000 2000 (Qc_of_Z 30);
            mkIncident "INC-2" "rollback" 8000000 9000000 (Qc_of_Z 45)]]
          [] [],
   FilteredData.mk 0 None None (Some 0%nat) None,
   mkDoraData 0 None (Some 0%nat) None None).

(** The integer of a number that is not NaN. *)
Definition intValue (x : number) : Z :=
  match x with Int n => n | NaN => 0%Z end.

(** The four fields of the totals with the fields of a row they add up. *)
Definition total_columns : list ((Totals.t → number) * (RepoMetrics → number)) :=
  [(Totals.prsOpened, prsOpened); (Totals.prsMerged, prsMerged);
   (Totals.issuesReadyForQA, issuesReadyForQA);
   (Totals.issuesQACompleted, issuesQACompleted)].

(** The row that a line without any text gives. *)
Definition blank_row : RepoMetrics :=
  {| repoName := ""; displayName := "";
     prsOpened := Int 0; prsMerged := Int 0;
     issuesReadyForQA := Int 0; issuesQACompleted := Int 0;
     daysSinceLastRelease := None; fetchedAt := "" |}.

(** Every record of the document carries a time stamp of [cutoff] or
    later. *)
Definition all_within (cutoff : Z) (doc : Document) : Prop :=
  Forall (λ d, (cutoff ≤ created_at_utc d)%Z) (doc_fact_deployment doc)
  ∧ Forall (λ pr, (cutoff ≤ pr_merged_at_utc pr)%Z) (default [] (doc_fact_pr doc))
  ∧ Forall (λ i, (cutoff ≤ created_utc i)%Z) (default [] (doc_fact_incident doc))
  ∧ Forall (λ e, (cutoff ≤ when_utc e)%Z) (default [] (doc_dora_events doc))
  ∧ Forall (λ d, (cutoff ≤ date d)%Z) (default [] (doc_dora_summary_daily doc)).

(** * Properties *)

(** ** Sums *)

Lemma fold_left_sum_from {T} (f : T → Qc) (l : list T) (a : Qc) :
  fold_left (λ sum d, sum + f d) l a = a + total (f <$> l).
Proof.
  revert a. induction l as [|x l IH]; intros a; simpl.
  - by rewrite Qcplus_0_r.
  - rewrite IH. by rewrite Qcplus_assoc.
Qed.

Lemma reduce_sum_total {T} (f : T → Qc) (l : list T) :
  reduce_sum f l = total (f <$> l).
Proof. unfold reduce_sum. rewrite fold_left_sum_from. apply Qcplus_0_l. Qed.

Lemma num_0 : num 0 = 0.
Proof. apply Z2Qc_inj_0. Qed.

Lemma num_S n : num (S n) = 1 + num n.
Proof.
  unfold num. by rewrite Nat2Z.inj_succ, <-Z.add_1_l, Z2Qc_inj_add, Z2Qc_inj_1.
Qed.

Lemma num_nonneg n : 0 ≤ num n.
Proof. unfold num. rewrite <-Z2Qc_inj_0, <-Z2Qc_inj_le. lia. Qed.

Lemma num_pos n : (0 < n)%nat → 0 < num n.
Proof. intros. unfold num. rewrite <-Z2Qc_inj_0, <-Z2Qc_inj_lt. lia. Qed.

Lemma num_le n m : (n ≤ m)%nat → num n ≤ num m.
Proof. intros. unfold num. rewrite <-Z2Qc_inj_le. lia. Qed.

Lemma total_constant (v : Qc) (l : list Qc) :
  Forall (λ x, x = v) l → total l = num (length l) * v.
Proof.
  induction 1 as [|x l -> _ IH]; simpl.
  - by rewrite num_0, Qcmult_0_l.
  - rewrite IH, num_S. ring.
Qed.

(** ** Sorting *)

Section sorting.
Context {T : Type} (compareFn : T → T → Z).

Lemma sort_insert_Permutation x l : sort_insert compareFn x l ≡ₚ x :: l.
Proof.
  induction l as [|y l IH]; simpl; [done|].
  case_decide; [done|]. rewrite IH. apply Permutation_swap.
Qed.

Lemma sorted_by_Permutation l : sorted_by compareFn l ≡ₚ l.
Proof.
  induction l as [|x l IH]; simpl; [done|].
  rewrite sort_insert_Permutation. by rewrite IH.
Qed.

Lemma sorted_by_nil_inv l : sorted_by compareFn l = [] → l = [].
Proof.
  intros E. apply Permutation_nil_r. rewrite <-E.
  symmetry. apply sorted_by_Permutation.
Qed.
End sorting.

(** Sorting by a key, largest first: the head carries a largest key. *)
Section newest_first.
Context {T : Type} (key : T → Z).
Let compareFn (a b : T) : Z := (key b - key a)%Z.
Let descending (a b : T) : Prop := (key b ≤ key a)%Z.

Lemma sort_insert_descending x l :
  StronglySorted descending l →
  StronglySorted descending (sort_insert compareFn x l).
Proof.
  induction 1 as [|y l Hl IH Hy]; simpl.
  - repeat constructor.
  - case_decide as Hc.
    + constructor; [by constructor|].
      assert (descending x y) by (unfold descending, compareFn in *; lia).
      constructor; [done|].
      eapply Forall_impl; [exact Hy|]. unfold descending in *. intros; lia.
    + constructor; [done|].
      rewrite sort_insert_Permutation. constructor; [|done].
      unfold descending, compareFn in *. lia.
Qed.

Lemma sorted_by_descending l : StronglySorted descending (sorted_by compareFn l).
Proof.
  induction l as [|x l IH]; simpl; [constructor|].
  by apply sort_insert_descending.
Qed.

Lemma sorted_by_head_newest l d rest :
  sorted_by compareFn l = d :: rest →
  d ∈ l ∧ ∀ d', d' ∈ l → (key d' ≤ key d)%Z.
Proof.
  intros E. pose proof (sorted_by_descending l) as Hs.
  pose proof (sorted_by_Permutation compareFn l) as Hp.
  rewrite E in Hs, Hp. split.
  - rewrite <-Hp. left.
  - intros d'. rewrite <-Hp. intros [->|Hin]%elem_of_cons; [lia|].
    apply StronglySorted_inv in Hs as [_ Hall].
    rewrite Forall_forall in Hall. by apply Hall.
Qed.
End newest_first.

(** ** The heap under the two in-place sorts *)

Lemma count_Permutation {T} (P : T → Prop) `{∀ x, Decision (P x)} (l l' : list T) :
  l ≡ₚ l' → length (filter P l) = length (filter P l').
Proof. intros E. by rewrite E. Qed.

Lemma lookup_insert_default {A} (l : list (list A)) (r r' : nat) (x : list A) :
  default [] (<[r := x]> l !! r') =
  if decide (r' = r) then (if decide (r < length l)%nat then x else [])
  else default [] (l !! r').
Proof.
  case_decide as E.
  - subst r'. case_decide as Hlt.
    + by rewrite list_lookup_insert_eq.
    + rewrite list_insert_ge by lia. by rewrite lookup_ge_None_2 by lia.
  - by rewrite list_lookup_insert_ne.
Qed.

Lemma contents_unallocated {A} (l : list (list A)) (r : nat) :
  ¬ (r < length l)%nat → default [] (l !! r) = [].
Proof. intros. by rewrite lookup_ge_None_2 by lia. Qed.

(** After [a.sort(f)] the array [a] holds its elements in sorted order and
    every other array is as before. *)
Lemma deployments_after_jsSort compareFn r h r' :
  contents (T:=Deployment) (heap_after (jsSort (T:=Deployment) compareFn r) h) r' =
  if decide (r' = r) then sorted_by compareFn (contents h r) else contents h r'.
Proof.
  unfold heap_after, jsSort, bind, readArray, writeArray, ret, contents; simpl.
  rewrite lookup_insert_default. destruct (decide (r' = r)); [|done].
  case_decide as Hlt; [done|]. by rewrite contents_unallocated.
Qed.

Lemma incidents_after_jsSort compareFn r h r' :
  contents (T:=Incident) (heap_after (jsSort (T:=Incident) compareFn r) h) r' =
  if decide (r' = r) then sorted_by compareFn (contents h r) else contents h r'.
Proof.
  unfold heap_after, jsSort, bind, readArray, writeArray, ret, contents; simpl.
  rewrite lookup_insert_default. destruct (decide (r' = r)); [|done].
  case_decide as Hlt; [done|]. by rewrite contents_unallocated.
Qed.

Lemma deployments_after_jsSort_Permutation compareFn r h r' :
  contents (T:=Deployment) (heap_after (jsSort (T:=Deployment) compareFn r) h) r' ≡ₚ contents h r'.
Proof.
  rewrite deployments_after_jsSort. case_decide; [subst|done].
  apply sorted_by_Permutation.
Qed.

Lemma incidents_after_jsSort_Permutation compareFn r h r' :
  contents (T:=Incident) (heap_after (jsSort (T:=Incident) compareFn r) h) r' ≡ₚ contents h r'.
Proof.
  rewrite incidents_after_jsSort. case_decide; [subst|done].
  apply sorted_by_Permutation.
Qed.

Lemma sortIncidents_deployments fd h r :
  contents (T:=Deployment) (sortIncidents fd h) r = contents h r.
Proof.
  unfold sortIncidents. destruct (FilteredData.fact_incident fd); [|done].
  by case_decide.
Qed.

Lemma sortIncidents_prs fd h r :
  contents (T:=PullRequest) (sortIncidents fd h) r = contents h r.
Proof.
  unfold sortIncidents. destruct (FilteredData.fact_incident fd); [|done].
  by case_decide.
Qed.

Lemma sortIncidents_events fd h r :
  contents (T:=Event) (sortIncidents fd h) r = contents h r.
Proof.
  unfold sortIncidents. destruct (FilteredData.fact_incident fd); [|done].
  by case_decide.
Qed.

Lemma sortIncidents_incidents_Permutation fd h r :
  contents (T:=Incident) (sortIncidents fd h) r ≡ₚ contents h r.
Proof.
  unfold sortIncidents. destruct (FilteredData.fact_incident fd); [|done].
  case_decide; [|done]. apply incidents_after_jsSort_Permutation.
Qed.

(** The heap in which the result of [calculateDoraMetrics] is assembled
    holds the deployments of the heap at the call, possibly reordered. *)
Lemma deployments_at_return fd h r :
  contents (T:=Deployment)
    (sortIncidents fd
       (heap_after (jsSort newestDeploymentFirst (FilteredData.fact_deployment fd)) h)) r
  ≡ₚ contents h r.
Proof.
  rewrite sortIncidents_deployments. apply deployments_after_jsSort_Permutation.
Qed.

(** ** The read-only helpers do not depend on the order of the arrays *)

Lemma calculateDeploymentTrendText_order fd fd' od now h h' :
  contents (T:=Deployment) h' (fact_deployment od) ≡ₚ contents h (fact_deployment od) →
  calculateDeploymentTrendText fd' od now h' = calculateDeploymentTrendText fd od now h.
Proof.
  intros E. unfold calculateDeploymentTrendText.
  assert (filter (deployedBetween (now - 7 * ms_per_day) now)
            (contents h' (fact_deployment od))
          ≡ₚ filter (deployedBetween (now - 7 * ms_per_day) now)
               (contents h (fact_deployment od))) as Ew by (by rewrite E).
  rewrite (Permutation_length Ew), (count_Permutation successful _ _ Ew).
  done.
Qed.

Lemma calculateCFRTrendStatus_order fd od tf now h h' :
  (∀ r, contents (T:=Deployment) h' r ≡ₚ contents h r) →
  calculateCFRTrendStatus fd od tf now h' = calculateCFRTrendStatus fd od tf now h.
Proof.
  intros E. unfold calculateCFRTrendStatus. destruct tf as [days|].
  - by rewrite (count_Permutation failed _ _ (E (FilteredData.fact_deployment fd))),
      (count_Permutation (failedInPreviousPeriod _ _) _ _ (E (fact_deployment od))).
  - by rewrite (Permutation_length (E (fact_deployment od))),
      (count_Permutation failed _ _ (E (fact_deployment od))).
Qed.

(** ** Counting and percentages *)

Lemma successful_not_failed d : successful d → ¬ failed d.
Proof. unfold successful, failed. intros [E|E] [F|F]; rewrite E in F; discriminate. Qed.

Lemma classified_iff d :
  successful d ∨ failed d ↔
  state d ∈ ["success"; "inactive"; "error"; "failure"].
Proof.
  unfold successful, failed. rewrite !elem_of_cons, elem_of_nil. tauto.
Qed.

Lemma classification_counts (ds : list Deployment) :
  (length (filter successful ds) + length (filter failed ds) ≤ length ds)%nat
  ∧ ((length (filter successful ds) + length (filter failed ds) = length ds)%nat
     ↔ Forall (λ d, successful d ∨ failed d) ds).
Proof.
  induction ds as [|d ds [IHle IHeq]]; simpl.
  - split; [lia|]. split; [constructor|done].
  - rewrite !filter_cons, Forall_cons.
    destruct (decide (successful d)) as [Hs|Hs], (decide (failed d)) as [Hf|Hf];
      simpl.
    + by destruct (successful_not_failed d).
    + split; [lia|]. rewrite <-IHeq. intuition lia.
    + split; [lia|]. rewrite <-IHeq. intuition lia.
    + split; [lia|]. intuition lia.
Qed.

Lemma percentage_bounds (part whole : nat) :
  (part ≤ whole)%nat → (0 < whole)%nat →
  0 ≤ num part / num whole * Qc_of_Z 100 ≤ Qc_of_Z 100.
Proof.
  intros Hle Hpos. pose proof (num_pos _ Hpos) as Hw.
  pose proof (Qcinv_pos _ Hw) as Hi.
  assert (0 ≤ Qc_of_Z 100) as H100
    by (rewrite <-Z2Qc_inj_0, <-Z2Qc_inj_le; lia).
  assert (num part / num whole ≤ 1) as H1.
  { unfold Qcdiv. rewrite <-(Qcmult_inv_r (num whole)) by (by apply Qclt_not_eq in Hw).
    apply Qcmult_le_mono_nonneg_r; [by apply Qclt_le_weak|by apply num_le]. }
  split.
  - apply Qcmult_nonneg_nonneg; [|done].
    apply Qcmult_nonneg_nonneg; [apply num_nonneg|by apply Qclt_le_weak].
  - rewrite <-(Qcmult_1_l (Qc_of_Z 100)) at 2.
    by apply Qcmult_le_mono_nonneg_r.
Qed.

(** C5: successful means state success or inactive, failed means state error
    or failure; successful + failed <= total, with equality exactly when
    every state is one of the four; successRate is successful / total * 100,
    lies in [0, 100] and is 0 for an empty collection.
    [getDeploymentStatusCounts] counts the same two buckets. *)
Theorem C5_success_failure_classification fd od tf now h :
  let ds := contents (T:=Deployment) h (FilteredData.fact_deployment fd) in
  let m := (calculateDoraMetrics fd od tf now h).1 in
  let s := DoraMetrics.successfulDeployments m in
  let f := DoraMetrics.failedDeployments m in
  let t := DoraMetrics.totalDeployments m in
  s = length (filter (λ d, state d = "success" ∨ state d = "inactive") ds)
  ∧ f = length (filter (λ d, state d = "error" ∨ state d = "failure") ds)
  ∧ t = length ds
  ∧ (s + f ≤ t)%nat
  ∧ ((s + f = t)%nat ↔
     ∀ d, d ∈ ds → state d ∈ ["success"; "inactive"; "error"; "failure"])
  ∧ DoraMetrics.successRate m =
      (if decide (t = 0%nat) then 0 else num s / num t * Qc_of_Z 100)
  ∧ 0 ≤ DoraMetrics.successRate m ≤ Qc_of_Z 100
  ∧ (t = 0%nat → DoraMetrics.successRate m = 0)
  ∧ getDeploymentStatusCounts ds =
      [("Success", s, "hsl(142, 76%, 36%)"); ("Failed", f, "hsl(0, 84%, 60%)")].
Proof.
  intros ds m s f t.
  assert (s = length (filter successful ds)) as Es by reflexivity.
  assert (f = length (filter failed ds)) as Ef by reflexivity.
  assert (t = length ds) as Et by reflexivity.
  assert (DoraMetrics.successRate m =
          if decide (0 < t)%nat then num s / num t * Qc_of_Z 100 else 0) as Er
    by reflexivity.
  clearbody s f t.
  destruct (classification_counts ds) as [Hle Heq]. rewrite <-Es, <-Ef, <-Et in *.
  assert (0 ≤ Qc_of_Z 100) as H100
    by (rewrite <-Z2Qc_inj_0, <-Z2Qc_inj_le; lia).
  rewrite Er. repeat split; try done.
  - intros E. apply Heq in E. rewrite Forall_forall in E. intros d Hd.
    by apply classified_iff, E.
  - intros Hall. apply Heq. rewrite Forall_forall. intros d Hd.
    by apply classified_iff, Hall.
  - repeat case_decide; try lia; done.
  - case_decide; [|done]. apply percentage_bounds; lia.
  - case_decide; [|done]. apply percentage_bounds; lia.
  - intros E. case_decide; [lia|done].
  - unfold getDeploymentStatusCounts. by rewrite <-Es, <-Ef.
Qed.

(** C7: under the unbounded window the status is good exactly when
    failed / total * 100 over the whole store is below 20 (the rate being 0
    for a store without deployments); under a window of N days it is good
    exactly when the failures in the view are at most the failures of the
    store created in [now - 2N days, now - N days).  Two current failures
    against three previous ones give good.  The snapshot carries this
    status. *)
Theorem C7_cfr_trend_status fd od tf now h :
  let all := contents (T:=Deployment) h (fact_deployment od) in
  let view := contents (T:=Deployment) h (FilteredData.fact_deployment fd) in
  let isFailed (d : Deployment) := state d = "error" ∨ state d = "failure" in
  let rate :=
    if decide (length all = 0%nat) then 0
    else num (length (filter isFailed all)) / num (length all) * Qc_of_Z 100 in
  let previous (N : Z) :=
    filter (λ d, isFailed d ∧
                 (now - 2 * N * 86400000 ≤ created_at_utc d)%Z ∧
                 (created_at_utc d < now - N * 86400000)%Z) all in
  (calculateCFRTrendStatus fd od None now h = good ↔ rate < Qc_of_Z 20)
  ∧ (∀ N, calculateCFRTrendStatus fd od (Some N) now h = good ↔
          (length (filter isFailed view) ≤ length (previous N))%nat)
  ∧ (∀ N, length (filter isFailed view) = 2%nat → length (previous N) = 3%nat →
          calculateCFRTrendStatus fd od (Some N) now h = good)
  ∧ DoraMetrics.cfrTrendStatus (calculateDoraMetrics fd od tf now h).1 =
      calculateCFRTrendStatus fd od tf now h.
Proof.
  intros all view isFailed rate previous.
  assert (∀ N, calculateCFRTrendStatus fd od (Some N) now h = good ↔
          (length (filter isFailed view) ≤ length (previous N))%nat) as Hwin.
  { intros N. unfold calculateCFRTrendStatus. fold all view.
    assert (filter (failedInPreviousPeriod
                      (now - N * ms_per_day - N * ms_per_day) (now - N * ms_per_day)) all
            = previous N) as ->.
    { apply list_filter_iff. intros d.
      unfold failedInPreviousPeriod, failed, isFailed, ms_per_day. intuition lia. }
    change (filter failed view) with (filter isFailed view).
    case_decide; split; intros; (done || lia). }
  split; [|split; [exact Hwin|split]].
  - unfold calculateCFRTrendStatus. fold all.
    change (filter failed all) with (filter isFailed all). subst rate.
    destruct (decide (length all = 0%nat)) as [E|E].
    + destruct (decide (0 < length all)%nat); [lia|].
      case_decide; split; intros; (done || congruence).
    + destruct (decide (0 < length all)%nat); [|lia].
      case_decide; split; intros; (done || congruence).
  - intros N E2 E3. apply Hwin. lia.
  - simpl. apply calculateCFRTrendStatus_order. intros r.
    apply deployments_at_return.
Qed.

(** ** Rounding *)

Lemma round_half_up_nearest (x : Qc) :
  Qc_of_Z (round_half_up x) ≤ x + Q2Qc (1 # 2)
  ∧ x + Q2Qc (1 # 2) < Qc_of_Z (round_half_up x) + 1.
Proof.
  unfold round_half_up. set (y := x + Q2Qc (1 # 2)). clearbody y. split.
  - exact (Qfloor_le y).
  - rewrite <-Z2Qc_inj_1, <-Z2Qc_inj_add. exact (Qlt_floor y).
Qed.

Lemma toFixed0_nonneg (x : Qc) : 0 ≤ x → toFixed0 x = pretty (round_half_up x).
Proof.
  intros Hx. unfold toFixed0. case_decide as Hneg; [|done].
  by apply Qclt_not_le in Hneg.
Qed.

(** ** Doubles *)

(** Inequalities of [Qc] as inequalities of [Q], for [lra]. *)
Lemma this_plus (x y : Qc) : (this (x + y) == this x + this y)%Q.
Proof. apply Qred_correct. Qed.
Lemma this_mult (x y : Qc) : (this (x * y) == this x * this y)%Q.
Proof. apply Qred_correct. Qed.
Lemma this_opp (x : Qc) : (this (- x) == - this x)%Q.
Proof. apply Qred_correct. Qed.
Lemma this_minus (x y : Qc) : (this (x - y) == this x - this y)%Q.
Proof. unfold Qcminus. rewrite this_plus, this_opp. reflexivity. Qed.
Lemma this_Q2Qc (q : Q) : (this (Q2Qc q) == q)%Q.
Proof. apply Qred_correct. Qed.
Lemma this_of_Z (z : Z) : (this (Qc_of_Z z) == inject_Z z)%Q.
Proof. reflexivity. Qed.

Ltac to_Q :=
  unfold Qcle, Qclt in *;
  repeat match goal with
  | H : context [this (_ + _)%Qc] |- _ => rewrite this_plus in H
  | H : context [this (_ - _)%Qc] |- _ => rewrite this_minus in H
  | H : context [this (_ * _)%Qc] |- _ => rewrite this_mult in H
  | H : context [this (- _)%Qc] |- _ => rewrite this_opp in H
  | H : context [this (Qc_of_Z _)] |- _ => rewrite this_of_Z in H
  | H : context [this (Q2Qc _)] |- _ => rewrite this_Q2Qc in H
  | |- context [this (_ + _)%Qc] => rewrite this_plus
  | |- context [this (_ - _)%Qc] => rewrite this_minus
  | |- context [this (_ * _)%Qc] => rewrite this_mult
  | |- context [this (- _)%Qc] => rewrite this_opp
  | |- context [this (Qc_of_Z _)] => rewrite this_of_Z
  | |- context [this (Q2Qc _)] => rewrite this_Q2Qc
  end.

Lemma round_half_even_near (x : Qc) :
  Qc_of_Z (round_half_even x) - Q2Qc (1 # 2) ≤ x
  ∧ x ≤ Qc_of_Z (round_half_even x) + Q2Qc (1 # 2).
Proof.
  unfold round_half_even.
  pose proof (Qfloor_le x) as Hlo. pose proof (Qlt_floor x) as Hhi.
  set (f := Qfloor x) in *. clearbody f.
  rewrite inject_Z_plus in Hhi.
  cbv zeta.
  destruct (decide _) as [H1|H1]; [|destruct (decide _) as [H2|H2];
                                     [|destruct (Z.even f)]];
    to_Q; rewrite ?inject_Z_plus; change (inject_Z 1) with 1%Q in *;
    split; lra.
Qed.

(** Powers of two. *)
Lemma Z2Qc_pos (z : Z) : (0 < z)%Z → 0 < Qc_of_Z z.
Proof. intros. by rewrite <-Z2Qc_inj_0, <-Z2Qc_inj_lt. Qed.

Lemma pow2_quotient (a b : Z) :
  (0 ≤ a)%Z → (0 ≤ b)%Z → pow2 (a - b) = Qc_of_Z (2 ^ a) / Qc_of_Z (2 ^ b).
Proof.
  intros Ha Hb. unfold pow2.
  assert (∀ z, (0 ≤ z)%Z → Qc_of_Z (2 ^ z) ≠ 0) as Hne.
  { intros z Hz. apply not_eq_sym, Qclt_not_eq, Z2Qc_pos. lia. }
  destruct (decide (a ≤ b)%Z) as [Hab|Hab].
  - rewrite Z.max_l, Z.max_r by lia.
    replace (2 ^ b)%Z with (2 ^ (- (a - b)) * 2 ^ a)%Z
      by (rewrite <-Z.pow_add_r by lia; f_equal; lia).
    rewrite Z2Qc_inj_mul. change (2 ^ 0)%Z with 1%Z. rewrite Z2Qc_inj_1.
    pose proof (Hne a Ha) as H1. pose proof (Hne (- (a - b))%Z ltac:(lia)) as H2.
    revert H1 H2. generalize (Qc_of_Z (2 ^ a)) (Qc_of_Z (2 ^ (- (a - b)))).
    intros x y Hx Hy. by field.
  - rewrite Z.max_r, Z.max_l by lia.
    replace (2 ^ a)%Z with (2 ^ (a - b) * 2 ^ b)%Z
      by (rewrite <-Z.pow_add_r by lia; f_equal; lia).
    rewrite Z2Qc_inj_mul. change (2 ^ 0)%Z with 1%Z. rewrite Z2Qc_inj_1.
    pose proof (Hne b Hb) as H1.
    revert H1. generalize (Qc_of_Z (2 ^ b)) (Qc_of_Z (2 ^ (a - b))).
    intros x y Hx. by field.
Qed.

Lemma pow2_pos (e : Z) : 0 < pow2 e.
Proof.
  unfold pow2, Qcdiv. apply Qcmult_pos_pos; [|apply Qcinv_pos]; apply Z2Qc_pos; lia.
Qed.

Lemma pow2_pred (e : Z) : pow2 (e - 1) * Qc_of_Z 2 = pow2 e.
Proof.
  assert (e = Z.max 0 e - Z.max 0 (- e))%Z as E by lia.
  rewrite E at 1.
  replace (Z.max 0 e - Z.max 0 (- e) - 1)%Z
    with (Z.max 0 e - (Z.max 0 (- e) + 1))%Z by lia.
  rewrite pow2_quotient by lia. unfold pow2.
  rewrite (Z.pow_add_r 2 (Z.max 0 (- e)) 1) by lia.
  rewrite Z2Qc_inj_mul. change (2 ^ 1)%Z with 2%Z.
  assert (Qc_of_Z (2 ^ Z.max 0 (- e)) ≠ 0) as H1
    by (apply not_eq_sym, Qclt_not_eq, Z2Qc_pos; lia).
  assert (Qc_of_Z 2 ≠ 0) as H2 by done.
  revert H1 H2.
  generalize (Qc_of_Z (2 ^ Z.max 0 e)) (Qc_of_Z (2 ^ Z.max 0 (- e))) (Qc_of_Z 2).
  intros x y z Hy Hz. by field.
Qed.

Lemma pow2_add (a b : Z) : pow2 (a + b) = pow2 a * pow2 b.
Proof.
  replace (a + b)%Z
    with ((Z.max 0 a + Z.max 0 b) - (Z.max 0 (- a) + Z.max 0 (- b)))%Z by lia.
  rewrite pow2_quotient by lia. unfold pow2.
  rewrite !Z.pow_add_r, !Z2Qc_inj_mul by lia.
  assert (∀ z, Qc_of_Z (2 ^ Z.max 0 z) ≠ 0) as Hne.
  { intros z. apply not_eq_sym, Qclt_not_eq, Z2Qc_pos. lia. }
  pose proof (Hne (- a)%Z) as H1. pose proof (Hne (- b)%Z) as H2.
  revert H1 H2.
  generalize (Qc_of_Z (2 ^ Z.max 0 a)) (Qc_of_Z (2 ^ Z.max 0 b))
    (Qc_of_Z (2 ^ Z.max 0 (- a))) (Qc_of_Z (2 ^ Z.max 0 (- b))).
  intros x y z w Hz Hw. by field.
Qed.

Lemma Qc_fraction (x : Qc) :
  x = Qc_of_Z (Qnum x) / Qc_of_Z (Zpos (Qden x)).
Proof.
  apply Qc_is_canon. unfold Qcdiv, Qcinv. rewrite this_mult, this_Q2Qc.
  simpl. destruct x as [[n d] Hc]. simpl. unfold Qeq. simpl. 
  unfold Qinv. simpl. lia.
Qed.

Lemma Qcdiv_le_iff (a b c : Qc) : 0 < b → a ≤ c / b ↔ a * b ≤ c.
Proof.
  intros Hb. assert (b ≠ 0) as Hne by (by apply not_eq_sym, Qclt_not_eq).
  assert (c / b * b = c) as E by (by field).
  rewrite <-E at 2. by apply Qcmult_le_mono_pos_r.
Qed.

Lemma fraction_le (a b c d : Z) :
  (0 < b)%Z → (0 < d)%Z → (a * d ≤ c * b)%Z →
  Qc_of_Z a / Qc_of_Z b ≤ Qc_of_Z c / Qc_of_Z d.
Proof.
  intros Hb Hd H. pose proof (Z2Qc_pos b Hb) as Hb'.
  pose proof (Z2Qc_pos d Hd) as Hd'.
  apply Qcdiv_le_iff; [done|].
  assert (Qc_of_Z a / Qc_of_Z b * Qc_of_Z d = Qc_of_Z a * Qc_of_Z d / Qc_of_Z b)
    as -> by (field; by apply not_eq_sym, Qclt_not_eq).
  rewrite (Qcmult_le_mono_pos_r _ _ (Qc_of_Z b)) by done.
  assert (Qc_of_Z a * Qc_of_Z d / Qc_of_Z b * Qc_of_Z b = Qc_of_Z a * Qc_of_Z d)
    as -> by (field; by apply not_eq_sym, Qclt_not_eq).
  rewrite <-!Z2Qc_inj_mul, <-Z2Qc_inj_le. done.
Qed.

Lemma exponent_spec (x : Qc) : 0 < x → pow2 52 ≤ x / pow2 (exponent x).
Proof.
  intros Hx. unfold exponent.
  set (e := (Z.log2 (Qnum x) - Z.log2 (Z.pos (Qden x)) - 52)%Z).
  destruct (decide (x / pow2 e < pow2 52)) as [Hlt|Hge];
    [|by apply Qcnot_lt_le].
  assert (0 < Qnum x)%Z as Hn.
  { unfold Qclt in Hx. destruct x as [[n d] Hc]. unfold Qlt in Hx. simpl in *. lia. }
  destruct (Z.log2_spec (Qnum x) Hn) as [Hn1 _].
  destruct (Z.log2_spec (Z.pos (Qden x)) ltac:(lia)) as [_ Hd2].
  pose proof (Z.log2_nonneg (Qnum x)) as Hln.
  pose proof (Z.log2_nonneg (Z.pos (Qden x))) as Hld.
  assert (pow2 51 * pow2 e ≤ x) as Hlow.
  { rewrite <-pow2_add.
    replace (51 + e)%Z
      with (Z.log2 (Qnum x) - Z.succ (Z.log2 (Z.pos (Qden x))))%Z by lia.
    rewrite pow2_quotient by lia. rewrite (Qc_fraction x) at 3.
    apply fraction_le; [lia|lia|].
    assert (0 < 2 ^ Z.log2 (Qnum x))%Z by (apply Z.pow_pos_nonneg; lia).
    nia. }
  pose proof (pow2_pos e) as He. pose proof (pow2_pos (e - 1)) as He1.
  apply Qcdiv_le_iff; [done|].
  replace 52%Z with (51 + 1)%Z by lia. rewrite pow2_add.
  rewrite <-(pow2_pred e) in Hlow.
  assert (pow2 1 = Qc_of_Z 2) as -> by (apply Qc_is_canon; by vm_compute).
  assert (pow2 51 * Qc_of_Z 2 * pow2 (e - 1) = pow2 51 * (pow2 (e - 1) * Qc_of_Z 2))
    as -> by ring.
  done.
Qed.

Lemma Qcdiv_lt_iff (a b c : Qc) : 0 < b → c / b < a ↔ c < a * b.
Proof.
  intros Hb. split; intros H; apply Qcnot_le_lt; intros Hle;
    apply (Qcdiv_le_iff a b c Hb) in Hle; by apply Qcle_not_lt in Hle.
Qed.

Lemma fraction_lt (a b c d : Z) :
  (0 < b)%Z → (0 < d)%Z → (a * d < c * b)%Z →
  Qc_of_Z a / Qc_of_Z b < Qc_of_Z c / Qc_of_Z d.
Proof.
  intros Hb Hd H. pose proof (Z2Qc_pos b Hb) as Hb'.
  pose proof (Z2Qc_pos d Hd) as Hd'.
  apply Qcdiv_lt_iff; [done|].
  assert (Qc_of_Z c / Qc_of_Z d * Qc_of_Z b = Qc_of_Z c * Qc_of_Z b / Qc_of_Z d)
    as -> by (field; by apply not_eq_sym, Qclt_not_eq).
  rewrite (Qcmult_lt_mono_pos_r _ _ (Qc_of_Z d)) by done.
  assert (Qc_of_Z c * Qc_of_Z b / Qc_of_Z d * Qc_of_Z d = Qc_of_Z c * Qc_of_Z b)
    as -> by (field; by apply not_eq_sym, Qclt_not_eq).
  rewrite <-!Z2Qc_inj_mul, <-Z2Qc_inj_lt. done.
Qed.

(** The significand has 53 bits. *)
Lemma exponent_range (x : Qc) :
  0 < x → pow2 52 ≤ x / pow2 (exponent x) < pow2 53.
Proof.
  intros Hx. split; [by apply exponent_spec|]. unfold exponent.
  set (e := (Z.log2 (Qnum x) - Z.log2 (Z.pos (Qden x)) - 52)%Z).
  pose proof (pow2_pos e) as He. pose proof (pow2_pos (e - 1)) as He1.
  assert (pow2 1 = Qc_of_Z 2) as E2 by (apply Qc_is_canon; by vm_compute).
  destruct (decide (x / pow2 e < pow2 52)) as [Hlt|Hge].
  - apply Qcdiv_lt_iff; [done|]. apply (Qcdiv_lt_iff (pow2 52) (pow2 e) x He) in Hlt.
    replace 53%Z with (52 + 1)%Z by lia. rewrite pow2_add, E2.
    rewrite <-(pow2_pred e) in Hlt.
    assert (pow2 52 * Qc_of_Z 2 * pow2 (e - 1)
            = pow2 52 * (pow2 (e - 1) * Qc_of_Z 2)) as -> by ring.
    done.
  - assert (0 < Qnum x)%Z as Hn.
    { unfold Qclt in Hx. destruct x as [[n d] Hc]. unfold Qlt in Hx.
      simpl in *. lia. }
    destruct (Z.log2_spec (Qnum x) Hn) as [_ Hn2].
    destruct (Z.log2_spec (Z.pos (Qden x)) ltac:(lia)) as [Hd1 _].
    pose proof (Z.log2_nonneg (Qnum x)) as Hln.
    pose proof (Z.log2_nonneg (Z.pos (Qden x))) as Hld.
    apply Qcdiv_lt_iff; [done|]. rewrite <-pow2_add.
    replace (53 + e)%Z
      with (Z.succ (Z.log2 (Qnum x)) - Z.log2 (Z.pos (Qden x)))%Z by lia.
    rewrite pow2_quotient by lia. rewrite (Qc_fraction x) at 1.
    apply fraction_lt; [lia|apply Z.pow_pos_nonneg; lia|].
    assert (0 < 2 ^ Z.log2 (Z.pos (Qden x)))%Z by (apply Z.pow_pos_nonneg; lia).
    nia.
Qed.

(** Numbers that are doubles are left as they are, and one tenth, which is
    none, becomes the double that the platform has for it. *)
Example binary64_values :
  binary64 (Qc_of_Z 100) = Qc_of_Z 100
  ∧ binary64 (Q2Qc (23 # 40) * Qc_of_Z 100) = Q2Qc (115 # 2)
  ∧ binary64 (Q2Qc (1 # 10)) = Qc_of_Z 3602879701896397 / pow2 55
  ∧ binary64 (num 23 / num 40) = Qc_of_Z 2589569785738035 / pow2 52
  ∧ binary64 (binary64 (num 23 / num 40) * Qc_of_Z 100)
    = Qc_of_Z 8092405580431359 / pow2 47.
Proof. repeat split; apply Qc_is_canon; by vm_compute. Qed.

(** The relative error of a rounding is at most 2^-53. *)
Lemma binary64_error (x : Qc) :
  0 ≤ x → x - x * unit_roundoff ≤ binary64 x ∧ binary64 x ≤ x + x * unit_roundoff.
Proof.
  intros Hx. unfold binary64.
  destruct (decide (x = 0)) as [->|Hne]; [by split|].
  assert (0 < x) as Hpos.
  { apply Qcle_lt_or_eq in Hx as [|]; [done|by destruct Hne]. }
  rewrite !decide_True by done.
  set (e := exponent x).
  pose proof (exponent_spec x Hpos) as Hm. fold e in Hm.
  pose proof (pow2_pos e) as He. clearbody e.
  set (m := x / pow2 e) in *.
  destruct (round_half_even_near m) as [Hlo Hhi].
  set (M := Qc_of_Z (round_half_even m)) in *. clearbody M.
  assert (x = m * pow2 e) as Ex.
  { unfold m. field. by apply not_eq_sym, Qclt_not_eq. }
  assert (pow2 52 = Q2Qc (4503599627370496 # 1)) as E52
    by (apply Qc_is_canon; by vm_compute).
  rewrite E52 in Hm. clearbody m. subst x.
  (* |M - m| <= 1/2 <= m * 2^-53 *)
  assert (Q2Qc (1 # 2) ≤ m * unit_roundoff) as Hhalf.
  { unfold unit_roundoff. to_Q. lra. }
  split.
  - assert (m * pow2 e - m * pow2 e * unit_roundoff = (m - m * unit_roundoff) * pow2 e) as -> by ring.
    apply Qcmult_le_mono_nonneg_r; [by apply Qclt_le_weak|].
    unfold unit_roundoff in *. to_Q. lra.
  - assert (m * pow2 e + m * pow2 e * unit_roundoff = (m + m * unit_roundoff) * pow2 e) as -> by ring.
    apply Qcmult_le_mono_nonneg_r; [by apply Qclt_le_weak|].
    unfold unit_roundoff in *. to_Q. lra.
Qed.

Lemma printed_rate_nearest (s w : nat) :
  (0 < w)%nat → (s ≤ w)%nat → (Z.of_nat w < 2 ^ 32)%Z →
  let exact := num s / num w * Qc_of_Z 100 in
  let x := binary64 (binary64 (num s / num w) * Qc_of_Z 100) in
  0 ≤ x
  ∧ Qc_of_Z (round_half_up x) - Q2Qc (1 # 2) ≤ exact
  ∧ exact ≤ Qc_of_Z (round_half_up x) + Q2Qc (1 # 2).
Proof.
  intros Hw Hsw Hbound. cbv zeta.
  set (S := Z.of_nat s). set (W := Z.of_nat w).
  assert (0 ≤ S)%Z as HS by lia. assert (1 ≤ W)%Z as HW by lia.
  assert (S ≤ W)%Z as HSW by lia. fold W in Hbound.
  set (a := num s / num w).
  assert (a * Qc_of_Z W = Qc_of_Z S) as Ea.
  { unfold a, num. fold S W. field.
    apply not_eq_sym, Qclt_not_eq, Z2Qc_pos. lia. }
  assert (0 ≤ a ∧ a ≤ 1) as [Ha0 Ha1].
  { unfold a, num. fold S W. split.
    - apply Qcmult_nonneg_nonneg; [by rewrite <-Z2Qc_inj_0, <-Z2Qc_inj_le|].
      apply Qclt_le_weak, Qcinv_pos, Z2Qc_pos. lia.
    - rewrite <-(Qcmult_inv_r (Qc_of_Z W))
        by (apply not_eq_sym, Qclt_not_eq, Z2Qc_pos; lia).
      apply Qcmult_le_mono_nonneg_r;
        [apply Qclt_le_weak, Qcinv_pos, Z2Qc_pos; lia|by rewrite <-Z2Qc_inj_le]. }
  destruct (binary64_error a Ha0) as [Hb1 Hb2].
  set (b := binary64 a) in *.
  assert (0 ≤ b * Qc_of_Z 100) as Hc0.
  { unfold unit_roundoff in *. to_Q. change (inject_Z 100) with (100 # 1)%Q. lra. }
  destruct (binary64_error _ Hc0) as [Hx1 Hx2].
  set (x := binary64 (b * Qc_of_Z 100)) in *.
  destruct (round_half_up_nearest x) as [Hn1 Hn2].
  set (n := round_half_up x) in *.
  clearbody x b a n. clear Hw Hsw. clearbody S W.
  unfold unit_roundoff in *.
  assert (Qc_of_Z W < Qc_of_Z 4294967296) as HboundQ
    by (by rewrite <-Z2Qc_inj_lt).
  assert (Qc_of_Z 1 ≤ Qc_of_Z W) as HWQ by (by rewrite <-Z2Qc_inj_le).
  split; [to_Q; change (inject_Z 100) with (100 # 1)%Q in *; lra|].
  split.
  - destruct (decide ((2 * n - 1) * W ≤ 200 * S)%Z) as [Hz|Hz].
    + apply (Qcmult_le_mono_pos_r _ _ (Qc_of_Z 2 * Qc_of_Z W));
        [apply Qcmult_pos_pos; [done|]; apply Z2Qc_pos; lia|].
      rewrite Z2Qc_inj_le in Hz. rewrite !Z2Qc_inj_mul, Z2Qc_inj_sub in Hz.
      rewrite <-Ea in Hz.
      to_Q. rewrite ?inject_Z_mult in *. change (inject_Z 100) with (100 # 1)%Q in *.
      change (inject_Z 200) with (200 # 1)%Q in *.
      change (inject_Z 2) with (2 # 1)%Q in *.
      change (inject_Z 1) with 1%Q in *.
      change (inject_Z 4294967296) with (4294967296 # 1)%Q in *. lra.
    + exfalso. assert (200 * S + 1 ≤ (2 * n - 1) * W)%Z as Hz' by lia.
      rewrite Z2Qc_inj_le in Hz'.
      rewrite !Z2Qc_inj_add, !Z2Qc_inj_mul, Z2Qc_inj_sub in Hz'.
      rewrite <-Ea in Hz'.
      to_Q. rewrite ?inject_Z_mult in *. change (inject_Z 100) with (100 # 1)%Q in *.
      change (inject_Z 200) with (200 # 1)%Q in *.
      change (inject_Z 2) with (2 # 1)%Q in *.
      change (inject_Z 1) with 1%Q in *.
      change (inject_Z 4294967296) with (4294967296 # 1)%Q in *.
      nra.
  - destruct (decide (200 * S ≤ (2 * n + 1) * W)%Z) as [Hz|Hz].
    + apply (Qcmult_le_mono_pos_r _ _ (Qc_of_Z 2 * Qc_of_Z W));
        [apply Qcmult_pos_pos; [done|]; apply Z2Qc_pos; lia|].
      rewrite Z2Qc_inj_le in Hz. rewrite !Z2Qc_inj_mul, Z2Qc_inj_add in Hz.
      rewrite <-Ea in Hz.
      to_Q. rewrite ?inject_Z_mult in *. change (inject_Z 100) with (100 # 1)%Q in *.
      change (inject_Z 200) with (200 # 1)%Q in *.
      change (inject_Z 2) with (2 # 1)%Q in *.
      change (inject_Z 1) with 1%Q in *.
      change (inject_Z 4294967296) with (4294967296 # 1)%Q in *. lra.
    + exfalso. assert ((2 * n + 1) * W + 1 ≤ 200 * S)%Z as Hz' by lia.
      rewrite Z2Qc_inj_le in Hz'.
      rewrite !Z2Qc_inj_add, !Z2Qc_inj_mul, Z2Qc_inj_add in Hz'.
      rewrite <-Ea in Hz'.
      to_Q. rewrite ?inject_Z_mult in *. change (inject_Z 100) with (100 # 1)%Q in *.
      change (inject_Z 200) with (200 # 1)%Q in *.
      change (inject_Z 2) with (2 # 1)%Q in *.
      change (inject_Z 1) with 1%Q in *.
      change (inject_Z 4294967296) with (4294967296 # 1)%Q in *.
      nra.
Qed.

(** ** The fixed look-back figures *)

Lemma snapshot_counts fd od tf now h :
  let m := (calculateDoraMetrics fd od tf now h).1 in
  DoraMetrics.deploymentsYesterday m = yesterday (calculateDeploymentCounts od now h)
  ∧ DoraMetrics.deploymentsLastWeek m = lastWeek (calculateDeploymentCounts od now h)
  ∧ DoraMetrics.deploymentsLastMonth m = lastMonth (calculateDeploymentCounts od now h).
Proof. done. Qed.

Lemma snapshot_trend_text fd od tf now h :
  DoraMetrics.deploymentFrequencyTrendText (calculateDoraMetrics fd od tf now h).1
  = calculateDeploymentTrendText fd od now h.
Proof.
  simpl. apply calculateDeploymentTrendText_order, deployments_at_return.
Qed.

Lemma calculateDeploymentCounts_order od now h h' :
  contents (T:=Deployment) h' (fact_deployment od) ≡ₚ contents h (fact_deployment od) →
  calculateDeploymentCounts od now h' = calculateDeploymentCounts od now h.
Proof.
  intros E. unfold calculateDeploymentCounts.
  by rewrite !(count_Permutation (deployedBetween _ _) _ _ E).
Qed.

Lemma calculateDoraMetrics_deployments fd od tf now h r :
  contents (T:=Deployment) (calculateDoraMetrics fd od tf now h).2 r ≡ₚ contents h r.
Proof. apply deployments_at_return. Qed.

(** The rate is read from the double, not from the exact percentage: 23
    successful deployments of 40 are 57.5 percent, the double of
    [(23 / 40) * 100] lies below that, and the text says 57. *)
Example weekly_rate_from_the_double :
  let '(h, od) := forty_deployments in
  calculateDeploymentTrendText (FilteredData.mk 0 None None None None) od
    86400000 h
  = "40 deployments in last week, with 57% success rate"
  ∧ binary64 (binary64 (num 23 / num 40) * Qc_of_Z 100)
    < num 23 / num 40 * Qc_of_Z 100
  ∧ num 23 / num 40 * Qc_of_Z 100 = Q2Qc (115 # 2).
Proof.
  split; [by vm_compute|]. split; [by vm_compute|].
  apply Qc_is_canon. by vm_compute.
Qed.

(** C9: the three fixed look-back counts and the weekly text are functions
    of the deployments of the full store and of the clock alone, so any two
    views and any two windows give the same four values, whether the two
    snapshots are derived from the same heap ([m1], [m2]) or one after the
    other ([m1], then [m3]); the text names the
    number of deployments of the last seven days and, when there are some,
    their success rate as [toFixed(0)] prints it from the doubles: for an
    array within the length limit of the language, an integer from 0 to
    100 nearest to the exact percentage, either neighbour when the
    percentage lies halfway between two integers. *)
Theorem C9_fixed_lookback_independent_of_window od now h fd1 fd2 tf1 tf2 :
  let all := contents (T:=Deployment) h (fact_deployment od) in
  let m1 := (calculateDoraMetrics fd1 od tf1 now h).1 in
  let m2 := (calculateDoraMetrics fd2 od tf2 now h).1 in
  let m3 :=
    (calculateDoraMetrics fd2 od tf2 now (calculateDoraMetrics fd1 od tf1 now h).2).1 in
  let since (days : Z) :=
    filter (λ d, (now - days * 86400000 ≤ created_at_utc d)%Z
                 ∧ (created_at_utc d ≤ now)%Z) all in
  let count := length (since 7%Z) in
  let exact :=
    num (length (filter (λ d, state d = "success" ∨ state d = "inactive") (since 7%Z)))
    / num count * Qc_of_Z 100 in
  (DoraMetrics.deploymentsYesterday m1 = length (since 1%Z)
   ∧ DoraMetrics.deploymentsLastWeek m1 = length (since 7%Z)
   ∧ DoraMetrics.deploymentsLastMonth m1 = length (since 30%Z))
  ∧ (DoraMetrics.deploymentsYesterday m1 = DoraMetrics.deploymentsYesterday m2
     ∧ DoraMetrics.deploymentsLastWeek m1 = DoraMetrics.deploymentsLastWeek m2
     ∧ DoraMetrics.deploymentsLastMonth m1 = DoraMetrics.deploymentsLastMonth m2
     ∧ DoraMetrics.deploymentFrequencyTrendText m1
       = DoraMetrics.deploymentFrequencyTrendText m2)
  ∧ (DoraMetrics.deploymentsYesterday m1 = DoraMetrics.deploymentsYesterday m3
     ∧ DoraMetrics.deploymentsLastWeek m1 = DoraMetrics.deploymentsLastWeek m3
     ∧ DoraMetrics.deploymentsLastMonth m1 = DoraMetrics.deploymentsLastMonth m3
     ∧ DoraMetrics.deploymentFrequencyTrendText m1
       = DoraMetrics.deploymentFrequencyTrendText m3)
  ∧ (count = 0%nat →
     DoraMetrics.deploymentFrequencyTrendText m1
     = pretty count +:+ " deployments in last week")
  ∧ (count ≠ 0%nat → (Z.of_nat count < 2 ^ 32)%Z →
     ∃ rate : Z,
       DoraMetrics.deploymentFrequencyTrendText m1
       = pretty count +:+ " deployments in last week, with "
           +:+ pretty rate +:+ "% success rate"
       ∧ (0 ≤ rate ≤ 100)%Z
       ∧ Qc_of_Z rate - Q2Qc (1 # 2) ≤ exact
       ∧ exact ≤ Qc_of_Z rate + Q2Qc (1 # 2)).
Proof.
  intros all m1 m2 m3 since count exact.
  assert (∀ days, filter (deployedBetween (now - days * ms_per_day) now) all
                  = since days) as Hsince.
  { intros days. apply list_filter_iff. intros d.
    unfold deployedBetween, ms_per_day. intuition lia. }
  assert (∀ fd tf, DoraMetrics.deploymentFrequencyTrendText
                     (calculateDoraMetrics fd od tf now h).1
                   = if decide (count = 0%nat) then "0 deployments in last week"
                     else pretty count +:+ " deployments in last week, with "
                          +:+ toFixed0 (binary64 (binary64 (exact / Qc_of_Z 100)
                                                  * Qc_of_Z 100))
                          +:+ "% success rate") as Htext.
  { intros fd tf. rewrite snapshot_trend_text.
    unfold calculateDeploymentTrendText. fold all. rewrite Hsince.
    fold count. case_decide; [done|].
    assert (exact / Qc_of_Z 100
            = num (length (filter successful (since 7%Z))) / num count) as ->;
      [|done].
    unfold exact, successful. field.
    repeat split; try done; apply not_eq_sym, Qclt_not_eq, num_pos; lia. }
  split; [|split; [|split; [|split]]].
  - subst m1. simpl. fold all. by rewrite !Hsince.
  - subst m1 m2. by rewrite !Htext.
  - pose proof (calculateDoraMetrics_deployments fd1 od tf1 now h
                  (fact_deployment od)) as E.
    subst m1 m3. rewrite !snapshot_trend_text.
    rewrite (calculateDeploymentTrendText_order fd1 fd2 _ _ _ _ E).
    destruct (snapshot_counts fd1 od tf1 now h) as (-> & -> & ->).
    destruct (snapshot_counts fd2 od tf2 now
                (calculateDoraMetrics fd1 od tf1 now h).2) as (-> & -> & ->).
    by rewrite (calculateDeploymentCounts_order _ _ _ _ E).
  - intros E. subst m1. rewrite Htext, E. done.
  - intros E Hlimit. subst m1. rewrite Htext.
    destruct (decide (count = 0%nat)) as [|_]; [done|].
    set (successes :=
           length (filter (λ d, state d = "success" ∨ state d = "inactive")
                     (since 7%Z))) in *.
    assert (successes ≤ count)%nat as Hle by apply length_filter.
    destruct (printed_rate_nearest successes count ltac:(lia) Hle Hlimit)
      as (Hx & Hlo & Hhi).
    cbv zeta in Hx, Hlo, Hhi.
    assert (exact / Qc_of_Z 100 = num successes / num count) as ->.
    { unfold exact. field.
      repeat split; try done; apply not_eq_sym, Qclt_not_eq, num_pos; lia. }
    set (x := binary64 (binary64 (num successes / num count) * Qc_of_Z 100)) in *.
    fold exact in Hlo, Hhi.
    exists (round_half_up x). rewrite toFixed0_nonneg by done.
    split; [done|]. split; [|by split].
    destruct (percentage_bounds successes count Hle ltac:(lia)) as [H0 H100].
    fold exact in H0, H100.
    assert (Qc_of_Z (-1) < Qc_of_Z (round_half_up x)
            ∧ Qc_of_Z (round_half_up x) < Qc_of_Z 101) as [H1 H2].
    { clearbody exact x. generalize dependent (round_half_up x). intros n ? ?.
      split; to_Q; change (inject_Z (-1)) with (-1 # 1)%Q;
        change (inject_Z 101) with (101 # 1)%Q;
        change (inject_Z 100) with (100 # 1)%Q in *; lra. }
    rewrite <-Z2Qc_inj_lt in H1, H2. lia.
Qed.

(** ** Extremes *)

Lemma Math_max_spec (xs : list Qc) (x : Qc) :
  x ≤ Math_max x xs
  ∧ (∀ y, y ∈ xs → y ≤ Math_max x xs)
  ∧ Math_max x xs ∈ x :: xs.
Proof.
  unfold Math_max. revert x.
  induction xs as [|y xs IH]; intros x; simpl.
  - split; [done|]. split; [by intros y ?%elem_of_nil|left].
  - destruct (IH (num_max x y)) as (Hx & Hall & Hin).
    assert (x ≤ num_max x y ∧ y ≤ num_max x y ∧ num_max x y ∈ [x; y]) as (Hmx & Hmy & Hm).
    { unfold num_max. case_decide as Hc.
      - split; [done|]. split; [done|]. right; left.
      - split; [done|]. split; [|left].
        by apply Qclt_le_weak, Qcnot_le_lt. }
    split; [by etrans|]. split.
    + intros z [->|Hz]%elem_of_cons; [by etrans|by apply Hall].
    + apply elem_of_cons in Hin as [->|Hin].
      * apply elem_of_cons in Hm as [->|Hm]; [left|].
        apply list_elem_of_singleton in Hm as ->. right; left.
      * by do 2 right.
Qed.

Lemma Math_min_spec (xs : list Qc) (x : Qc) :
  Math_min x xs ≤ x
  ∧ (∀ y, y ∈ xs → Math_min x xs ≤ y)
  ∧ Math_min x xs ∈ x :: xs.
Proof.
  unfold Math_min. revert x.
  induction xs as [|y xs IH]; intros x; simpl.
  - split; [done|]. split; [by intros y ?%elem_of_nil|left].
  - destruct (IH (num_min x y)) as (Hx & Hall & Hin).
    assert (num_min x y ≤ x ∧ num_min x y ≤ y ∧ num_min x y ∈ [x; y]) as (Hmx & Hmy & Hm).
    { unfold num_min. case_decide as Hc.
      - split; [done|]. split; [done|left].
      - split; [by apply Qclt_le_weak, Qcnot_le_lt|]. split; [done|right; left]. }
    split; [by etrans|]. split.
    + intros z [->|Hz]%elem_of_cons; [by etrans|by apply Hall].
    + apply elem_of_cons in Hin as [->|Hin].
      * apply elem_of_cons in Hm as [->|Hm]; [left|].
        apply list_elem_of_singleton in Hm as ->. right; left.
      * by do 2 right.
Qed.

Lemma leadTimeHours_pos d :
  0 < leadTimeHours d ↔ (created_at_utc d < finished_at_utc d)%Z.
Proof.
  unfold leadTimeHours, Qcdiv.
  assert (0 < / Qc_of_Z ms_per_hour) as Hinv.
  { apply Qcinv_pos. rewrite <-Z2Qc_inj_0, <-Z2Qc_inj_lt. done. }
  rewrite <-(Qcmult_0_l (/ Qc_of_Z ms_per_hour)) at 1.
  rewrite <-Qcmult_lt_mono_pos_r by done.
  rewrite <-Z2Qc_inj_0, <-Z2Qc_inj_lt. lia.
Qed.

Lemma snapshot_lead_time_extremes fd od tf now h :
  let m := (calculateDoraMetrics fd od tf now h).1 in
  let allLeadTimes :=
    filter (λ time, 0 < time)
      (leadTimeHours <$> contents h (FilteredData.fact_deployment fd)) in
  DoraMetrics.maxLeadTime m =
    match allLeadTimes with x :: xs => Math_max x xs | [] => 0 end
  ∧ DoraMetrics.minLeadTime m =
    match allLeadTimes with x :: xs => Math_min x xs | [] => 0 end
  ∧ DoraMetrics.lastDeploymentLeadTime m =
    match sorted_by newestDeploymentFirst
            (contents h (FilteredData.fact_deployment fd)) with
    | lastDeploy :: _ => leadTimeHours lastDeploy
    | [] => 0
    end.
Proof.
  simpl. split; [done|]. split; [done|].
  rewrite deployments_after_jsSort. by rewrite decide_True.
Qed.

(** C10: in every snapshot 0 <= minLeadTime <= maxLeadTime; both are 0 when
    no deployment of the view finished after it was created, and otherwise
    they are positive and bound every positive lead time; the last lead time
    is 0 for an empty view and otherwise the unfiltered finished - created,
    in hours, of a deployment of the view that no other one is newer than,
    so that it can be negative or 0 while the two extremes are positive. *)
Theorem C10_lead_time_extremes :
  (∀ fd od tf now h,
     let ds := contents (T:=Deployment) h (FilteredData.fact_deployment fd) in
     let m := (calculateDoraMetrics fd od tf now h).1 in
     let hours (d : Deployment) : Qc :=
       Qc_of_Z (finished_at_utc d - created_at_utc d) / Qc_of_Z 3600000 in
     0 ≤ DoraMetrics.minLeadTime m ≤ DoraMetrics.maxLeadTime m
     ∧ ((∀ d, d ∈ ds → ¬ (created_at_utc d < finished_at_utc d)%Z) →
        DoraMetrics.minLeadTime m = 0 ∧ DoraMetrics.maxLeadTime m = 0)
     ∧ (∀ d, d ∈ ds → (created_at_utc d < finished_at_utc d)%Z →
        0 < DoraMetrics.minLeadTime m
        ∧ DoraMetrics.minLeadTime m ≤ hours d ≤ DoraMetrics.maxLeadTime m)
     ∧ (ds = [] → DoraMetrics.lastDeploymentLeadTime m = 0)
     ∧ (ds ≠ [] →
        ∃ d, d ∈ ds
             ∧ (∀ d', d' ∈ ds → (created_at_utc d' ≤ created_at_utc d)%Z)
             ∧ DoraMetrics.lastDeploymentLeadTime m = hours d))
  ∧ (∀ late, (late ≤ 0)%Z →
     let '(h, fd, od) := two_deployments late in
     let m := (calculateDoraMetrics fd od None 7200000 h).1 in
     0 < DoraMetrics.minLeadTime m
     ∧ 0 < DoraMetrics.maxLeadTime m
     ∧ DoraMetrics.lastDeploymentLeadTime m = Qc_of_Z late / Qc_of_Z 3600000
     ∧ DoraMetrics.lastDeploymentLeadTime m ≤ 0).
Proof.
  split.
  - intros fd od tf now h ds m hours.
    destruct (snapshot_lead_time_extremes fd od tf now h) as (Emax & Emin & Elast).
    fold m ds in Emax, Emin, Elast. rewrite Emax, Emin, Elast. clear Emax Emin Elast.
    set (allLeadTimes := filter (λ time, 0 < time) (leadTimeHours <$> ds)).
    assert (∀ t, t ∈ allLeadTimes ↔ 0 < t ∧ ∃ d, d ∈ ds ∧ t = hours d) as Hin.
    { intros t. unfold allLeadTimes. rewrite list_elem_of_filter, list_elem_of_fmap.
      split; intros [? (d & ? & ?)]; (split; [done|]); by exists d. }
    split; [|split; [|split; [|split]]].
    + destruct allLeadTimes as [|x xs] eqn:E; [done|].
      destruct (Math_max_spec xs x) as (Hx & _ & _).
      destruct (Math_min_spec xs x) as (Hn & _ & Hmem).
      split; [|by etrans].
      apply Hin in Hmem as [Hpos _]. by apply Qclt_le_weak.
    + intros Hnone. destruct allLeadTimes as [|x xs] eqn:E; [done|].
      assert (x ∈ x :: xs) as [Hpos (d & Hd & ->)]%Hin by left.
      apply (leadTimeHours_pos d) in Hpos. by destruct (Hnone d).
    + intros d Hd Hlt.
      assert (hours d ∈ allLeadTimes) as Hmem.
      { apply Hin. split; [by apply (leadTimeHours_pos d)|by exists d]. }
      destruct allLeadTimes as [|x xs] eqn:E; [by apply elem_of_nil in Hmem|].
      destruct (Math_max_spec xs x) as (Hx & Hall & _).
      destruct (Math_min_spec xs x) as (Hn & Hnall & Hnmem).
      apply Hin in Hnmem as [Hpos _]. split; [done|].
      apply elem_of_cons in Hmem as [->|Hmem]; [done|].
      split; [by apply Hnall|by apply Hall].
    + intros E. by rewrite E.
    + intros Hne.
      destruct (sorted_by newestDeploymentFirst ds) as [|d rest] eqn:E.
      { by apply sorted_by_nil_inv in E. }
      apply (sorted_by_head_newest created_at_utc) in E as [Hd Hnewest].
      by exists d.
  - intros late Hlate. unfold two_deployments.
    destruct (snapshot_lead_time_extremes (FilteredData.mk 0 None None None None)
                (mkDoraData 0 None None None None) None 7200000
                (mkHeap [[mkDeployment 1 "production" 0 3600000 "success" "ann" "a1";
                          mkDeployment 2 "production" 7200000 (7200000 + late)
                            "success" "bob" "b2"]] [] [] [] []))
      as (Emax & Emin & Elast).
    rewrite Emax, Emin, Elast. clear Emax Emin Elast.
    unfold contents. simpl arrays. simpl lookup. simpl default.
    assert (¬ 0 < leadTimeHours
                  (mkDeployment 2 "production" 7200000 (7200000 + late)
                     "success" "bob" "b2")) as Hneg.
    { rewrite leadTimeHours_pos. simpl. lia. }
    rewrite !fmap_cons, filter_cons_True by done.
    rewrite filter_cons_False by done. rewrite fmap_nil, filter_nil.
    assert (sorted_by newestDeploymentFirst
              [mkDeployment 1 "production" 0 3600000 "success" "ann" "a1";
               mkDeployment 2 "production" 7200000 (7200000 + late)
                 "success" "bob" "b2"]
            = [mkDeployment 2 "production" 7200000 (7200000 + late)
                 "success" "bob" "b2";
               mkDeployment 1 "production" 0 3600000 "success" "ann" "a1"]) as ->
      by done.
    assert (leadTimeHours
              (mkDeployment 2 "production" 7200000 (7200000 + late)
                 "success" "bob" "b2") = Qc_of_Z late / Qc_of_Z 3600000) as ->.
    { unfold leadTimeHours. simpl. do 2 f_equal. lia. }
    split; [done|]. split; [done|]. split; [done|].
    apply Qcnot_lt_le. intros Hpos. apply Hneg, leadTimeHours_pos. simpl.
    assert (0 < Qc_of_Z late) as Hl.
    { unfold Qcdiv in Hpos.
      assert (0 < Qc_of_Z 3600000) as Hc
        by (by rewrite <-Z2Qc_inj_0, <-Z2Qc_inj_lt).
      apply (Qcmult_lt_mono_pos_r _ _ _ Hc) in Hpos.
      rewrite Qcmult_0_l, <-Qcmult_assoc, Qcmult_inv_l, Qcmult_1_r in Hpos;
        [done|]. by apply Qclt_not_eq in Hc. }
    rewrite <-Z2Qc_inj_0, <-Z2Qc_inj_lt in Hl. lia.
Qed.

(** ** The four aggregates *)

Lemma snapshot_averages fd od tf now h :
  let m := (calculateDoraMetrics fd od tf now h).1 in
  let averages :=
    match readOptional h (FilteredData.dora_summary_daily fd) with
    | Some ((_ :: _) as summary) => averagesFromSummary summary
    | _ =>
        averagesFromRaw (contents h (FilteredData.fact_deployment fd))
          (readOptional h (FilteredData.fact_incident fd))
          (readOptional h (FilteredData.dora_events fd)) now
    end in
  DoraMetrics.deploymentFrequency m = avgDeploymentFreq averages
  ∧ DoraMetrics.leadTime m = avgLeadTime averages
  ∧ DoraMetrics.cfr m = avgCFR averages
  ∧ DoraMetrics.mttr m = avgMTTR averages.
Proof. done. Qed.

(** C1, as the code has it: when at least one rollup row of the view has
    deploys > 0, deploymentFrequency, leadTime and cfr are the arithmetic
    means of deploys, avg_lt_hours and cfr (the last times 100) over the rows
    with deploys > 0, and mttr is the sum of mttr_min / 60 over all rows of
    the view; K rows of uniform mttr_min = v then give K * (v / 60). *)
Theorem C1_aggregates_from_rollups fd od tf now h r :
  FilteredData.dora_summary_daily fd = Some r →
  let summary := contents (T:=Rollup) h r in
  let valid := filter (λ d, 0 < deploys d) summary in
  valid ≠ [] →
  let m := (calculateDoraMetrics fd od tf now h).1 in
  DoraMetrics.deploymentFrequency m = arithmetic_mean (deploys <$> valid)
  ∧ DoraMetrics.leadTime m = arithmetic_mean (avg_lt_hours <$> valid)
  ∧ DoraMetrics.cfr m = arithmetic_mean (cfr <$> valid) * Qc_of_Z 100
  ∧ DoraMetrics.mttr m = total ((λ d, mttr_min d / Qc_of_Z 60) <$> summary)
  ∧ (∀ v, (∀ d, d ∈ summary → mttr_min d = v) →
          DoraMetrics.mttr m = num (length summary) * (v / Qc_of_Z 60)).
Proof.
  intros Hr summary valid Hvalid m. subst m.
  destruct (snapshot_averages fd od tf now h) as (-> & -> & -> & ->).
  assert (readOptional h (FilteredData.dora_summary_daily fd) = Some summary) as ->
    by (by rewrite Hr).
  assert (valid = filter (λ d, 0 < deploys d) summary) as Ev by done.
  clearbody valid. clearbody summary.
  destruct summary as [|row rows]; [done|].
  set (summary := row :: rows) in *. clearbody summary.
  unfold averagesFromSummary. rewrite <-Ev.
  rewrite decide_True by (destruct valid; [done|simpl; lia]). simpl.
  unfold arithmetic_mean. rewrite !reduce_sum_total, !length_fmap.
  repeat (split; [done|]).
  intros v Hv. rewrite <-(length_fmap (λ d, mttr_min d / Qc_of_Z 60) summary).
  apply total_constant. rewrite Forall_fmap, Forall_forall.
  intros d' Hd'. simpl. by rewrite (Hv d').
Qed.

Lemma C1_aggregates_from_rollups_witness :
  let '(h, fd, od) := scenario_A in
  let m := (calculateDoraMetrics fd od None 259200000 h).1 in
  (FilteredData.dora_summary_daily fd = Some 0%nat
   ∧ filter (λ d, 0 < deploys d) (contents (T:=Rollup) h 0) ≠ [])
  ∧ DoraMetrics.deploymentFrequency m
    = arithmetic_mean (deploys <$> filter (λ d, 0 < deploys d) (contents h 0))
  ∧ DoraMetrics.mttr m
    = total ((λ d, mttr_min d / Qc_of_Z 60) <$> contents (T:=Rollup) h 0).
Proof.
  assert (FilteredData.dora_summary_daily scenario_A.1.2 = Some 0%nat) as H1
    by reflexivity.
  assert (filter (λ d, 0 < deploys d) (contents (T:=Rollup) scenario_A.1.1 0) ≠ [])
    as H2 by (vm_compute; discriminate).
  split; [by split|].
  destruct (C1_aggregates_from_rollups scenario_A.1.2 scenario_A.2 None 259200000
              scenario_A.1.1 0 H1 H2) as (Hf & _ & _ & Hm & _).
  by split.
Defined.

(** The claim as the spec states it asks for the sum over all rows whenever
    the rollup sequence is not empty; two idle days with an incident each
    give 0 instead of 2. *)
Lemma C1_counterexample :
  let '(h, fd, od) := idle_days in
  let summary := contents (T:=Rollup) h 0 in
  let m := (calculateDoraMetrics fd od None 259200000 h).1 in
  FilteredData.dora_summary_daily fd = Some 0%nat
  ∧ summary ≠ []
  ∧ (∀ d, d ∈ summary → mttr_min d = Qc_of_Z 60)
  ∧ DoraMetrics.mttr m = 0
  ∧ total ((λ d, mttr_min d / Qc_of_Z 60) <$> summary) = 2
  ∧ num (length summary) * (Qc_of_Z 60 / Qc_of_Z 60) = 2.
Proof.
  unfold idle_days. cbv beta iota zeta.
  change (contents (T:=Rollup) _ 0)
    with [mkRollup 86400000 0 0 0 0 (Qc_of_Z 60);
          mkRollup 172800000 0 0 0 0 (Qc_of_Z 60)].
  split; [done|]. split; [done|]. split.
  - intros d. rewrite !elem_of_cons, elem_of_nil. by intros [->|[->|[]]].
  - split; [|split]; apply Qc_is_canon; by vm_compute.
Qed.

(** ** Empty inputs *)





(** ** The window filter *)

Lemma lookup_new {A} (l : list (list A)) (x : list A) :
  default [] ((l ++ [x]) !! length l) = x.
Proof. by rewrite list_lookup_middle. Qed.

Lemma insert_new {A} (l : list (list A)) (x y : list A) :
  <[length l := y]> (l ++ [x]) = l ++ [y].
Proof.
  rewrite insert_app_r_alt by lia. by rewrite Nat.sub_diag.
Qed.

Ltac run_filter :=
  unfold filterDataByDays, jsFilter, jsSlice, jsReverse, orEmpty, newArray,
    readArray, writeArray, bind, ret, view_of, document_of, readOptional,
    contents;
  simpl;
  rewrite ?insert_new, ?lookup_new.

Lemma filterDataByDays_unbounded_view data now h :
  let store := document_of h data in
  let run := filterDataByDays data None now h in
  view_of run.2 run.1 =
    {| doc_fact_deployment := doc_fact_deployment store;
       doc_fact_pr := Some (default [] (doc_fact_pr store));
       doc_fact_incident := Some (default [] (doc_fact_incident store));
       doc_dora_events := Some (default [] (doc_dora_events store));
       doc_dora_summary_daily :=
         Some (reverse (default [] (doc_dora_summary_daily store))) |}.
Proof.
  destruct data as [rd [rp|] [ri|] [re|] [rs|]]; run_filter; reflexivity.
Qed.

Lemma filterDataByDays_window_view data N now h :
  let store := document_of h data in
  let run := filterDataByDays data (Some N) now h in
  let cutoff := (now - N * 86400000)%Z in
  view_of run.2 run.1 =
    {| doc_fact_deployment :=
         filter (λ d, (cutoff ≤ created_at_utc d)%Z) (doc_fact_deployment store);
       doc_fact_pr :=
         Some (filter (λ pr, (cutoff ≤ pr_merged_at_utc pr)%Z)
                 (default [] (doc_fact_pr store)));
       doc_fact_incident :=
         Some (filter (λ i, (cutoff ≤ created_utc i)%Z)
                 (default [] (doc_fact_incident store)));
       doc_dora_events :=
         Some (filter (λ e, (cutoff ≤ when_utc e)%Z)
                 (default [] (doc_dora_events store)));
       doc_dora_summary_daily :=
         Some (reverse (filter (λ d, (cutoff ≤ date d)%Z)
                          (default [] (doc_dora_summary_daily store)))) |}.
Proof.
  destruct data as [rd [rp|] [ri|] [re|] [rs|]]; run_filter; reflexivity.
Qed.

(** C3: under the unbounded window the view holds every record of every
    collection of the store, the rollups in reversed order and an absent
    collection as an empty one; under a window of N days every collection of
    the view consists of exactly the records of the unbounded view whose
    governing timestamp is at least now - N days, in the same order. *)
Theorem C3_window_filter data now h :
  let store := document_of h data in
  let run days := filterDataByDays data days now h in
  let all := view_of (run None).2 (run None).1 in
  let window N := view_of (run (Some N)).2 (run (Some N)).1 in
  all = {| doc_fact_deployment := doc_fact_deployment store;
           doc_fact_pr := Some (default [] (doc_fact_pr store));
           doc_fact_incident := Some (default [] (doc_fact_incident store));
           doc_dora_events := Some (default [] (doc_dora_events store));
           doc_dora_summary_daily :=
             Some (reverse (default [] (doc_dora_summary_daily store))) |}
  ∧ ∀ N : Z,
      let cutoff := (now - N * 86400000)%Z in
      window N =
        {| doc_fact_deployment :=
             filter (λ d, (cutoff ≤ created_at_utc d)%Z) (doc_fact_deployment all);
           doc_fact_pr :=
             filter (λ pr, (cutoff ≤ pr_merged_at_utc pr)%Z) <$> doc_fact_pr all;
           doc_fact_incident :=
             filter (λ i, (cutoff ≤ created_utc i)%Z) <$> doc_fact_incident all;
           doc_dora_events :=
             filter (λ e, (cutoff ≤ when_utc e)%Z) <$> doc_dora_events all;
           doc_dora_summary_daily :=
             filter (λ d, (cutoff ≤ date d)%Z) <$> doc_dora_summary_daily all |}
      ∧ doc_fact_deployment (window N) `sublist_of` doc_fact_deployment all
      ∧ (∀ d, d ∈ doc_fact_deployment (window N) ↔
              d ∈ doc_fact_deployment all ∧ (cutoff ≤ created_at_utc d)%Z)
      ∧ (∀ pr, pr ∈ default [] (doc_fact_pr (window N)) ↔
               pr ∈ default [] (doc_fact_pr all)
               ∧ (cutoff ≤ pr_merged_at_utc pr)%Z)
      ∧ (∀ i, i ∈ default [] (doc_fact_incident (window N)) ↔
              i ∈ default [] (doc_fact_incident all) ∧ (cutoff ≤ created_utc i)%Z)
      ∧ (∀ e, e ∈ default [] (doc_dora_events (window N)) ↔
              e ∈ default [] (doc_dora_events all) ∧ (cutoff ≤ when_utc e)%Z)
      ∧ (∀ d, d ∈ default [] (doc_dora_summary_daily (window N)) ↔
              d ∈ default [] (doc_dora_summary_daily all) ∧ (cutoff ≤ date d)%Z).
Proof.
  intros store run all window. subst all window run store. cbv beta.
  pose proof (filterDataByDays_unbounded_view data now h) as Hall.
  cbv zeta in Hall. split; [exact Hall|]. intros N cutoff. subst cutoff.
  pose proof (filterDataByDays_window_view data N now h) as Hwin.
  cbv zeta in Hwin. rewrite Hwin, Hall. cbn [doc_fact_deployment doc_fact_pr
    doc_fact_incident doc_dora_events doc_dora_summary_daily fmap option_fmap
    option_map].
  rewrite filter_reverse. split; [done|]. split; [apply sublist_filter|].
  split; [intros x; rewrite list_elem_of_filter; tauto|].
  cbn [from_option id]. rewrite <-filter_reverse.
  repeat (split; [intros x; rewrite list_elem_of_filter; tauto|]).
  intros x. rewrite list_elem_of_filter. tauto.
Qed.

(** ** The store under filtering and derivation *)

Lemma lookup_old {A} (l : list (list A)) (x : list A) (r : nat) :
  (r < length l)%nat → default [] ((l ++ [x]) !! r) = default [] (l !! r).
Proof. intros. by rewrite lookup_app_l. Qed.

(** [filterDataByDays] itself leaves every array of the store as it is. *)
Lemma filterDataByDays_keeps_store data days now h :
  allocated h data →
  document_of (filterDataByDays data days now h).2 data = document_of h data.
Proof.
  intros (Hd & Hp & Hi & He & Hs).
  destruct data as [rd [rp|] [ri|] [re|] [rs|]], days as [N|]; simpl in *;
    run_filter;
    rewrite ?lookup_old by eauto; reflexivity.
Qed.

(** Under a window of N days the arrays of the view are new objects, and
    sorting them leaves the store as it is. *)
Lemma finite_window_keeps_store data N now h :
  allocated h data →
  let filtered := filterDataByDays data (Some N) now h in
  document_of (calculateDoraMetrics filtered.1 data (Some N) now filtered.2).2 data
  = document_of h data.
Proof.
  intros Ha filtered.
  rewrite <-(filterDataByDays_keeps_store data (Some N) now h Ha). fold filtered.
  destruct Ha as (Hd & Hp & Hi & He & Hs).
  assert (FilteredData.fact_deployment filtered.1 = length (deployment_arrays h)) as Ed
    by (destruct data as [rd [rp|] [ri|] [re|] [rs|]]; reflexivity).
  assert (FilteredData.fact_incident filtered.1 = Some (length (incident_arrays h))) as Ei
    by (destruct data as [rd [rp|] [ri|] [re|] [rs|]]; reflexivity).
  unfold document_of. simpl. f_equal.
  - rewrite sortIncidents_deployments, deployments_after_jsSort, Ed.
    rewrite decide_False by lia. done.
  - destruct (fact_pr data); [|done]. simpl. by rewrite sortIncidents_prs.
  - destruct (fact_incident data) as [ri|]; [|done]. simpl. f_equal.
    unfold sortIncidents. rewrite Ei. case_decide; [|done].
    rewrite incidents_after_jsSort. rewrite decide_False; [done|].
    specialize (Hi ri eq_refl). lia.
  - destruct (dora_events data); [|done]. simpl. by rewrite sortIncidents_events.
  - destruct (dora_summary_daily data); [|done]. simpl. f_equal.
    unfold sortIncidents. destruct (FilteredData.fact_incident filtered.1); [|done].
    by case_decide.
Qed.

(** C2 at the unbounded window: the view shares the deployment and incident
    arrays of the store, and [calculateDoraMetrics] sorts them in place.
    After the dashboard's load / filter / derive pass the store holds its
    deployments and its incidents in the opposite order, although the filter
    alone had left them as loaded. *)
Theorem C2_unbounded_window_reorders_store :
  let loaded := loadDoraData two_releases empty_heap in
  let filtered := filterDataByDays loaded.1 None 10000000 loaded.2 in
  let derived := calculateDoraMetrics filtered.1 loaded.1 None 10000000 filtered.2 in
  document_of loaded.2 loaded.1 = two_releases
  ∧ document_of filtered.2 loaded.1 = two_releases
  ∧ FilteredData.fact_deployment filtered.1 = fact_deployment loaded.1
  ∧ FilteredData.fact_incident filtered.1 = fact_incident loaded.1
  ∧ doc_fact_deployment (document_of derived.2 loaded.1)
    = reverse (doc_fact_deployment two_releases)
  ∧ doc_fact_incident (document_of derived.2 loaded.1)
    = reverse <$> doc_fact_incident two_releases
  ∧ document_of derived.2 loaded.1 ≠ two_releases.
Proof.
  repeat split; try reflexivity. intros E.
  apply (f_equal doc_fact_deployment) in E. discriminate E.
Qed.

(** ** Trends *)

Lemma getTrend_formula (current previous : list Qc) :
  (current = [] ∨ previous = [] ∨ arithmetic_mean previous = 0 →
   getTrend current previous = 0)
  ∧ (current ≠ [] → previous ≠ [] → arithmetic_mean previous ≠ 0 →
     getTrend current previous =
     (arithmetic_mean current - arithmetic_mean previous)
     / arithmetic_mean previous * Qc_of_Z 100).
Proof.
  unfold getTrend, arithmetic_mean. rewrite !reduce_sum_total, !list_fmap_id.
  split.
  - intros [-> | [-> | E]]; [by rewrite decide_True by (by right)
                            |by rewrite decide_True by (by left)|].
    case_decide; [done|]. by rewrite decide_True.
  - intros Hc Hp E. rewrite decide_False, decide_False; [done|done|].
    intros [Hl|Hl]; [by destruct previous|by destruct current].
Qed.

Lemma snapshot_trends fd od tf now h :
  let m := (calculateDoraMetrics fd od tf now h).1 in
  let summary :=
    default [] (readOptional (T:=Rollup) h (FilteredData.dora_summary_daily fd)) in
  let recentPeriod := take (length summary / 2) summary in
  let previousPeriod := drop (length summary / 2) summary in
  DoraMetrics.deploymentFrequencyTrend m =
    getTrend (deploys <$> recentPeriod) (deploys <$> previousPeriod)
  ∧ DoraMetrics.leadTimeTrend m =
    getTrend (avg_lt_hours <$> recentPeriod) (avg_lt_hours <$> previousPeriod)
  ∧ DoraMetrics.cfrTrend m =
    getTrend (cfr <$> recentPeriod) (cfr <$> previousPeriod)
  ∧ DoraMetrics.mttrTrend m =
    getTrend ((λ d, mttr_min d / Qc_of_Z 60) <$> recentPeriod)
             ((λ d, mttr_min d / Qc_of_Z 60) <$> previousPeriod).
Proof. done. Qed.

Lemma StronglySorted_reverse {A} (R : relation A) (l : list A) :
  StronglySorted R l → StronglySorted (flip R) (reverse l).
Proof.
  induction 1 as [|x l Hl IH Hx]; [constructor|].
  rewrite reverse_cons. apply StronglySorted_app_2; [|done|repeat constructor].
  intros y z Hy ->%list_elem_of_singleton. rewrite Forall_forall in Hx.
  apply Hx. by apply elem_of_reverse.
Qed.

Lemma StronglySorted_filter {A} (R : relation A) (P : A → Prop)
    `{∀ x, Decision (P x)} (l : list A) :
  StronglySorted R l → StronglySorted R (filter P l).
Proof.
  induction 1 as [|x l Hl IH Hx]; [constructor|].
  rewrite filter_cons. case_decide; [|done].
  constructor; [done|]. rewrite Forall_forall in *.
  intros y [_ Hy]%list_elem_of_filter. by apply Hx.
Qed.

(** When the store keeps its rollups newest first, the view has them oldest
    first, so the rows before the midpoint are the older ones. *)
Lemma first_half_is_older data days now h r :
  dora_summary_daily data = Some r →
  StronglySorted (λ a b, (date b ≤ date a)%Z) (contents h r) →
  let filtered := filterDataByDays data days now h in
  let summary :=
    default [] (readOptional (T:=Rollup) filtered.2
                  (FilteredData.dora_summary_daily filtered.1)) in
  ∀ a b, a ∈ take (length summary / 2) summary →
         b ∈ drop (length summary / 2) summary →
         (date a ≤ date b)%Z.
Proof.
  intros Hr Hsorted filtered summary.
  assert (StronglySorted (λ a b, (date a ≤ date b)%Z) summary) as Hs.
  { subst summary filtered. destruct days as [N|].
    - pose proof (filterDataByDays_window_view data N now h) as E.
      cbv zeta in E. apply (f_equal doc_dora_summary_daily) in E.
      unfold view_of in E. cbn [doc_dora_summary_daily] in E. rewrite E.
      unfold document_of. cbn [doc_dora_summary_daily]. rewrite Hr. simpl.
      apply (StronglySorted_reverse _ _). by apply StronglySorted_filter.
    - pose proof (filterDataByDays_unbounded_view data now h) as E.
      cbv zeta in E. apply (f_equal doc_dora_summary_daily) in E.
      unfold view_of in E. cbn [doc_dora_summary_daily] in E. rewrite E.
      unfold document_of. cbn [doc_dora_summary_daily]. rewrite Hr. simpl.
      by apply (StronglySorted_reverse _ _ Hsorted). }
  intros a b Ha Hb. rewrite <-(take_drop (length summary / 2) summary) in Hs.
  by apply (StronglySorted_app_1_elem_of _ _ _ a b Hs).
Qed.

(** C6 on the store [rising_frequency], whose rollups are kept newest
    first: the rows before the midpoint of the view, which the code takes as
    the recent period, are the older day; the reported trend is
    (2 - 4) / 4 * 100 = -50 although the frequency rose from 2 to 4, which
    is +100 with the later day as the recent period. *)
Theorem C6_recent_period_is_the_older_half :
  let run := dashboard rising_frequency None 259200000 empty_heap in
  let metrics := run.1.2 in
  let summary :=
    default [] (doc_dora_summary_daily (view_of run.2 run.1.1.2)) in
  let recentPeriod := take (length summary / 2) summary in
  let previousPeriod := drop (length summary / 2) summary in
  date <$> recentPeriod = [86400000%Z]
  ∧ date <$> previousPeriod = [172800000%Z]
  ∧ DoraMetrics.deploymentFrequencyTrend metrics
    = getTrend (deploys <$> recentPeriod) (deploys <$> previousPeriod)
  ∧ DoraMetrics.deploymentFrequencyTrend metrics = Qc_of_Z (-50)
  ∧ getTrend (deploys <$> previousPeriod) (deploys <$> recentPeriod) = Qc_of_Z 100.
Proof.
  repeat split; try reflexivity; apply Qc_is_canon; by vm_compute.
Qed.

(** ** The repository-summary feed *)

Lemma fillRow_shift headers index v values row :
  fillRow headers (S index) (v :: values) row = fillRow headers index values row.
Proof.
  revert index row. induction headers as [|hdr headers IH]; intros index row;
    simpl; [done|]. by rewrite IH.
Qed.

Lemma fillRow_agree headers index values (row row' : gmap string string) key :
  row !! key = row' !! key →
  fillRow headers index values row !! key
  = fillRow headers index values row' !! key.
Proof.
  revert index row row'.
  induction headers as [|hdr headers IH]; intros index row row' E; simpl; [done|].
  apply IH. destruct (decide (trim hdr = key)) as [->|Hne].
  - by rewrite !lookup_insert_eq.
  - by rewrite !lookup_insert_ne.
Qed.

Lemma fillRow_absent headers index values (row : gmap string string) key :
  key ∉ trim <$> headers →
  fillRow headers index values row !! key = row !! key.
Proof.
  revert index row. induction headers as [|hdr headers IH]; intros index row Hk;
    simpl; [done|].
  rewrite fmap_cons, not_elem_of_cons in Hk. destruct Hk as [Hne Hk].
  rewrite IH by done. by rewrite lookup_insert_ne.
Qed.

Lemma fillRow_nil headers i j row :
  fillRow headers i [] row = fillRow headers j [] row.
Proof.
  revert i j row. induction headers as [|hdr headers IH]; intros i j row;
    simpl; [done|].
  rewrite ?lookup_nil. apply IH.
Qed.

(** The entry of a column that no later column overrides. *)
Lemma fillRow_column headers values i hdr :
  headers !! i = Some hdr →
  trim hdr ∉ trim <$> drop (S i) headers →
  fillRow headers 0 values ∅ !! trim hdr = Some (cell values i).
Proof.
  unfold cell. generalize (∅ : gmap string string) as row.
  revert values i. induction headers as [|h0 headers IH];
    intros values i row Hi Hlater; [done|].
  destruct i as [|i]; simpl in *.
  - injection Hi as ->. rewrite fillRow_absent by done.
    by rewrite lookup_insert_eq.
  - destruct values as [|v values].
    + rewrite (fillRow_nil headers 1 0), (IH [] i) by done.
      by rewrite ?lookup_nil.
    + rewrite fillRow_shift. by apply (IH values i).
Qed.

Lemma fillRow_unknown_column hs1 hs2 vs1 vs2 u v row key :
  length hs1 = length vs1 → key ≠ trim u →
  fillRow (hs1 ++ u :: hs2) 0 (vs1 ++ v :: vs2) row !! key
  = fillRow (hs1 ++ hs2) 0 (vs1 ++ vs2) row !! key.
Proof.
  revert vs1 row. induction hs1 as [|h1 hs1 IH]; intros [|v1 vs1] row Hlen Hkey;
    try discriminate; simpl.
  - rewrite fillRow_shift. apply fillRow_agree. by rewrite lookup_insert_ne.
  - rewrite !fillRow_shift. apply IH; [|done]. by injection Hlen.
Qed.

(** The parsed row is a function of the entries under the recognized
    column names. *)
Lemma parseRow_recognized headers values headers' values' :
  (∀ key, key ∈ recognized_columns →
          fillRow headers 0 values ∅ !! key = fillRow headers' 0 values' ∅ !! key) →
  parseRow headers values = parseRow headers' values'.
Proof.
  intros E. unfold parseRow, orElse.
  rewrite !(E "repo_name"), !(E "display_name"), !(E "prs_opened"),
    !(E "prs_merged"), !(E "issues_ready_for_qa"), !(E "issues_qa_completed"),
    !(E "days_since_last_release"), !(E "fetched_at");
    (done || (unfold recognized_columns; set_solver)).
Qed.

Lemma parseInt_no_number (c : ascii) (s : string) :
  isWhiteSpace c = false → digit c = None → c ≠ "-"%char → c ≠ "+"%char →
  parseInt (String c s) = NaN.
Proof.
  intros Hw Hd Hm Hp. unfold parseInt. simpl trimStart. rewrite Hw.
  assert (match String c s with
          | String "-"%char s' => ((-1)%Z, s')
          | String "+"%char s' => (1%Z, s')
          | _ => (1%Z, String c s)
          end = (1%Z, String c s)) as ->.
  { destruct c as [[] [] [] [] [] [] [] []]; done. }
  simpl. by rewrite Hd.
Qed.

Lemma totals_snoc rows r :
  totals (rows ++ [r]) =
  {| Totals.prsOpened := number_add (Totals.prsOpened (totals rows)) (prsOpened r);
     Totals.prsMerged := number_add (Totals.prsMerged (totals rows)) (prsMerged r);
     Totals.issuesReadyForQA :=
       number_add (Totals.issuesReadyForQA (totals rows)) (issuesReadyForQA r);
     Totals.issuesQACompleted :=
       number_add (Totals.issuesQACompleted (totals rows)) (issuesQACompleted r) |}.
Proof. unfold totals. by rewrite fold_left_app. Qed.

Lemma number_add_0_r x : number_add x (Int 0) = x.
Proof. destruct x as [|n]; simpl; [done|]. f_equal. lia. Qed.

Lemma count_field_from_entry headers values key field :
  (key, field) ∈ count_columns →
  field (parseRow headers values)
  = parseInt (orElse (fillRow headers 0 values ∅) key "0").
Proof.
  unfold count_columns. rewrite !elem_of_cons, elem_of_nil.
  intros [E|[E|[E|[E|[]]]]]; injection E as -> ->; reflexivity.
Qed.

(** C8, as the code has it: every line after the header becomes a row of the
    result; a column with an unrecognized name changes nothing; a count field
    whose column is missing, or whose cell is missing or empty, is 0; a cell
    that is not empty is read by [parseInt], which gives NaN (not 0) for text
    that does not start with a digit or a sign; every row, in particular one
    whose prs_opened is 0 for lack of the column, is added into the totals. *)
Theorem C8_feed_rows :
  (∀ text header rows,
     split "010" (trim text) = header :: rows → rows ≠ [] →
     parseCSV text
     = map (λ line, parseRow (split "," header) (split "," line)) rows)
  ∧ (∀ hs1 hs2 vs1 vs2 u v,
       length hs1 = length vs1 → trim u ∉ recognized_columns →
       parseRow (hs1 ++ u :: hs2) (vs1 ++ v :: vs2)
       = parseRow (hs1 ++ hs2) (vs1 ++ vs2))
  ∧ (∀ headers values key field,
       (key, field) ∈ count_columns →
       key ∉ trim <$> headers →
       field (parseRow headers values) = Int 0)
  ∧ (∀ headers values key field i hdr,
       (key, field) ∈ count_columns →
       headers !! i = Some hdr → trim hdr = key →
       key ∉ trim <$> drop (S i) headers →
       field (parseRow headers values)
       = if decide (cell values i = EmptyString) then Int 0
         else parseInt (cell values i))
  ∧ (∀ c s,
       isWhiteSpace c = false → digit c = None → c ≠ "-"%char → c ≠ "+"%char →
       parseInt (String c s) = NaN)
  ∧ (∀ rows r,
       Totals.prsOpened (totals (rows ++ [r]))
       = number_add (Totals.prsOpened (totals rows)) (prsOpened r)
       ∧ Totals.prsMerged (totals (rows ++ [r]))
         = number_add (Totals.prsMerged (totals rows)) (prsMerged r)
       ∧ Totals.issuesReadyForQA (totals (rows ++ [r]))
         = number_add (Totals.issuesReadyForQA (totals rows)) (issuesReadyForQA r)
       ∧ Totals.issuesQACompleted (totals (rows ++ [r]))
         = number_add (Totals.issuesQACompleted (totals rows)) (issuesQACompleted r))
  ∧ (∀ headers values rows,
       "prs_opened" ∉ trim <$> headers →
       prsOpened (parseRow headers values) = Int 0
       ∧ Totals.prsOpened (totals (rows ++ [parseRow headers values]))
         = Totals.prsOpened (totals rows)).
Proof.
  split; [|split; [|split; [|split; [|split; [|split]]]]].
  - intros text header rows E Hrows. unfold parseCSV. rewrite E.
    destruct rows as [|row rows]; [done|]. by rewrite decide_False by (simpl; lia).
  - intros hs1 hs2 vs1 vs2 u v Hlen Hu. apply parseRow_recognized.
    intros key Hkey. apply fillRow_unknown_column; [done|]. by intros ->.
  - intros headers values key field Hfield Hkey.
    rewrite (count_field_from_entry _ _ key) by done.
    unfold orElse. by rewrite fillRow_absent, lookup_empty.
  - intros headers values key field i hdr Hfield Hi <- Hlater.
    rewrite (count_field_from_entry _ _ (trim hdr)) by done.
    unfold orElse. rewrite (fillRow_column _ _ i) by done.
    destruct (cell values i) eqn:E; [done|]. by rewrite decide_False.
  - apply parseInt_no_number.
  - intros rows r. by rewrite totals_snoc.
  - intros headers values rows Hkey.
    assert (prsOpened (parseRow headers values) = Int 0) as E.
    { unfold parseRow, orElse. simpl.
      by rewrite fillRow_absent, lookup_empty. }
    split; [done|]. by rewrite totals_snoc, E, number_add_0_r.
Qed.

(** The claim as the spec states it asks for 0 where a count field holds
    text; the field is NaN, and so is the total it is added into. *)
Lemma C8_counterexample :
  parseCSV malformed_feed
  = [{| repoName := "web"; displayName := ""; prsOpened := NaN;
        prsMerged := Int 0; issuesReadyForQA := Int 0;
        issuesQACompleted := Int 0; daysSinceLastRelease := None;
        fetchedAt := "" |}]
  ∧ prsOpened <$> parseCSV malformed_feed ≠ [Int 0]
  ∧ Totals.prsOpened (totals (parseCSV malformed_feed)) = NaN.
Proof. by vm_compute. Qed.

(** ** The scenarios of the spec, evaluated *)

(** Scenario A: frequency 3, lead time 3 h, change-failure rate 25 %,
    recovery time 1 h. *)
Example scenario_A_values :
  let '(h, fd, od) := scenario_A in
  let m := (calculateDoraMetrics fd od None 259200000 h).1 in
  DoraMetrics.deploymentFrequency m = Qc_of_Z 3
  ∧ DoraMetrics.leadTime m = Qc_of_Z 3
  ∧ DoraMetrics.cfr m = Qc_of_Z 25
  ∧ DoraMetrics.mttr m = 1.
Proof. repeat split; apply Qc_is_canon; by vm_compute. Qed.

(** Scenario B: the empty store gives the snapshot of "no data" under every
    window offered by the dashboard. *)
Example scenario_B_empty_store :
  ∀ timeFilter, timeFilter ∈ [Some 7%Z; Some 30%Z; Some 90%Z; None] →
    (dashboard (mkDocument [] None None None None) timeFilter 259200000
       empty_heap).1.2 = zero_metrics.
Proof.
  intros timeFilter. rewrite !elem_of_cons, elem_of_nil.
  intros [->|[->|[->|[->|[]]]]]; vm_compute; reflexivity.
Qed.

(** Scenario C: a deployment that finished before it was created counts in
    the total and in the classification, not in the lead-time figures. *)
Example scenario_C_negative_duration :
  let '(h, fd, od) := two_deployments (-1000) in
  let m := (calculateDoraMetrics fd od None 7200000 h).1 in
  DoraMetrics.totalDeployments m = 2%nat
  ∧ DoraMetrics.successfulDeployments m = 2%nat
  ∧ DoraMetrics.maxLeadTime m = 1
  ∧ DoraMetrics.minLeadTime m = 1
  ∧ DoraMetrics.leadTime m = 1.
Proof.
  split; [done|]. split; [done|]. repeat split; apply Qc_is_canon; by vm_compute.
Qed.

(** Scenario D: two failures in the last 30 days against three in the 30
    days before give the status good. *)
Example scenario_D_cfr_status :
  let failure (id : Z) (day : Z) :=
    mkDeployment id "production" (day * 86400000) (day * 86400000 + 60000)
      "failure" "ann" "c0" in
  let doc :=
    mkDocument [failure 1%Z 95%Z; failure 2%Z 80%Z; failure 3%Z 50%Z; failure 4%Z 45%Z; failure 5%Z 41%Z]
      None None None None in
  let run := dashboard doc (Some 30%Z) (100 * 86400000)%Z empty_heap in
  DoraMetrics.failedDeployments run.1.2 = 2%nat
  ∧ DoraMetrics.cfrTrendStatus run.1.2 = good.
Proof. by vm_compute. Qed.

(** Scenario E: a feed without the prs_opened column. *)
Example scenario_E_missing_column :
  let feed :=
    "repo_name,display_name,prs_merged" +:+ newline +:+ "web,Web app,4"
      +:+ newline +:+ "api,Service,6" in
  prsOpened <$> parseCSV feed = [Int 0; Int 0]
  ∧ totals (parseCSV feed) = Totals.mk (Int 0) (Int 10) (Int 0) (Int 0).
Proof. by vm_compute. Qed.

(** The dashboard's default window on a store kept newest first: the view
    holds the records of the last 30 days, rollups oldest first, and the
    store is as loaded after the pass. *)
Example window_of_30_days :
  let day (n : Z) : Z := (n * 86400000)%Z in
  let doc :=
    mkDocument
      [mkDeployment 3 "production" (day 99%Z) (day 99%Z + 1800000) "success" "ann" "c3";
       mkDeployment 2 "production" (day 80%Z) (day 80%Z + 3600000) "error" "bob" "c2";
       mkDeployment 1 "production" (day 10%Z) (day 10%Z + 3600000) "success" "ann" "c1"]
      None None None
      (Some [mkRollup (day 99%Z) 1 0 0 (Q2Qc (1 # 2)) 0;
             mkRollup (day 80%Z) 1 1 1 1 0;
             mkRollup (day 10%Z) 1 0 0 1 0]) in
  let run := dashboard doc (Some 30%Z) (day 100%Z) empty_heap in
  deployment_id <$> doc_fact_deployment (view_of run.2 run.1.1.2) = [3%Z; 2%Z]
  ∧ date <$> default [] (doc_dora_summary_daily (view_of run.2 run.1.1.2))
    = [day 80%Z; day 99%Z]
  ∧ document_of run.2 run.1.1.1 = doc.
Proof. by vm_compute. Qed.

(** * Further properties *)

(** ** What [calculateDoraMetrics] leaves behind in the heap *)

Section sorted_already.
Context {T : Type} (key : T → Z).

Lemma sorted_by_sorted (l : list T) :
  StronglySorted (λ a b, (key b ≤ key a)%Z) l →
  sorted_by (λ a b, (key b - key a)%Z) l = l.
Proof.
  induction 1 as [|x l Hl IH Hx]; [done|]. simpl. rewrite IH.
  destruct l as [|y l]; [done|]. simpl.
  apply Forall_cons in Hx as [Hy _]. rewrite decide_True by lia. done.
Qed.
End sorted_already.

Lemma heap_eta h :
  mkHeap (deployment_arrays h) (pr_arrays h) (incident_arrays h)
    (event_arrays h) (rollup_arrays h) = h.
Proof. by destruct h. Qed.

Lemma insert_contents {A} (l : list (list A)) (r : nat) :
  <[r := default [] (l !! r)]> l = l.
Proof.
  destruct (l !! r) as [x|] eqn:E; simpl.
  - by apply list_insert_id.
  - apply list_insert_ge. by apply lookup_ge_None.
Qed.

Lemma jsSort_deployments_sorted compareFn r h :
  sorted_by compareFn (contents (T:=Deployment) h r) = contents h r →
  heap_after (jsSort compareFn r) h = h.
Proof.
  intros E. unfold heap_after, jsSort, bind, readArray, writeArray, ret. simpl.
  rewrite E. unfold contents. simpl. rewrite insert_contents. apply heap_eta.
Qed.

Lemma jsSort_incidents_sorted compareFn r h :
  sorted_by compareFn (contents (T:=Incident) h r) = contents h r →
  heap_after (jsSort compareFn r) h = h.
Proof.
  intros E. unfold heap_after, jsSort, bind, readArray, writeArray, ret. simpl.
  rewrite E. unfold contents. simpl. rewrite insert_contents. apply heap_eta.
Qed.

Lemma deployments_sorted_at_return fd od tf now h :
  StronglySorted (λ a b, (created_at_utc b ≤ created_at_utc a)%Z)
    (contents (calculateDoraMetrics fd od tf now h).2
       (FilteredData.fact_deployment fd)).
Proof.
  simpl. rewrite sortIncidents_deployments, deployments_after_jsSort.
  rewrite decide_True by done. apply (sorted_by_descending created_at_utc).
Qed.

Lemma incidents_sorted_after_sortIncidents fd h ri :
  FilteredData.fact_incident fd = Some ri →
  StronglySorted (λ a b, (created_utc b ≤ created_utc a)%Z)
    (contents (sortIncidents fd h) ri).
Proof.
  intros E. unfold sortIncidents. rewrite E. case_decide as Hlen.
  - rewrite incidents_after_jsSort, decide_True by done.
    apply (sorted_by_descending created_utc).
  - destruct (contents (T:=Incident) h ri); [constructor|simpl in Hlen; lia].
Qed.

(** X1: After [calculateDoraMetrics] the deployment array of the view holds the
    same records newest first, and so does its incident array; no other
    array of the heap has changed. *)
Theorem calculateDoraMetrics_sorts_the_view fd od tf now h :
  let h' := (calculateDoraMetrics fd od tf now h).2 in
  let r := FilteredData.fact_deployment fd in
  (contents (T:=Deployment) h' r ≡ₚ contents h r
   ∧ StronglySorted (λ a b, (created_at_utc b ≤ created_at_utc a)%Z) (contents h' r)
   ∧ ∀ r', r' ≠ r → contents (T:=Deployment) h' r' = contents h r')
  ∧ (∀ ri, FilteredData.fact_incident fd = Some ri →
       contents (T:=Incident) h' ri ≡ₚ contents h ri
       ∧ StronglySorted (λ a b, (created_utc b ≤ created_utc a)%Z) (contents h' ri)
       ∧ ∀ r', r' ≠ ri → contents (T:=Incident) h' r' = contents h r')
  ∧ (FilteredData.fact_incident fd = None →
       ∀ r', contents (T:=Incident) h' r' = contents h r')
  ∧ (∀ r', contents (T:=PullRequest) h' r' = contents h r')
  ∧ (∀ r', contents (T:=Event) h' r' = contents h r')
  ∧ (∀ r', contents (T:=Rollup) h' r' = contents h r').
Proof.
  intros h' r. split; [|split; [|split; [|split; [|split]]]].
  - split; [apply deployments_at_return|].
    split; [apply deployments_sorted_at_return|].
    intros r' Hr'. subst h'. simpl.
    rewrite sortIncidents_deployments, deployments_after_jsSort.
    by rewrite decide_False.
  - intros ri Eri. subst h'. simpl. split; [|split].
    + rewrite sortIncidents_incidents_Permutation. done.
    + by apply incidents_sorted_after_sortIncidents.
    + intros r' Hr'. unfold sortIncidents. rewrite Eri.
      case_decide; [|done]. rewrite incidents_after_jsSort.
      by rewrite decide_False.
  - intros Eri r'. subst h'. simpl. unfold sortIncidents. by rewrite Eri.
  - intros r'. subst h'. simpl. by rewrite sortIncidents_prs.
  - intros r'. subst h'. simpl. by rewrite sortIncidents_events.
  - intros r'. subst h'. simpl. unfold sortIncidents.
    destruct (FilteredData.fact_incident fd); [|done]. by case_decide.
Qed.

(** X2: The in-place sorts happen once: a second call on the same view, with
    whatever store, window and clock, leaves the heap of the first call as
    it is, so from the second call on the same arguments give the same
    snapshot. *)
Theorem calculateDoraMetrics_effect_idempotent fd od tf now od' tf' now' h :
  let first := calculateDoraMetrics fd od tf now h in
  let second := calculateDoraMetrics fd od' tf' now' first.2 in
  let third := calculateDoraMetrics fd od' tf' now' second.2 in
  second.2 = first.2 ∧ third = second.
Proof.
  intros first second third.
  assert (second.2 = first.2) as E.
  { subst second. set (h1 := first.2).
    pose proof (deployments_sorted_at_return fd od tf now h) as Hd.
    fold first h1 in Hd.
    change (sortIncidents fd
              (heap_after (jsSort newestDeploymentFirst
                             (FilteredData.fact_deployment fd)) h1) = h1).
    rewrite jsSort_deployments_sorted
      by (by apply (sorted_by_sorted created_at_utc)).
    unfold sortIncidents.
    destruct (FilteredData.fact_incident fd) as [ri|] eqn:Eri; [|done].
    case_decide; [|done]. apply jsSort_incidents_sorted.
    apply (sorted_by_sorted created_utc).
    subst h1 first. simpl. by apply incidents_sorted_after_sortIncidents. }
  split; [done|]. subst third. by rewrite E.
Qed.

(** ** [RecentDeployments] *)

(** X18: The table is rendered from the view after the snapshot has been derived:
    it shows at most eight deployments, none of them older than a deployment
    of the view it leaves out, and together with the rows left out they are
    the deployments the view held before. *)
Theorem recentDeployments_are_the_newest fd od tf now h :
  let before := contents (T:=Deployment) h (FilteredData.fact_deployment fd) in
  let after :=
    contents (T:=Deployment) (calculateDoraMetrics fd od tf now h).2
      (FilteredData.fact_deployment fd) in
  (length (recentDeployments after) ≤ 8)%nat
  ∧ length (recentDeployments after) = (length before `min` 8)%nat
  ∧ recentDeployments after ++ drop 8 after ≡ₚ before
  ∧ ∀ shown hidden, shown ∈ recentDeployments after → hidden ∈ drop 8 after →
      (created_at_utc hidden ≤ created_at_utc shown)%Z.
Proof.
  intros before after. unfold recentDeployments.
  pose proof (deployments_at_return fd h (FilteredData.fact_deployment fd)) as Hp.
  pose proof (deployments_sorted_at_return fd od tf now h) as Hs.
  change (after ≡ₚ before) in Hp. fold after in Hs.
  split; [rewrite length_take; lia|]. split.
  - rewrite length_take, (Permutation_length Hp). lia.
  - split; [by rewrite take_drop|].
    intros shown hidden Hshown Hhidden.
    rewrite <-(take_drop 8 after) in Hs.
    by apply (StronglySorted_app_1_elem_of _ _ _ shown hidden Hs).
Qed.

(** X19: The badge of a row agrees with the engine's classification: it is
    destructive exactly for the failed states, default or secondary exactly
    for the successful ones, and outline for every other state. *)
Theorem getStatusVariant_agrees_with_classification (d : Deployment) :
  (getStatusVariant (state d) = badge_destructive ↔ failed d)
  ∧ (getStatusVariant (state d) = badge_default
     ∨ getStatusVariant (state d) = badge_secondary ↔ successful d)
  ∧ (getStatusVariant (state d) = badge_outline ↔ ¬ successful d ∧ ¬ failed d).
Proof.
  unfold getStatusVariant, failed, successful.
  destruct (decide (state d = "success")) as [E|Hs].
  { rewrite E. split_and!; split; intros; (done || tauto || intuition congruence). }
  destruct (decide (state d = "inactive")) as [E|Hi].
  { rewrite E. split_and!; split; intros; (done || tauto || intuition congruence). }
  case_decide; split_and!; split; intros; (done || tauto || intuition congruence).
Qed.

(** ** Recovery-time extremes *)

Lemma snapshot_mttr_extremes fd od tf now h :
  let m := (calculateDoraMetrics fd od tf now h).1 in
  let incidents :=
    default [] (readOptional (T:=Incident) h (FilteredData.fact_incident fd)) in
  let durations := (λ i, duration_minutes i / Qc_of_Z 60) <$> incidents in
  DoraMetrics.maxMTTR m = match durations with x :: xs => Math_max x xs | [] => 0 end
  ∧ DoraMetrics.minMTTR m = match durations with x :: xs => Math_min x xs | [] => 0 end
  ∧ DoraMetrics.lastIncidentMTTR m =
    match sorted_by newestIncidentFirst incidents with
    | last :: _ => duration_minutes last / Qc_of_Z 60
    | [] => 0
    end.
Proof.
  simpl. split; [done|]. split; [done|].
  unfold sortIncidents. destruct (FilteredData.fact_incident fd) as [ri|]; [|done].
  simpl. case_decide as Hlen.
  - by rewrite incidents_after_jsSort, decide_True.
  - change (contents (T:=Incident)
              (heap_after (jsSort newestDeploymentFirst
                             (FilteredData.fact_deployment fd)) h) ri)
      with (contents (T:=Incident) h ri) in *.
    destruct (contents (T:=Incident) h ri); [done|simpl in Hlen; lia].
Qed.

(** X13: The three recovery-time figures are 0 for a view without incidents;
    otherwise each is the duration in hours of an incident of the view, the
    minimum and the maximum bound every duration, and the last one belongs
    to an incident that no other one is newer than, so that
    minMTTR <= lastIncidentMTTR <= maxMTTR. *)
Theorem mttr_extremes fd od tf now h :
  let m := (calculateDoraMetrics fd od tf now h).1 in
  let incidents :=
    default [] (readOptional (T:=Incident) h (FilteredData.fact_incident fd)) in
  let hours (i : Incident) : Qc := duration_minutes i / Qc_of_Z 60 in
  DoraMetrics.minMTTR m ≤ DoraMetrics.lastIncidentMTTR m ≤ DoraMetrics.maxMTTR m
  ∧ (incidents = [] →
     DoraMetrics.minMTTR m = 0 ∧ DoraMetrics.maxMTTR m = 0
     ∧ DoraMetrics.lastIncidentMTTR m = 0)
  ∧ (incidents ≠ [] →
     (∃ i, i ∈ incidents ∧ DoraMetrics.minMTTR m = hours i)
     ∧ (∃ i, i ∈ incidents ∧ DoraMetrics.maxMTTR m = hours i)
     ∧ (∀ i, i ∈ incidents →
             DoraMetrics.minMTTR m ≤ hours i ≤ DoraMetrics.maxMTTR m)
     ∧ ∃ newest, newest ∈ incidents
         ∧ (∀ i, i ∈ incidents → (created_utc i ≤ created_utc newest)%Z)
         ∧ DoraMetrics.lastIncidentMTTR m = hours newest).
Proof.
  intros m incidents hours.
  destruct (snapshot_mttr_extremes fd od tf now h) as (Emax & Emin & Elast).
  fold m incidents in Emax, Emin, Elast. rewrite Emax, Emin, Elast.
  clear Emax Emin Elast. clearbody incidents. clear m.
  destruct incidents as [|i0 rest] eqn:E; [by split|]. rewrite <-E.
  assert (incidents ≠ []) as Hne by (by rewrite E).
  assert ((λ i, duration_minutes i / Qc_of_Z 60) <$> incidents
          = hours i0 :: (hours <$> rest)) as -> by (by rewrite E).
  destruct (Math_max_spec (hours <$> rest) (hours i0)) as (Hx & Hall & Hin).
  destruct (Math_min_spec (hours <$> rest) (hours i0)) as (Hn & Hnall & Hnin).
  assert (∀ i, i ∈ incidents →
            Math_min (hours i0) (hours <$> rest) ≤ hours i
            ≤ Math_max (hours i0) (hours <$> rest)) as Hbounds.
  { intros i. rewrite E. intros [->|Hi]%elem_of_cons; [done|].
    split; [apply Hnall|apply Hall]; by apply list_elem_of_fmap_2. }
  destruct (sorted_by newestIncidentFirst incidents) as [|newest others] eqn:Es.
  { by apply sorted_by_nil_inv in Es. }
  apply (sorted_by_head_newest created_utc) in Es as [Hnewest Hall'].
  split; [by apply Hbounds|]. split; [done|]. intros _.
  assert (∀ x, x ∈ hours i0 :: (hours <$> rest) → ∃ i, i ∈ incidents ∧ x = hours i)
    as Hmem.
  { intros x. rewrite E. intros [->|(i & -> & Hi)%list_elem_of_fmap]%elem_of_cons.
    - exists i0. split; [left|done].
    - exists i. split; [by right|done]. }
  split; [by apply Hmem|]. split; [by apply Hmem|]. split; [done|].
  by exists newest.
Qed.

(** ** [getTeamPerformance] *)

Lemma distinctInOrder_elem_of (a : list string) (x : string) :
  x ∈ distinctInOrder a ↔ x ∈ a.
Proof.
  induction a as [|y a IH]; simpl; [done|].
  rewrite !elem_of_cons, list_elem_of_filter, IH.
  destruct (decide (x = y)); tauto.
Qed.

Lemma distinctInOrder_NoDup (a : list string) : NoDup (distinctInOrder a).
Proof.
  induction a as [|y a IH]; simpl; [constructor|].
  constructor; [|by apply NoDup_filter].
  rewrite list_elem_of_filter. tauto.
Qed.

Lemma distinctInOrder_sublist (a : list string) : distinctInOrder a `sublist_of` a.
Proof.
  induction a as [|y a IH]; simpl; [done|].
  constructor. etrans; [apply sublist_filter|done].
Qed.

Lemma filter_all {A} (P : A → Prop) `{∀ x, Decision (P x)} (l : list A) :
  (∀ x, x ∈ l → P x) → filter P l = l.
Proof.
  induction l as [|x l IH]; intros Hall; [done|].
  rewrite filter_cons_True by (apply Hall; left).
  f_equal. apply IH. intros y Hy. apply Hall. by right.
Qed.

(** Counting the elements of [ds] key by key, over keys without repetition,
    counts the elements whose key is listed. *)
Lemma count_by_key {T} (key : T → string) (keys : list string) (ds : list T) :
  NoDup keys →
  sum_list ((λ a, length (filter (λ d, key d = a) ds)) <$> keys)
  = length (filter (λ d, key d ∈ keys) ds).
Proof.
  induction 1 as [|a keys Hnotin Hnodup IH].
  { induction ds as [|d ds IHds]; [done|].
    rewrite filter_cons_False; [done|]. by intros ?%elem_of_nil. }
  rewrite fmap_cons. cbn [sum_list sum_list_with]. rewrite IH. clear IH.
  unfold id. induction ds as [|d ds IHds]; [done|].
  rewrite !filter_cons.
  destruct (decide (key d = a)) as [E|N].
  - rewrite decide_False by (by rewrite E).
    rewrite decide_True by (rewrite E; left). simpl. lia.
  - destruct (decide (key d ∈ keys)) as [Hin|Hout].
    + rewrite decide_True by (by right). simpl. lia.
    + rewrite decide_False; [done|].
      by intros [?|?]%elem_of_cons.
Qed.

(** X17: The team table partitions the deployments by actor: no actor has two
    rows, the actors are exactly those of the deployments, listed in the
    order of the sequence, the counts of the rows add up to the number of
    deployments, every row counts at least one deployment (so that its
    rate is never the fall-back 0), and the rate of a row is the
    percentage of its actor's deployments that are successful, between 0
    and 100. *)
Theorem getTeamPerformance_partitions (ds : list Deployment) :
  let team := getTeamPerformance ds in
  NoDup (TeamMember.actor <$> team)
  ∧ (∀ a, a ∈ TeamMember.actor <$> team ↔ ∃ d, d ∈ ds ∧ actor d = a)
  ∧ (TeamMember.actor <$> team) `sublist_of` (actor <$> ds)
  ∧ sum_list (TeamMember.deployments <$> team) = length ds
  ∧ ∀ m, m ∈ team →
      let own := filter (λ d, actor d = TeamMember.actor m) ds in
      TeamMember.deployments m = length own
      ∧ (1 ≤ TeamMember.deployments m)%nat
      ∧ TeamMember.successRate m * num (length own)
        = Qc_of_Z 100 * num (length (filter successful own))
      ∧ 0 ≤ TeamMember.successRate m ≤ Qc_of_Z 100.
Proof.
  intros team.
  assert (TeamMember.actor <$> team = distinctInOrder (actor <$> ds)) as Eactors.
  { unfold team, getTeamPerformance. rewrite <-list_fmap_compose.
    apply list_fmap_id. }
  rewrite Eactors.
  split; [apply distinctInOrder_NoDup|].
  split.
  { intros a. rewrite distinctInOrder_elem_of, list_elem_of_fmap.
    split; intros (d & ? & ?); by exists d. }
  split; [apply distinctInOrder_sublist|].
  split.
  { unfold team, getTeamPerformance. rewrite <-list_fmap_compose.
    etrans; [apply (count_by_key actor _ ds), distinctInOrder_NoDup|].
    f_equal. apply filter_all. intros d Hd.
    apply distinctInOrder_elem_of, list_elem_of_fmap_2, Hd. }
  intros m (a & -> & Ha)%list_elem_of_fmap. simpl.
  apply distinctInOrder_elem_of, list_elem_of_fmap in Ha as (d & -> & Hd).
  set (own := filter (λ d', actor d' = actor d) ds).
  assert (0 < length own)%nat as Hpos.
  { assert (d ∈ own) as Hin by (by apply list_elem_of_filter).
    destruct own; [by apply elem_of_nil in Hin|simpl; lia]. }
  split; [done|]. split; [lia|].
  rewrite decide_True by done.
  pose proof (num_pos _ Hpos) as Hnum.
  split.
  { field. by apply Qclt_not_eq in Hnum. }
  apply percentage_bounds; [apply length_filter|done].
Qed.

(** ** The aggregates made from the raw records *)

Lemma total_between (lo hi : Qc) (l : list Qc) :
  (∀ y, y ∈ l → lo ≤ y ≤ hi) →
  num (length l) * lo ≤ total l ≤ num (length l) * hi.
Proof.
  induction l as [|x l IH]; intros Hall.
  { simpl. rewrite num_0, !Qcmult_0_l. by split. }
  destruct IH as [IHlo IHhi]; [intros y Hy; apply Hall; by right|].
  destruct (Hall x) as [Hlo Hhi]; [left|].
  cbn [length total foldr]. rewrite num_S, !Qcmult_plus_distr_l, !Qcmult_1_l.
  split; by apply Qcplus_le_compat.
Qed.

Lemma quotient_between (lo hi t n : Qc) :
  0 < n → n * lo ≤ t ≤ n * hi → lo ≤ t / n ≤ hi.
Proof.
  intros Hn [Hlo Hhi]. pose proof (Qcinv_pos _ Hn) as Hi.
  assert (n ≠ 0) as Hne by (by apply Qclt_not_eq in Hn).
  assert (∀ x, n * x / n = x) as E by (intros; by field).
  split.
  - rewrite <-(E lo). unfold Qcdiv.
    apply Qcmult_le_mono_nonneg_r; [by apply Qclt_le_weak|done].
  - rewrite <-(E hi). unfold Qcdiv.
    apply Qcmult_le_mono_nonneg_r; [by apply Qclt_le_weak|done].
Qed.

Lemma mean_between (lo hi : Qc) (l : list Qc) :
  (0 < length l)%nat → (∀ y, y ∈ l → lo ≤ y ≤ hi) →
  lo ≤ reduce_sum id l / num (length l) ≤ hi.
Proof.
  intros Hlen Hall. rewrite reduce_sum_total, list_fmap_id.
  apply quotient_between; [by apply num_pos|by apply total_between].
Qed.

Lemma total_nonneg (l : list Qc) : (∀ y, y ∈ l → 0 ≤ y) → 0 ≤ total l.
Proof.
  induction l as [|x l IH]; intros Hall; [done|]. simpl.
  rewrite <-(Qcplus_0_l 0). apply Qcplus_le_compat; [apply Hall; left|].
  apply IH. intros y Hy. apply Hall. by right.
Qed.

Lemma total_ge_member (l : list Qc) (x : Qc) :
  (∀ y, y ∈ l → 0 ≤ y) → x ∈ l → x ≤ total l.
Proof.
  induction l as [|z l IH]; intros Hall Hx; [by apply elem_of_nil in Hx|].
  simpl. apply elem_of_cons in Hx as [->|Hx].
  - rewrite <-(Qcplus_0_r z) at 1. apply Qcplus_le_compat; [done|].
    apply total_nonneg. intros y Hy. apply Hall. by right.
  - rewrite <-(Qcplus_0_l x). apply Qcplus_le_compat; [apply Hall; left|].
    apply IH; [|done]. intros y Hy. apply Hall. by right.
Qed.

Lemma whole_days_quotient (n : nat) (days : Z) :
  0 ≤ num n / Qc_of_Z (Z.max 1 days) ≤ num n.
Proof.
  assert (0 < Qc_of_Z (Z.max 1 days)) as Hd
    by (rewrite <-Z2Qc_inj_0, <-Z2Qc_inj_lt; lia).
  apply quotient_between; [done|]. split.
  - rewrite Qcmult_0_r. apply num_nonneg.
  - rewrite <-(Qcmult_1_l (num n)) at 1.
    apply Qcmult_le_mono_nonneg_r; [apply num_nonneg|].
    rewrite <-Z2Qc_inj_1, <-Z2Qc_inj_le. lia.
Qed.

Lemma total_scaled {T} (f : T → Qc) (c : Qc) (l : list T) :
  total ((λ x, f x / c) <$> l) = total (f <$> l) / c.
Proof.
  unfold total. induction l as [|x l IH].
  - simpl. unfold Qcdiv. by rewrite Qcmult_0_l.
  - rewrite !fmap_cons. cbn [foldr]. rewrite IH. unfold Qcdiv. ring.
Qed.

(** X12: When the view has no rollup rows, the four aggregates come from the raw
    records: the deployment frequency lies between 0 and the number of
    deployments; the lead time is 0 without a positive lead time and
    otherwise positive, the sum of the positive lead times over their
    number; the failure rate lies between 0 and 100, and is 0 exactly when
    no deployment failed; with incidents in the view mttr is the sum of
    their durations in minutes over 60, at least the longest duration in
    hours when none is negative; without incidents it is 3 hours for every
    event of type incident. *)
Theorem raw_aggregates_invariants fd od tf now h :
  nothing (readOptional (T:=Rollup) h (FilteredData.dora_summary_daily fd)) →
  let m := (calculateDoraMetrics fd od tf now h).1 in
  let deployments := contents h (FilteredData.fact_deployment fd) in
  let leadTimes := filter (λ time, 0 < time) (leadTimeHours <$> deployments) in
  let incidents :=
    default [] (readOptional (T:=Incident) h (FilteredData.fact_incident fd)) in
  let events :=
    default [] (readOptional (T:=Event) h (FilteredData.dora_events fd)) in
  0 ≤ DoraMetrics.deploymentFrequency m ≤ num (length deployments)
  ∧ (leadTimes = [] → DoraMetrics.leadTime m = 0)
  ∧ (leadTimes ≠ [] →
     0 < DoraMetrics.leadTime m
     ∧ DoraMetrics.leadTime m = total leadTimes / num (length leadTimes))
  ∧ 0 ≤ DoraMetrics.cfr m ≤ Qc_of_Z 100
  ∧ (DoraMetrics.cfr m = 0 ↔ filter failed deployments = [])
  ∧ (incidents ≠ [] →
     DoraMetrics.mttr m = total (duration_minutes <$> incidents) / Qc_of_Z 60
     ∧ ((∀ i, i ∈ incidents → 0 ≤ duration_minutes i) →
        DoraMetrics.maxMTTR m ≤ DoraMetrics.mttr m))
  ∧ (incidents = [] →
     DoraMetrics.mttr m
     = num (length (filter (λ event, event_type event = "incident") events))
       * Qc_of_Z 3).
Proof.
  intros Hnothing m deployments leadTimes incidents events.
  destruct (snapshot_averages fd od tf now h) as (Efreq & Elead & Ecfr & Emttr).
  destruct (snapshot_mttr_extremes fd od tf now h) as (Emaxr & _ & _).
  fold m in Efreq, Elead, Ecfr, Emttr, Emaxr.
  assert (match readOptional h (FilteredData.dora_summary_daily fd) with
          | Some ((_ :: _) as summary) => averagesFromSummary summary
          | _ =>
              averagesFromRaw deployments
                (readOptional h (FilteredData.fact_incident fd))
                (readOptional h (FilteredData.dora_events fd)) now
          end
          = averagesFromRaw deployments
              (readOptional h (FilteredData.fact_incident fd))
              (readOptional h (FilteredData.dora_events fd)) now) as Eraw.
  { by destruct Hnothing as [-> | ->]. }
  fold deployments in Efreq, Elead, Ecfr, Emttr.
  rewrite Eraw in Efreq, Elead, Ecfr, Emttr.
  rewrite Efreq, Elead, Ecfr, Emttr, Emaxr.
  clear Efreq Elead Ecfr Emttr Emaxr Eraw.
  unfold averagesFromRaw.
  cbn [avgDeploymentFreq avgLeadTime avgCFR avgMTTR].
  change (map leadTimeHours deployments) with (leadTimeHours <$> deployments).
  fold leadTimes.
  assert (∀ y, y ∈ leadTimes → 0 < y) as Hpositive.
  { intros y Hy. unfold leadTimes in Hy. by apply list_elem_of_filter in Hy as [? _]. }
  clearbody leadTimes deployments. clear m.
  split; [apply whole_days_quotient|].
  split; [by intros ->|].
  split.
  { intros Hne. destruct leadTimes as [|x xs]; [done|].
    rewrite decide_True by (simpl; lia). split; [|by rewrite reduce_sum_total, list_fmap_id].
    destruct (Math_max_spec xs x) as (Hx & Hall & _).
    destruct (Math_min_spec xs x) as (Hn & Hnall & Hin).
    eapply Qclt_le_trans; [apply (Hpositive _ Hin)|].
    apply (mean_between (Math_min x xs) (Math_max x xs)); [simpl; lia|].
    intros y [->|Hy]%elem_of_cons; [done|]. split; [by apply Hnall|by apply Hall]. }
  destruct (classification_counts deployments) as [Hle _].
  split.
  { destruct (decide (0 < length deployments)%nat) as [Hpos|Hzero].
    - apply percentage_bounds; [lia|done].
    - split; [done|]. rewrite <-Z2Qc_inj_0, <-Z2Qc_inj_le. lia. }
  split.
  { destruct (decide (0 < length deployments)%nat) as [Hpos|Hzero].
    - pose proof (num_pos _ Hpos) as Hnum. split.
      + intros [[E|E]%Qcmult_integral|E]%Qcmult_integral.
        * apply nil_length_inv. unfold num in E.
          rewrite <-Z2Qc_inj_0 in E. apply Z2Qc_inj in E. lia.
        * exfalso. apply Qcinv_pos in Hnum. rewrite E in Hnum.
          by apply Qclt_not_eq in Hnum.
        * rewrite <-Z2Qc_inj_0 in E. by apply Z2Qc_inj in E.
      + intros ->. cbn [length]. unfold num, Qcdiv.
        change (Z.of_nat 0) with 0%Z. by rewrite Z2Qc_inj_0, !Qcmult_0_l.
    - destruct deployments; [done|simpl in Hzero; lia]. }
  assert (num 0 * Qc_of_Z 3 = 0) as Hnone.
  { unfold num. change (Z.of_nat 0) with 0%Z. by rewrite Z2Qc_inj_0, Qcmult_0_l. }
  assert (∀ events : option (list Event),
            match events with
            | Some ((_ :: _) as events) =>
                let incidents :=
                  filter (λ event, event_type event = "incident") events in
                if decide (0 < length incidents)%nat
                then num (length incidents) * Qc_of_Z 3 else 0
            | _ => 0
            end
            = num (length (filter (λ event, event_type event = "incident")
                             (default [] events))) * Qc_of_Z 3) as Hevents.
  { intros [[|e es]|]; cbn [default];
      [exact (eq_sym Hnone)| |exact (eq_sym Hnone)].
    cbv zeta. unfold id. generalize (length (filter (λ event, event_type event = "incident")
                                    (e :: es))).
    intros n. destruct (decide _) as [|Hzero]; [done|].
    assert (n = 0%nat) as -> by lia. done. }
  unfold incidents, events. clear incidents events.
  destruct (readOptional (T:=Incident) h (FilteredData.fact_incident fd))
    as [[|i rest]|]; cbn [default].
  - split; [done|]. intros _.
    apply Hevents.
  - split; [|done]. intros _.
    rewrite reduce_sum_total. split; [done|].
    intros Hnonneg. rewrite <-total_scaled.
    set (hours := λ i0 : Incident, duration_minutes i0 / Qc_of_Z 60).
    rewrite fmap_cons.
    destruct (Math_max_spec (hours <$> rest) (hours i)) as (_ & _ & Hin).
    apply total_ge_member; [|done].
    rewrite <-fmap_cons.
    intros y (j & -> & Hj)%list_elem_of_fmap. unfold hours, Qcdiv.
    apply Qcmult_nonneg_nonneg; [by apply Hnonneg|].
    apply Qclt_le_weak, Qcinv_pos. by rewrite <-Z2Qc_inj_0, <-Z2Qc_inj_lt.
  - split; [done|]. intros _.
    apply Hevents.
Qed.

Lemma raw_aggregates_invariants_witness :
  let '(h, fd, od) := raw_records in
  let m := (calculateDoraMetrics fd od None 86400000 h).1 in
  nothing (readOptional (T:=Rollup) h (FilteredData.dora_summary_daily fd))
  ∧ 0 ≤ DoraMetrics.deploymentFrequency m ≤ num 3
  ∧ 0 ≤ DoraMetrics.cfr m ≤ Qc_of_Z 100.
Proof.
  assert (nothing (readOptional (T:=Rollup) raw_records.1.1
                     (FilteredData.dora_summary_daily raw_records.1.2))) as H
    by (by left).
  split; [done|].
  destruct (raw_aggregates_invariants raw_records.1.2 raw_records.2 None 86400000
              raw_records.1.1 H) as (Hf & _ & _ & Hr & _).
  by split.
Defined.

(** ** The window filter and the store *)

Lemma loadDoraData_allocated doc :
  let loaded := loadDoraData doc empty_heap in
  allocated loaded.2 loaded.1 ∧ document_of loaded.2 loaded.1 = doc.
Proof.
  destruct doc as [ds [prs|] [incs|] [evs|] [sum|]];
    (split; [|reflexivity]);
    (split; [simpl; lia|]);
    repeat split; intros r [= <-]; simpl; lia.
Qed.

Lemma sublist_filter_weaken {A} (P Q : A → Prop) `{∀ x, Decision (P x)}
    `{∀ x, Decision (Q x)} (l : list A) :
  (∀ x, P x → Q x) → filter P l `sublist_of` filter Q l.
Proof.
  intros HPQ. induction l as [|x l IH]; [done|].
  rewrite !filter_cons. destruct (decide (P x)) as [HP|HP].
  - rewrite decide_True by auto. by constructor.
  - destruct (decide (Q x)); [by constructor|done].
Qed.

Lemma sublist_reverse {A} (l1 l2 : list A) :
  l1 `sublist_of` l2 → reverse l1 `sublist_of` reverse l2.
Proof.
  induction 1 as [|x l1 l2 _ IH|x l1 l2 _ IH]; [done| |].
  - rewrite !reverse_cons. by apply sublist_app.
  - rewrite reverse_cons. by apply sublist_inserts_r.
Qed.

(** What a view holds after filtering by a finite window, collection by
    collection. *)
Lemma window_collections data N now h :
  let run := filterDataByDays data (Some N) now h in
  let view := view_of run.2 run.1 in
  let store := document_of h data in
  let cutoff := (now - N * 86400000)%Z in
  doc_fact_deployment view
  = filter (λ d, (cutoff ≤ created_at_utc d)%Z) (doc_fact_deployment store)
  ∧ default [] (doc_fact_pr view)
    = filter (λ pr, (cutoff ≤ pr_merged_at_utc pr)%Z) (default [] (doc_fact_pr store))
  ∧ default [] (doc_fact_incident view)
    = filter (λ i, (cutoff ≤ created_utc i)%Z) (default [] (doc_fact_incident store))
  ∧ default [] (doc_dora_events view)
    = filter (λ e, (cutoff ≤ when_utc e)%Z) (default [] (doc_dora_events store))
  ∧ default [] (doc_dora_summary_daily view)
    = reverse (filter (λ d, (cutoff ≤ date d)%Z)
                 (default [] (doc_dora_summary_daily store))).
Proof.
  intros run view store cutoff.
  pose proof (filterDataByDays_window_view data N now h) as E. cbv zeta in E.
  unfold view, run. by rewrite E.
Qed.

(** X7: A longer window shows at least what a shorter one shows: every
    collection of the view of [N] days is a subsequence of the same
    collection of the view of [N'] days when [N <= N']. *)
Theorem window_grows_with_days data N N' now h :
  (N ≤ N')%Z →
  let view days :=
    let run := filterDataByDays data (Some days) now h in view_of run.2 run.1 in
  doc_fact_deployment (view N) `sublist_of` doc_fact_deployment (view N')
  ∧ default [] (doc_fact_pr (view N)) `sublist_of` default [] (doc_fact_pr (view N'))
  ∧ default [] (doc_fact_incident (view N))
    `sublist_of` default [] (doc_fact_incident (view N'))
  ∧ default [] (doc_dora_events (view N))
    `sublist_of` default [] (doc_dora_events (view N'))
  ∧ default [] (doc_dora_summary_daily (view N))
    `sublist_of` default [] (doc_dora_summary_daily (view N')).
Proof.
  intros Hle view.
  destruct (window_collections data N now h) as (Ed & Ep & Ei & Ee & Es).
  destruct (window_collections data N' now h) as (Ed' & Ep' & Ei' & Ee' & Es').
  unfold view. rewrite Ed, Ep, Ei, Ee, Es, Ed', Ep', Ei', Ee', Es'.
  split_and!; try apply sublist_reverse; apply sublist_filter_weaken; intros; lia.
Qed.

Lemma window_grows_with_days_witness :
  let '(h, _, od) := raw_records in
  let view days :=
    let run := filterDataByDays od (Some days) 86400000 h in view_of run.2 run.1 in
  (0 ≤ 1)%Z
  ∧ doc_fact_deployment (view 0%Z) `sublist_of` doc_fact_deployment (view 1%Z).
Proof.
  assert (0 ≤ 1)%Z as H by lia.
  split; [done|].
  by destruct (window_grows_with_days raw_records.2 0 1 86400000
                 raw_records.1.1 H) as (Hd & _).
Defined.

(** X4: Filtering alone never changes what the store holds, and under a finite
    window neither does the derivation that follows: the view of a finite
    window consists of arrays of its own, so the two in-place sorts of
    [calculateDoraMetrics] reorder the view and not the store. *)
Theorem finite_window_leaves_the_store data days N now h :
  allocated h data →
  let filtered := filterDataByDays data (Some N) now h in
  let derived := calculateDoraMetrics filtered.1 data (Some N) now filtered.2 in
  document_of (filterDataByDays data days now h).2 data = document_of h data
  ∧ document_of derived.2 data = document_of h data.
Proof.
  intros Ha. split.
  - by apply filterDataByDays_keeps_store.
  - by apply finite_window_keeps_store.
Qed.

Lemma finite_window_leaves_the_store_witness :
  let '(h, _, od) := raw_records in
  let filtered := filterDataByDays od (Some 1%Z) 86400000 h in
  let derived := calculateDoraMetrics filtered.1 od (Some 1%Z) 86400000 filtered.2 in
  allocated h od
  ∧ document_of derived.2 od = document_of h od.
Proof.
  assert (allocated raw_records.1.1 raw_records.2) as H.
  { split; [simpl; lia|]. repeat split; intros r [= <-]; simpl; lia. }
  split; [done|].
  by destruct (finite_window_leaves_the_store raw_records.2 None 1 86400000
                 raw_records.1.1 H) as [_ Hd].
Defined.

(** ** The whole pipeline *)

Lemma snapshot_sizes fd od tf now h :
  let m := (calculateDoraMetrics fd od tf now h).1 in
  DoraMetrics.totalDeployments m
  = length (contents (T:=Deployment) h (FilteredData.fact_deployment fd))
  ∧ DoraMetrics.totalPRs m
    = length (default [] (readOptional (T:=PullRequest) h (FilteredData.fact_pr fd)))
  ∧ DoraMetrics.totalIncidents m
    = countIncidents (readOptional h (FilteredData.fact_incident fd))
        (readOptional h (FilteredData.dora_events fd)).
Proof.
  simpl. split; [done|]. split.
  - destruct (FilteredData.fact_pr fd) as [r|]; [|done]. simpl.
    by rewrite sortIncidents_prs.
  - assert (readOptional (T:=Event)
              (sortIncidents fd
                 (heap_after (jsSort newestDeploymentFirst
                                (FilteredData.fact_deployment fd)) h))
              (FilteredData.dora_events fd)
            = readOptional h (FilteredData.dora_events fd)) as ->.
    { destruct (FilteredData.dora_events fd) as [r|]; [|done]. simpl.
      by rewrite sortIncidents_events. }
    destruct (FilteredData.fact_incident fd) as [ri|] eqn:Ei; [|done]. simpl.
    pose proof (sortIncidents_incidents_Permutation fd
                  (heap_after (jsSort newestDeploymentFirst
                                 (FilteredData.fact_deployment fd)) h) ri) as Hp.
    change (contents (T:=Incident)
              (heap_after (jsSort newestDeploymentFirst
                             (FilteredData.fact_deployment fd)) h) ri)
      with (contents (T:=Incident) h ri) in Hp.
    unfold countIncidents.
    destruct (contents (T:=Incident) (sortIncidents fd _) ri) as [|i l] eqn:E1,
             (contents (T:=Incident) h ri) as [|i' l'] eqn:E2; try done.
    + by apply Permutation_nil_cons in Hp.
    + symmetry in Hp. by apply Permutation_nil_cons in Hp.
    + by apply Permutation_length in Hp.
Qed.

(** The three steps of the pipeline, one after the other. *)
Lemma dashboard_steps doc days now :
  let loaded := loadDoraData doc empty_heap in
  let filtered := filterDataByDays loaded.1 days now loaded.2 in
  let derived := calculateDoraMetrics filtered.1 loaded.1 days now filtered.2 in
  dashboard doc days now empty_heap
  = ((loaded.1, filtered.1, derived.1), derived.2).
Proof.
  intros loaded filtered derived. unfold derived, filtered, dashboard, bind, ret.
  fold loaded. destruct loaded as [data h0]. cbn [fst snd].
  destruct (filterDataByDays data days now h0) as [fd h1]. cbn [fst snd].
  by destruct (calculateDoraMetrics fd data days now h1).
Qed.

(** X9: Loading a document, filtering it by a finite window and deriving the
    snapshot leaves a store that still holds the document, and the sizes
    in the snapshot count the records of the document inside the window:
    deployments by creation, pull requests by merge, incidents by creation
    and, only when no incident is inside the window, the events of type
    incident by their time. *)
Theorem dashboard_finite_window doc N now :
  let run := dashboard doc (Some N) now empty_heap in
  let store := run.1.1.1 in
  let m := run.1.2 in
  let cutoff := (now - N * 86400000)%Z in
  let incidents :=
    filter (λ i, (cutoff ≤ created_utc i)%Z) (default [] (doc_fact_incident doc)) in
  let events :=
    filter (λ e, (cutoff ≤ when_utc e)%Z) (default [] (doc_dora_events doc)) in
  document_of run.2 store = doc
  ∧ DoraMetrics.totalDeployments m
    = length (filter (λ d, (cutoff ≤ created_at_utc d)%Z) (doc_fact_deployment doc))
  ∧ DoraMetrics.totalPRs m
    = length (filter (λ pr, (cutoff ≤ pr_merged_at_utc pr)%Z)
                (default [] (doc_fact_pr doc)))
  ∧ DoraMetrics.totalIncidents m
    = match incidents with
      | _ :: _ => length incidents
      | [] => length (filter (λ e, event_type e = "incident") events)
      end.
Proof.
  intros run store m cutoff incidents events.
  set (loaded := loadDoraData doc empty_heap).
  set (filtered := filterDataByDays loaded.1 (Some N) now loaded.2).
  destruct (loadDoraData_allocated doc) as [Ha Edoc]. fold loaded in Ha, Edoc.
  pose proof (dashboard_steps doc (Some N) now) as Erun. cbv zeta in Erun.
  fold run loaded in Erun. fold filtered in Erun.
  split.
  { unfold store. rewrite Erun. cbn [fst snd].
    etrans; [by apply finite_window_keeps_store|done]. }
  destruct (snapshot_sizes filtered.1 loaded.1 (Some N) now filtered.2)
    as (Ed & Ep & Ei).
  destruct (window_collections loaded.1 N now loaded.2) as (Vd & Vp & Vi & Ve & _).
  fold filtered in Vd, Vp, Vi, Ve. rewrite Edoc in Vd, Vp, Vi, Ve.
  unfold view_of in Vd, Vp, Vi, Ve.
  cbn [doc_fact_deployment doc_fact_pr doc_fact_incident doc_dora_events] in *.
  unfold m. rewrite Erun. cbn [fst snd].
  rewrite Ed, Ep, Ei, Vd, Vp. split; [done|]. split; [done|].
  fold cutoff in Vi, Ve. fold incidents in Vi. fold events in Ve.
  unfold countIncidents.
  destruct (readOptional (T:=Incident) filtered.2
              (FilteredData.fact_incident filtered.1)) as [l|] eqn:Eo;
    destruct (readOptional (T:=Event) filtered.2
                (FilteredData.dora_events filtered.1)) as [e|] eqn:Ee;
    simpl in Vi, Ve; rewrite <-?Vi, <-?Ve; try done.
  all: by destruct l.
Qed.

(** ** The order of the rollups in a view *)

Lemma view_rollups data days now h r :
  dora_summary_daily data = Some r →
  let filtered := filterDataByDays data days now h in
  default [] (readOptional (T:=Rollup) filtered.2
                (FilteredData.dora_summary_daily filtered.1))
  = reverse match days with
            | Some N => filter (λ d, (now - N * 86400000 ≤ date d)%Z) (contents h r)
            | None => contents h r
            end.
Proof.
  intros Hr filtered. subst filtered. destruct days as [N|].
  - pose proof (filterDataByDays_window_view data N now h) as E.
    cbv zeta in E. apply (f_equal doc_dora_summary_daily) in E.
    unfold view_of in E. cbn [doc_dora_summary_daily] in E. rewrite E.
    unfold document_of. cbn [doc_dora_summary_daily]. by rewrite Hr.
  - pose proof (filterDataByDays_unbounded_view data now h) as E.
    cbv zeta in E. apply (f_equal doc_dora_summary_daily) in E.
    unfold view_of in E. cbn [doc_dora_summary_daily] in E. rewrite E.
    unfold document_of. cbn [doc_dora_summary_daily]. by rewrite Hr.
Qed.

(** X8: A view holds the rollups of the store in reverse: when the store keeps
    them in the order [R] (newest first, say), every view has them in the
    opposite order, whatever the window, and every row before the midpoint
    of the view, the rows that [calculateDoraMetrics] takes as the recent
    period, comes after every row from the midpoint on in the order of the
    store. *)
Theorem view_rollups_are_reversed (R : relation Rollup) data days now h r :
  dora_summary_daily data = Some r →
  StronglySorted R (contents h r) →
  let filtered := filterDataByDays data days now h in
  let summary :=
    default [] (readOptional (T:=Rollup) filtered.2
                  (FilteredData.dora_summary_daily filtered.1)) in
  let recentPeriod := take (length summary / 2) summary in
  let previousPeriod := drop (length summary / 2) summary in
  StronglySorted (flip R) summary
  ∧ (∀ d, d ∈ summary → d ∈ contents h r)
  ∧ ∀ a b, a ∈ recentPeriod → b ∈ previousPeriod → R b a.
Proof.
  intros Hr Hsorted filtered summary recentPeriod previousPeriod.
  pose proof (view_rollups data days now h r Hr) as E. cbv zeta in E.
  fold filtered in E. fold summary in E.
  assert (StronglySorted (flip R) summary) as Hs.
  { rewrite E. apply StronglySorted_reverse.
    destruct days; [by apply StronglySorted_filter|done]. }
  split; [done|]. split.
  - intros d. rewrite E, elem_of_reverse.
    destruct days; [|done]. by intros [_ ?]%list_elem_of_filter.
  - intros a b Ha Hb. rewrite <-(take_drop (length summary / 2) summary) in Hs.
    by apply (StronglySorted_app_1_elem_of _ _ _ a b Hs).
Qed.

Lemma view_rollups_are_reversed_witness :
  let loaded := loadDoraData rising_frequency empty_heap in
  let newestFirst (a b : Rollup) := (date b ≤ date a)%Z in
  let filtered := filterDataByDays loaded.1 None 259200000 loaded.2 in
  let summary :=
    default [] (readOptional (T:=Rollup) filtered.2
                  (FilteredData.dora_summary_daily filtered.1)) in
  (dora_summary_daily loaded.1 = Some 0%nat
   ∧ StronglySorted newestFirst (contents loaded.2 0))
  ∧ StronglySorted (flip newestFirst) summary.
Proof.
  set (loaded := loadDoraData rising_frequency empty_heap).
  set (newestFirst := λ a b : Rollup, (date b ≤ date a)%Z).
  assert (dora_summary_daily loaded.1 = Some 0%nat) as H1 by reflexivity.
  assert (StronglySorted newestFirst (contents loaded.2 0)) as H2.
  { repeat constructor. unfold newestFirst. simpl. lia. }
  split; [by split|].
  by destruct (view_rollups_are_reversed newestFirst loaded.1 None 259200000
                 loaded.2 0%nat H1 H2) as [Hs _].
Defined.

(** ** [getTrend] *)

Lemma reduce_sum_scaled (c : Qc) (l : list Qc) :
  reduce_sum id ((λ x, x / c) <$> l) = reduce_sum id l / c.
Proof.
  rewrite !reduce_sum_total, !list_fmap_id.
  rewrite <-(list_fmap_id l) at 2. apply (total_scaled id).
Qed.

Lemma quotient_zero (x c : Qc) : c ≠ 0 → x / c = 0 ↔ x = 0.
Proof.
  intros Hc. split; [|intros ->; unfold Qcdiv; apply Qcmult_0_l].
  intros E. rewrite <-(Qcmult_div_r x c) by done. rewrite E. ring.
Qed.

(** X15: A trend does not depend on the unit of the series: dividing every value
    of both periods by the same non-zero constant, as the recovery-time
    trend does with the minutes of the rollups, leaves it unchanged. *)
Theorem getTrend_scale_invariant (c : Qc) (current previous : list Qc) :
  c ≠ 0 →
  getTrend ((λ x, x / c) <$> current) ((λ x, x / c) <$> previous)
  = getTrend current previous.
Proof.
  intros Hc. unfold getTrend. rewrite !length_fmap, !reduce_sum_scaled.
  destruct (decide (length previous = 0 ∨ length current = 0)%nat) as [|Hlen];
    [done|].
  assert (num (length previous) ≠ 0) as Hp.
  { apply not_eq_sym, Qclt_not_eq, num_pos. lia. }
  assert (num (length current) ≠ 0) as Hcur.
  { apply not_eq_sym, Qclt_not_eq, num_pos. lia. }
  set (p := reduce_sum id previous). set (a := reduce_sum id current).
  assert (p / c / num (length previous) = p / num (length previous) / c) as ->
    by (by field).
  assert (a / c / num (length current) = a / num (length current) / c) as ->
    by (by field).
  destruct (decide (p / num (length previous) = 0)) as [E|N].
  - by rewrite decide_True by (by apply quotient_zero).
  - rewrite decide_False by (by rewrite quotient_zero).
    field. repeat split; try done.
    intros E. apply N. unfold Qcdiv. rewrite E. ring.
Qed.

Lemma getTrend_scale_invariant_witness :
  Qc_of_Z 60 ≠ 0
  ∧ getTrend ((λ x, x / Qc_of_Z 60) <$> [Qc_of_Z 90]) ((λ x, x / Qc_of_Z 60) <$> [Qc_of_Z 60])
    = getTrend [Qc_of_Z 90] [Qc_of_Z 60].
Proof.
  assert (Qc_of_Z 60 ≠ 0) as H by done.
  split; [done|].
  apply (getTrend_scale_invariant (Qc_of_Z 60) [Qc_of_Z 90] [Qc_of_Z 60] H).
Defined.





(** ** The four charts *)

Lemma sorted_by_ext {T} (f g : T → T → Z) (l : list T) :
  (∀ a b, f a b = g a b) → sorted_by f l = sorted_by g l.
Proof.
  intros Hfg. induction l as [|x l IH]; [done|]. simpl. rewrite IH.
  generalize (sorted_by g l). intros s.
  induction s as [|y s IHs]; [done|]. simpl. by rewrite Hfg, IHs.
Qed.

Lemma StronglySorted_weaken {A} (R R' : relation A) (l : list A) :
  (∀ a b, R a b → R' a b) → StronglySorted R l → StronglySorted R' l.
Proof.
  intros HR. induction 1 as [|x l Hl IH Hx]; constructor; [done|].
  eapply Forall_impl; [exact Hx|]. apply HR.
Qed.

Lemma sorted_by_oldestRollupFirst (l : list Rollup) :
  StronglySorted (λ a b, (date a ≤ date b)%Z) (sorted_by oldestRollupFirst l).
Proof.
  rewrite (sorted_by_ext _ (λ a b, (- date b - - date a)%Z))
    by (intros; unfold oldestRollupFirst; lia).
  eapply StronglySorted_weaken; [|apply (sorted_by_descending (λ d, (- date d)%Z))].
  simpl. intros; lia.
Qed.

Lemma NoDup_fmap_eq {A B} (f : A → B) (l : list A) (x y : A) :
  NoDup (f <$> l) → x ∈ l → y ∈ l → f x = f y → x = y.
Proof.
  induction l as [|z l IH]; [by intros _ ?%elem_of_nil|].
  rewrite fmap_cons, NoDup_cons.
  intros [Hz Hl] [->|Hx]%elem_of_cons [->|Hy]%elem_of_cons E; [done| | |by apply IH].
  - destruct Hz. rewrite E. by apply list_elem_of_fmap_2.
  - destruct Hz. rewrite <-E. by apply list_elem_of_fmap_2.
Qed.

Section chart_properties.
Context (toLocaleDateString : Z → string).
Context (keep : Rollup → Prop) `{∀ d, Decision (keep d)} (f : Rollup → Qc).

Let point (d : Rollup) : ChartPoint :=
  {| point_date := toLocaleDateString (date d); point_value := f d |}.

(** X20: A chart falls back to its placeholder only for an absent or empty
    sequence, also when the filter leaves no row; otherwise it draws one
    point for every row that passes the filter and no other, with the
    label and the value of that row, and the points run from the oldest
    row to the newest. *)
Theorem chartData_oldest_first (data : option (list Rollup)) :
  (chartData toLocaleDateString keep f data = None ↔ nothing data)
  ∧ ∀ points, chartData toLocaleDateString keep f data = Some points →
      ∃ rows, points = point <$> rows
        ∧ rows ≡ₚ filter keep (default [] data)
        ∧ StronglySorted (λ a b, (date a ≤ date b)%Z) rows
        ∧ (length points ≤ length (default [] data))%nat.
Proof.
  unfold nothing. destruct data as [[|d data]|]; simpl.
  - split; [by split; [right|]|done].
  - split; [split; [done|by intros [|]]|].
    intros points [= <-].
    exists (sorted_by oldestRollupFirst (filter keep (d :: data))).
    split; [done|]. split; [apply sorted_by_Permutation|].
    split; [apply sorted_by_oldestRollupFirst|].
    rewrite length_fmap, (Permutation_length (sorted_by_Permutation _ _)).
    apply (length_filter keep (d :: data)).
  - split; [by split; [left|]|done].
Qed.

(** X21: A chart does not depend on the order of the rows it is given, as long
    as no two of them carry the same date. *)
Theorem chartData_order_insensitive (data data' : list Rollup) :
  data ≡ₚ data' → NoDup (date <$> data) →
  chartData toLocaleDateString keep f (Some data)
  = chartData toLocaleDateString keep f (Some data').
Proof.
  intros Hp Hnodup.
  destruct data as [|d data], data' as [|d' data'].
  - done.
  - by apply Permutation_nil_cons in Hp.
  - symmetry in Hp. by apply Permutation_nil_cons in Hp.
  - unfold chartData. do 2 f_equal.
    apply (StronglySorted_unique_strong (λ a b, (date a ≤ date b)%Z));
      [|apply sorted_by_oldestRollupFirst..|].
    + intros x y Hx Hy Hxy Hyx.
      rewrite sorted_by_Permutation in Hx, Hy.
      apply list_elem_of_filter in Hx as [_ Hx].
      apply list_elem_of_filter in Hy as [_ Hy]. rewrite <-Hp in Hy.
      apply (NoDup_fmap_eq date (d :: data)); [done..|lia].
    + rewrite !sorted_by_Permutation. by rewrite Hp.
Qed.
End chart_properties.

Lemma chartData_order_insensitive_witness :
  let older := mkRollup 86400000 2 0 0 2 0 in
  let newer := mkRollup 172800000 (Qc_of_Z 4) 0 0 2 0 in
  ([newer; older] ≡ₚ [older; newer] ∧ NoDup (date <$> [newer; older]))
  ∧ DeploymentFrequencyChart pretty (Some [newer; older])
    = DeploymentFrequencyChart pretty (Some [older; newer]).
Proof.
  intros older newer.
  assert ([newer; older] ≡ₚ [older; newer]) as H1 by apply Permutation_swap.
  assert (NoDup (date <$> [newer; older])) as H2.
  { apply NoDup_cons. split; [|apply NoDup_singleton].
    by intros [=]%list_elem_of_singleton. }
  split; [by split|].
  apply (chartData_order_insensitive pretty (λ d, 0 < deploys d) deploys
           [newer; older] [older; newer] H1 H2).
Defined.

(** ** The summary card of the repository page *)

Lemma fold_number_add_NaN (xs : list number) : fold_left number_add xs NaN = NaN.
Proof. by induction xs. Qed.

Lemma fold_number_add (xs : list number) (a : Z) :
  fold_left number_add xs (Int a)
  = if decide (NaN ∈ xs) then NaN
    else Int (a + foldr Z.add 0 (intValue <$> xs))%Z.
Proof.
  revert a. induction xs as [|[|n] xs IH]; intros a.
  - rewrite decide_False by (by intros ?%elem_of_nil). simpl. f_equal. lia.
  - rewrite decide_True by left. apply fold_number_add_NaN.
  - cbn [fold_left number_add]. rewrite IH.
    destruct (decide (NaN ∈ xs)) as [Hin|Hout].
    + by rewrite decide_True by (by right).
    + rewrite decide_False by (by intros [?|?]%elem_of_cons).
      rewrite fmap_cons. cbn [foldr intValue]. f_equal. lia.
Qed.

Lemma totals_column rows tot field :
  (tot, field) ∈ total_columns →
  tot (totals rows) = fold_left number_add (field <$> rows) (Int 0).
Proof.
  unfold total_columns. rewrite !elem_of_cons, elem_of_nil.
  intros Hin. induction rows as [|r rows IH] using rev_ind.
  - destruct Hin as [E|[E|[E|[E|[]]]]]; by injection E as -> ->.
  - rewrite fmap_app, fold_left_app, <-IH, totals_snoc.
    destruct Hin as [E|[E|[E|[E|[]]]]]; by injection E as -> ->.
Qed.

Lemma sum_Permutation (xs ys : list Z) :
  xs ≡ₚ ys → foldr Z.add 0%Z xs = foldr Z.add 0%Z ys.
Proof. induction 1; simpl; lia. Qed.

(** X24: Each of the four totals is the sum of its column when every row holds
    a number there, and is not a number as soon as one row does not; the
    order of the rows does not matter. *)
Theorem totals_columns (rows : list RepoMetrics) :
  Forall (λ '(tot, field),
            (tot (totals rows) = NaN ↔ ∃ r, r ∈ rows ∧ field r = NaN)
            ∧ ((∀ r, r ∈ rows → field r ≠ NaN) →
               tot (totals rows)
               = Int (foldr Z.add 0%Z ((λ r, intValue (field r)) <$> rows)))
            ∧ ∀ rows', rows ≡ₚ rows' → tot (totals rows') = tot (totals rows))
         total_columns.
Proof.
  apply Forall_forall. intros [tot field] Hin.
  assert (∀ l, tot (totals l)
               = if decide (NaN ∈ field <$> l) then NaN
                 else Int (foldr Z.add 0%Z ((λ r, intValue (field r)) <$> l)))
    as Etot.
  { intros l. rewrite (totals_column l tot field Hin), fold_number_add.
    by rewrite <-list_fmap_compose. }
  split; [|split].
  - rewrite Etot. case_decide as HNaN.
    + split; [|done]. intros _.
      apply list_elem_of_fmap in HNaN as (r & E & Hr). by exists r.
    + split; [done|]. intros (r & Hr & E). destruct HNaN. rewrite <-E.
      by apply list_elem_of_fmap_2.
  - intros Hall. rewrite Etot, decide_False; [done|].
    intros (r & E & Hr)%list_elem_of_fmap. by apply (Hall r).
  - intros rows' Hp. rewrite !Etot.
    destruct (decide (NaN ∈ field <$> rows)) as [H1|H1].
    + by rewrite decide_True by (by rewrite <-Hp).
    + rewrite decide_False by (by rewrite <-Hp). f_equal.
      apply sum_Permutation. by rewrite Hp.
Qed.

Lemma known_release_days (rows : list RepoMetrics) :
  (λ m, default (Int 0) (daysSinceLastRelease m))
    <$> filter (λ m, daysSinceLastRelease m ≠ None) rows
  = omap daysSinceLastRelease rows.
Proof.
  induction rows as [|r rows IH]; [done|].
  rewrite filter_cons. cbn [omap list_omap].
  destruct (daysSinceLastRelease r) as [x|] eqn:E.
  - rewrite decide_True by done. rewrite fmap_cons, IH. by rewrite E.
  - by rewrite decide_False by (by intros []).
Qed.

Lemma fold_left_fmap_number {A} (g : A → number) (l : list A) (a : number) :
  fold_left (λ s m, number_add s (g m)) l a = fold_left number_add (g <$> l) a.
Proof. revert a. induction l as [|x l IH]; intros a; [done|]. apply IH. Qed.

Lemma sum_between (lo hi : Z) (zs : list Z) :
  (∀ z, z ∈ zs → lo ≤ z ≤ hi)%Z →
  (Z.of_nat (length zs) * lo ≤ foldr Z.add 0 zs ≤ Z.of_nat (length zs) * hi)%Z.
Proof.
  induction zs as [|z zs IH]; intros Hall; [simpl; lia|].
  destruct IH as [IHlo IHhi]; [intros y Hy; apply Hall; by right|].
  destruct (Hall z) as [Hlo Hhi]; [left|].
  cbn [length foldr]. lia.
Qed.

(** X25: The average number of days since the last release is absent exactly
    when no row has a release; it is not a number exactly when the field
    of some row with a release is not one; otherwise it is the integer
    nearest to the mean of the known values, the larger one on a tie, and
    lies between any two bounds of those values. *)
Theorem avgDaysSinceRelease_spec (rows : list RepoMetrics) :
  let known := omap daysSinceLastRelease rows in
  (avgDaysSinceRelease rows = None ↔ known = [])
  ∧ (avgDaysSinceRelease rows = Some NaN ↔ NaN ∈ known)
  ∧ ∀ k, avgDaysSinceRelease rows = Some (Int k) →
      let days := intValue <$> known in
      let mean := Qc_of_Z (foldr Z.add 0%Z days) / num (length days) in
      known = Int <$> days
      ∧ Qc_of_Z k ≤ mean + Q2Qc (1 # 2)
      ∧ mean + Q2Qc (1 # 2) < Qc_of_Z k + 1
      ∧ ∀ lo hi, (∀ d, d ∈ days → lo ≤ d ≤ hi)%Z → (lo ≤ k ≤ hi)%Z.
Proof.
  intros known. unfold avgDaysSinceRelease.
  rewrite fold_left_fmap_number.
  assert (length (filter (λ m, daysSinceLastRelease m ≠ None) rows) = length known)
    as Elen by (unfold known; by rewrite <-known_release_days, length_fmap).
  rewrite known_release_days, Elen. fold known. clearbody known. clear Elen.
  rewrite fold_number_add.
  destruct (decide (known = [])) as [->|Hne].
  { rewrite decide_True by done. split; [done|].
    split; [split; [done|by intros ?%elem_of_nil]|done]. }
  rewrite decide_False by (by destruct known).
  split; [done|].
  destruct (decide (NaN ∈ known)) as [HNaN|Hnum]; [by split|].
  split; [split; [done|by intros ?]|].
  intros k [= Ek]. cbv zeta. rewrite Z.add_0_l in Ek.
  assert (known = Int <$> (intValue <$> known)) as Eint.
  { clear -Hnum. induction known as [|[|n] l IH]; [done| |].
    - destruct Hnum. left.
    - rewrite !fmap_cons. rewrite <-IH; [done|].
      intros Hin. apply Hnum. by right. }
  split; [done|].
  set (days := intValue <$> known) in *.
  assert (length known = length days) as El
    by (unfold days; by rewrite length_fmap).
  rewrite El in Ek.
  set (mean := Qc_of_Z (foldr Z.add 0%Z days) / num (length days)) in *.
  destruct (round_half_up_nearest mean) as [Hlo Hhi].
  change (round_half_up mean) with (Math_round mean) in Hlo, Hhi.
  rewrite Ek in Hlo, Hhi.
  split; [done|]. split; [done|].
  intros lo hi Hall.
  assert (0 < length days)%nat as Hpos.
  { rewrite <-El. destruct known; [done|simpl; lia]. }
  assert (Qc_of_Z lo ≤ mean ≤ Qc_of_Z hi) as [Hmlo Hmhi].
  { apply quotient_between; [by apply num_pos|].
    unfold num. rewrite <-!Z2Qc_inj_mul, <-!Z2Qc_inj_le.
    by apply sum_between. }
  assert (0 ≤ Q2Qc (1 # 2)) as Hhalf by done.
  assert (Q2Qc (1 # 2) < 1) as Hhalf1 by done.
  split.
  - assert (Qc_of_Z lo < Qc_of_Z (k + 1)) as Hlt.
    { rewrite Z2Qc_inj_add, Z2Qc_inj_1.
      eapply Qcle_lt_trans; [|exact Hhi].
      rewrite <-(Qcplus_0_r (Qc_of_Z lo)). by apply Qcplus_le_compat. }
    rewrite <-Z2Qc_inj_lt in Hlt. lia.
  - assert (Qc_of_Z k < Qc_of_Z (hi + 1)) as Hlt.
    { rewrite Z2Qc_inj_add, Z2Qc_inj_1.
      eapply Qcle_lt_trans; [exact Hlo|].
      eapply Qcle_lt_trans; [apply Qcplus_le_mono_r, Hmhi|].
      by apply Qcplus_lt_mono_l. }
    rewrite <-Z2Qc_inj_lt in Hlt. lia.
Qed.

(** ** The counts of [fetchGitHubData] *)

Lemma hasLabelLike_lower patterns issue :
  hasLabelLike patterns issue
  ↔ Exists (λ name, Exists (λ p, includes name p = true) patterns)
      (toLowerCase <$> labels issue).
Proof. unfold hasLabelLike. by rewrite Exists_fmap. Qed.

Lemma count_related {A} (P : A → Prop) `{∀ x, Decision (P x)} (R : relation A)
    (l l' : list A) :
  (∀ x y, R x y → P x ↔ P y) → Forall2 R l l' →
  length (filter P l) = length (filter P l').
Proof.
  intros HR. induction 1 as [|x y l l' Hxy _ IH]; [done|].
  rewrite !filter_cons. destruct (decide (P x)) as [Hx|Hx].
  - rewrite decide_True by (by apply (HR x y)). simpl. by rewrite IH.
  - by rewrite decide_False by (by rewrite <-(HR x y)).
Qed.

Lemma filter_related {A} (P : A → Prop) `{∀ x, Decision (P x)} (R : relation A)
    (l l' : list A) :
  (∀ x y, R x y → P x ↔ P y) → Forall2 R l l' →
  Forall2 R (filter P l) (filter P l').
Proof.
  intros HR. induction 1 as [|x y l l' Hxy _ IH]; [constructor|].
  rewrite !filter_cons. destruct (decide (P x)) as [Hx|Hx].
  - rewrite decide_True by (by apply (HR x y)). by constructor.
  - by rewrite decide_False by (by rewrite <-(HR x y)).
Qed.

(** X26: Of the pull requests only those created in the last 30 days count, as
    opened and, when they carry a merge date, as merged, so that merged
    never exceeds opened; an older pull request counts as neither, whenever
    it was merged.  Of the issues only the entries that are not pull
    requests count, whatever their age, and the two label counts see the
    labels only through their lower-case form. *)
Theorem countGitHubData_counts prs issues now :
  let c := countGitHubData prs issues now in
  let actualIssues := filter (λ i, pull_request i = false) issues in
  (GitHubCounts.prsMerged c ≤ GitHubCounts.prsOpened c ≤ length prs)%nat
  ∧ (GitHubCounts.issuesReadyForQA c ≤ length actualIssues)%nat
  ∧ (GitHubCounts.issuesQACompleted c ≤ length actualIssues)%nat
  ∧ (∀ pr, (created_at pr < now - 30 * 86400000)%Z →
           countGitHubData (pr :: prs) issues now = c)
  ∧ (∀ i, pull_request i = true → countGitHubData prs (i :: issues) now = c)
  ∧ (∀ issues',
       Forall2 (λ i i', pull_request i = pull_request i'
                        ∧ toLowerCase <$> labels i = toLowerCase <$> labels i')
         issues issues' →
       countGitHubData prs issues' now = c).
Proof.
  intros c actualIssues. subst c. unfold countGitHubData. cbn [GitHubCounts.prsMerged
    GitHubCounts.prsOpened GitHubCounts.issuesReadyForQA GitHubCounts.issuesQACompleted].
  fold actualIssues.
  split; [split; apply length_filter|].
  split; [apply length_filter|]. split; [apply length_filter|].
  split; [|split].
  - intros pr Hold. by rewrite filter_cons_False by lia.
  - intros i Hi. by rewrite (filter_cons_False _ i issues) by (by rewrite Hi).
  - intros issues' Hrel.
    set (R := λ i i' : GitHubIssue,
                pull_request i = pull_request i'
                ∧ toLowerCase <$> labels i = toLowerCase <$> labels i') in Hrel.
    assert (Forall2 R actualIssues (filter (λ i, pull_request i = false) issues'))
      as Hactual.
    { apply filter_related; [|done]. intros x y [E _]. by rewrite E. }
    assert (∀ patterns x y, R x y →
              hasLabelLike patterns x ↔ hasLabelLike patterns y) as Hlabel.
    { intros patterns x y [_ E]. by rewrite !hasLabelLike_lower, E. }
    f_equal; symmetry; eapply count_related; try exact Hactual; apply Hlabel.
Qed.

(** ** White space in the feed *)

Lemma trimEnd_idemp (s : string) : trimEnd (trimEnd s) = trimEnd s.
Proof.
  induction s as [|c s IH]; [done|]. cbn [trimEnd].
  destruct (trimEnd s) as [|d u] eqn:E.
  - destruct (isWhiteSpace c) eqn:Ec; [done|]. cbn [trimEnd]. by rewrite Ec.
  - cbn [trimEnd]. cbn [trimEnd] in IH. by rewrite IH.
Qed.

Lemma trimStart_head (s : string) :
  trimStart s = EmptyString
  ∨ ∃ c s', trimStart s = String c s' ∧ isWhiteSpace c = false.
Proof.
  induction s as [|c s IH]; [by left|]. cbn [trimStart].
  destruct (isWhiteSpace c) eqn:Ec; [done|]. right. by exists c, s.
Qed.

Lemma trimEnd_head (c : ascii) (s : string) :
  isWhiteSpace c = false → ∃ u, trimEnd (String c s) = String c u.
Proof.
  intros Ec. cbn [trimEnd]. destruct (trimEnd s) as [|d u].
  - rewrite Ec. by exists EmptyString.
  - by exists (String d u).
Qed.

Lemma trim_idemp (s : string) : trim (trim s) = trim s.
Proof.
  unfold trim. destruct (trimStart_head s) as [->|(c & s' & -> & Ec)]; [done|].
  destruct (trimEnd_head c s' Ec) as [u Eu]. rewrite Eu.
  cbn [trimStart]. rewrite Ec, <-Eu. apply trimEnd_idemp.
Qed.

Lemma trimEnd_snoc (s : string) (c : ascii) :
  isWhiteSpace c = true → trimEnd (s +:+ String c EmptyString) = trimEnd s.
Proof.
  intros Ec. induction s as [|d s IH]; simpl; [by rewrite Ec|]. by rewrite IH.
Qed.

Lemma trim_snoc (s : string) (c : ascii) :
  isWhiteSpace c = true → trim (s +:+ String c EmptyString) = trim s.
Proof.
  intros Ec. unfold trim. induction s as [|d s IH]; simpl; [by rewrite Ec|].
  destruct (isWhiteSpace d) eqn:Ed; [done|].
  change (String d (s +:+ String c EmptyString))
    with (String d s +:+ String c EmptyString).
  by apply trimEnd_snoc.
Qed.

Lemma fillRow_trimmed headers index values row :
  fillRow (trim <$> headers) index (trim <$> values) row
  = fillRow headers index values row.
Proof.
  revert index row. induction headers as [|hdr headers IH]; intros index row;
    [done|].
  rewrite fmap_cons. cbn [fillRow]. rewrite IH, trim_idemp, list_lookup_fmap.
  destruct (values !! index) as [v|]; [|done]. simpl. by rewrite trim_idemp.
Qed.

Lemma fillRow_blank headers index values (row : gmap string string) key :
  Forall (λ v, trim v = EmptyString) values →
  (row !! key = None ∨ row !! key = Some EmptyString) →
  fillRow headers index values row !! key = None
  ∨ fillRow headers index values row !! key = Some EmptyString.
Proof.
  intros Hblank. revert index row.
  induction headers as [|hdr headers IH]; intros index row Hrow; [done|].
  cbn [fillRow]. apply IH.
  destruct (decide (trim hdr = key)) as [->|Hne].
  - right. rewrite lookup_insert_eq. f_equal.
    destruct (values !! index) as [v|] eqn:Ev; [|done]. simpl.
    rewrite Forall_forall in Hblank. apply Hblank.
    by apply list_elem_of_lookup_2 in Ev.
  - by rewrite lookup_insert_ne.
Qed.

Lemma split_snoc (sep c : ascii) (s : string) :
  c ≠ sep →
  ∃ init last, split sep s = init ++ [last]
    ∧ split sep (s +:+ String c EmptyString)
      = init ++ [last +:+ String c EmptyString].
Proof.
  intros Hc. induction s as [|d s (init & last & E & E')].
  - exists [], EmptyString. split; [done|]. simpl. by rewrite decide_False.
  - change (String d s +:+ String c EmptyString)
      with (String d (s +:+ String c EmptyString)).
    cbn [split]. rewrite E, E'. destruct (decide (d = sep)).
    + by exists (EmptyString :: init), last.
    + destruct init as [|x init]; simpl.
      * by exists [], (String d last).
      * by exists (String d x :: init), last.
Qed.

Lemma white_space_is_no_comma (c : ascii) : isWhiteSpace c = true → c ≠ ","%char.
Proof. intros Ec ->. by vm_compute in Ec. Qed.

Lemma trimmed_cells_snoc (line : string) (c : ascii) :
  isWhiteSpace c = true →
  trim <$> split "," (line +:+ String c EmptyString) = trim <$> split "," line.
Proof.
  intros Ec.
  destruct (split_snoc "," c line (white_space_is_no_comma c Ec))
    as (init & last & -> & ->).
  rewrite !fmap_app. simpl. by rewrite trim_snoc.
Qed.

(** X23: White space around the text of the feed, around a column name and
    around a cell does not matter, so that a final newline adds no row and
    a carriage return at the end of a line, the header line included, is
    harmless; a line that holds nothing but white space and commas gives
    the blank row, with empty names, counts of 0 and no release. *)
Theorem feed_white_space :
  (∀ text, parseCSV (trim text) = parseCSV text)
  ∧ (∀ text c, isWhiteSpace c = true →
       parseCSV (String c text) = parseCSV text
       ∧ parseCSV (text +:+ String c EmptyString) = parseCSV text)
  ∧ (∀ headers values,
       parseRow (trim <$> headers) (trim <$> values) = parseRow headers values)
  ∧ (∀ headerLine line c, isWhiteSpace c = true →
       parseRow (split "," (headerLine +:+ String c EmptyString))
                (split "," (line +:+ String c EmptyString))
       = parseRow (split "," headerLine) (split "," line))
  ∧ (∀ headers values,
       Forall (λ v, trim v = EmptyString) values →
       parseRow headers values = blank_row).
Proof.
  assert (∀ headers values,
            parseRow (trim <$> headers) (trim <$> values) = parseRow headers values)
    as Htrim.
  { intros headers values. apply parseRow_recognized. intros key _.
    by rewrite fillRow_trimmed. }
  split; [|split; [|split; [|split]]].
  - intros text. unfold parseCSV. by rewrite trim_idemp.
  - intros text c Ec. split.
    + unfold parseCSV, trim. cbn [trimStart]. by rewrite Ec.
    + unfold parseCSV. by rewrite trim_snoc.
  - done.
  - intros headerLine line c Ec.
    rewrite <-Htrim, !trimmed_cells_snoc by done. apply Htrim.
  - intros headers values Hblank.
    assert (∀ key, fillRow headers 0 values ∅ !! key = None
                   ∨ fillRow headers 0 values ∅ !! key = Some EmptyString) as Hrow.
    { intros key. apply fillRow_blank; [done|]. left. apply lookup_empty. }
    unfold parseRow, orElse, blank_row.
    destruct (Hrow "repo_name") as [-> | ->],
             (Hrow "display_name") as [-> | ->],
             (Hrow "prs_opened") as [-> | ->],
             (Hrow "prs_merged") as [-> | ->],
             (Hrow "issues_ready_for_qa") as [-> | ->],
             (Hrow "issues_qa_completed") as [-> | ->],
             (Hrow "days_since_last_release") as [-> | ->],
             (Hrow "fetched_at") as [-> | ->]; reflexivity.
Qed.

(** ** The fixed look-back counts *)

Lemma count_weaken {A} (P Q : A → Prop) `{∀ x, Decision (P x)}
    `{∀ x, Decision (Q x)} (l : list A) :
  (∀ x, P x → Q x) → (length (filter P l) ≤ length (filter Q l))%nat.
Proof. intros HPQ. by apply sublist_length, sublist_filter_weaken. Qed.

(** X11: The three look-back counts nest: a deployment counted for yesterday is
    counted for the last week, one counted for the last week is counted
    for the last month, and one counted for the last month is a deployment
    of the store that is not dated after the clock. *)
Theorem lookback_counts_nest fd od tf now h :
  let m := (calculateDoraMetrics fd od tf now h).1 in
  let all := contents (T:=Deployment) h (fact_deployment od) in
  (DoraMetrics.deploymentsYesterday m ≤ DoraMetrics.deploymentsLastWeek m)%nat
  ∧ (DoraMetrics.deploymentsLastWeek m ≤ DoraMetrics.deploymentsLastMonth m)%nat
  ∧ (DoraMetrics.deploymentsLastMonth m
     ≤ length (filter (λ d, (created_at_utc d ≤ now)%Z) all))%nat
  ∧ (DoraMetrics.deploymentsLastMonth m ≤ length all)%nat.
Proof.
  intros m all. subst m.
  destruct (snapshot_counts fd od tf now h) as (-> & -> & ->).
  unfold calculateDeploymentCounts. cbn [yesterday lastWeek lastMonth].
  fold all. unfold ms_per_day.
  split; [apply count_weaken; unfold deployedBetween; intros; lia|].
  split; [apply count_weaken; unfold deployedBetween; intros; lia|].
  split; [apply count_weaken; unfold deployedBetween; intros; lia|].
  apply length_filter.
Qed.

Lemma count_split_at (lo now : Z) (l : list Deployment) :
  (lo ≤ now)%Z →
  length (filter (λ d, (lo ≤ created_at_utc d)%Z) l)
  = (length (filter (deployedBetween lo now) l)
     + length (filter (λ d, (now < created_at_utc d)%Z) l))%nat.
Proof.
  intros Hlo. induction l as [|d l IH]; [done|].
  rewrite !filter_cons.
  destruct (decide (lo ≤ created_at_utc d)%Z) as [H1|H1],
           (decide (deployedBetween lo now d)) as [[H2 H3]|H2],
           (decide (now < created_at_utc d)%Z) as [H4|H4];
    simpl; try lia; destruct H2; split; lia.
Qed.

Lemma dashboard_deployment_counts doc N now :
  let m := (dashboard doc (Some N) now empty_heap).1.2 in
  let all := doc_fact_deployment doc in
  DoraMetrics.totalDeployments m
  = length (filter (λ d, (now - N * 86400000 ≤ created_at_utc d)%Z) all)
  ∧ DoraMetrics.deploymentsYesterday m
    = length (filter (deployedBetween (now - 1 * 86400000) now) all)
  ∧ DoraMetrics.deploymentsLastWeek m
    = length (filter (deployedBetween (now - 7 * 86400000) now) all)
  ∧ DoraMetrics.deploymentsLastMonth m
    = length (filter (deployedBetween (now - 30 * 86400000) now) all).
Proof.
  intros m all. subst m.
  pose proof (dashboard_steps doc (Some N) now) as Erun. cbv zeta in Erun.
  rewrite Erun. cbn [fst snd]. clear Erun.
  set (loaded := loadDoraData doc empty_heap).
  set (filtered := filterDataByDays loaded.1 (Some N) now loaded.2).
  destruct (loadDoraData_allocated doc) as [Ha Edoc]. fold loaded in Ha, Edoc.
  destruct (snapshot_sizes filtered.1 loaded.1 (Some N) now filtered.2) as (-> & _).
  destruct (snapshot_counts filtered.1 loaded.1 (Some N) now filtered.2)
    as (-> & -> & ->).
  destruct (window_collections loaded.1 N now loaded.2) as (Vd & _).
  fold filtered in Vd. rewrite Edoc in Vd. unfold view_of in Vd.
  cbn [doc_fact_deployment] in Vd. rewrite Vd. split; [done|].
  pose proof (filterDataByDays_keeps_store loaded.1 (Some N) now loaded.2 Ha) as Es.
  fold filtered in Es. rewrite Edoc in Es.
  apply (f_equal doc_fact_deployment) in Es. unfold document_of in Es.
  cbn [doc_fact_deployment] in Es.
  unfold calculateDeploymentCounts. cbn [yesterday lastWeek lastMonth].
  by rewrite Es.
Qed.

(** X10: The size of a window view and the look-back count of the same length
    differ by the deployments dated after the clock, which the window
    filter keeps and the look-back counts leave out: the view of 1, 7 and
    30 days holds the deployments counted for yesterday, for the last week
    and for the last month together with the later ones. *)
Theorem window_size_and_lookback doc now :
  let m N := (dashboard doc (Some N) now empty_heap).1.2 in
  let later :=
    length (filter (λ d, (now < created_at_utc d)%Z) (doc_fact_deployment doc)) in
  DoraMetrics.totalDeployments (m 1%Z)
  = (DoraMetrics.deploymentsYesterday (m 1%Z) + later)%nat
  ∧ DoraMetrics.totalDeployments (m 7%Z)
    = (DoraMetrics.deploymentsLastWeek (m 7%Z) + later)%nat
  ∧ DoraMetrics.totalDeployments (m 30%Z)
    = (DoraMetrics.deploymentsLastMonth (m 30%Z) + later)%nat.
Proof.
  intros m later. unfold m.
  destruct (dashboard_deployment_counts doc 1 now) as (-> & -> & _).
  destruct (dashboard_deployment_counts doc 7 now) as (-> & _ & -> & _).
  destruct (dashboard_deployment_counts doc 30 now) as (-> & _ & _ & ->).
  split_and!; apply count_split_at; lia.
Qed.

(** ** The snapshot as a function of what the arrays hold *)

Lemma DoraMetrics_ext (m m' : DoraMetrics.t) :
  DoraMetrics.deploymentFrequency m = DoraMetrics.deploymentFrequency m' →
  DoraMetrics.deploymentFrequencyTrend m = DoraMetrics.deploymentFrequencyTrend m' →
  DoraMetrics.deploymentFrequencyTrendText m
  = DoraMetrics.deploymentFrequencyTrendText m' →
  DoraMetrics.deploymentsYesterday m = DoraMetrics.deploymentsYesterday m' →
  DoraMetrics.deploymentsLastWeek m = DoraMetrics.deploymentsLastWeek m' →
  DoraMetrics.deploymentsLastMonth m = DoraMetrics.deploymentsLastMonth m' →
  DoraMetrics.leadTime m = DoraMetrics.leadTime m' →
  DoraMetrics.leadTimeTrend m = DoraMetrics.leadTimeTrend m' →
  DoraMetrics.maxLeadTime m = DoraMetrics.maxLeadTime m' →
  DoraMetrics.minLeadTime m = DoraMetrics.minLeadTime m' →
  DoraMetrics.lastDeploymentLeadTime m = DoraMetrics.lastDeploymentLeadTime m' →
  DoraMetrics.cfr m = DoraMetrics.cfr m' →
  DoraMetrics.cfrTrend m = DoraMetrics.cfrTrend m' →
  DoraMetrics.cfrTrendStatus m = DoraMetrics.cfrTrendStatus m' →
  DoraMetrics.failedDeployments m = DoraMetrics.failedDeployments m' →
  DoraMetrics.successfulDeployments m = DoraMetrics.successfulDeployments m' →
  DoraMetrics.mttr m = DoraMetrics.mttr m' →
  DoraMetrics.mttrTrend m = DoraMetrics.mttrTrend m' →
  DoraMetrics.maxMTTR m = DoraMetrics.maxMTTR m' →
  DoraMetrics.minMTTR m = DoraMetrics.minMTTR m' →
  DoraMetrics.lastIncidentMTTR m = DoraMetrics.lastIncidentMTTR m' →
  DoraMetrics.totalDeployments m = DoraMetrics.totalDeployments m' →
  DoraMetrics.successRate m = DoraMetrics.successRate m' →
  DoraMetrics.totalIncidents m = DoraMetrics.totalIncidents m' →
  DoraMetrics.totalPRs m = DoraMetrics.totalPRs m' →
  m = m'.
Proof. destruct m, m'. simpl. intros. by subst. Qed.

Lemma snapshot_classification fd od tf now h :
  let m := (calculateDoraMetrics fd od tf now h).1 in
  let deployments := contents (T:=Deployment) h (FilteredData.fact_deployment fd) in
  DoraMetrics.successfulDeployments m = length (filter successful deployments)
  ∧ DoraMetrics.failedDeployments m = length (filter failed deployments)
  ∧ DoraMetrics.successRate m
    = if decide (0 < length deployments)%nat
      then num (length (filter successful deployments))
           / num (length deployments) * Qc_of_Z 100
      else 0.
Proof. done. Qed.

Lemma snapshot_cfr_status fd od tf now h :
  DoraMetrics.cfrTrendStatus (calculateDoraMetrics fd od tf now h).1
  = calculateCFRTrendStatus fd od tf now h.
Proof.
  simpl. apply calculateCFRTrendStatus_order. intros r. apply deployments_at_return.
Qed.

Lemma snapshot_ext fd od h fd' od' h' tf now :
  view_of h fd = view_of h' fd' →
  contents (T:=Deployment) h (fact_deployment od)
  ≡ₚ contents h' (fact_deployment od') →
  (calculateDoraMetrics fd od tf now h).1 = (calculateDoraMetrics fd' od' tf now h').1.
Proof.
  intros Ev Hp. unfold view_of in Ev. injection Ev as Ed Epr Ei Ee Es.
  assert (calculateDeploymentCounts od now h = calculateDeploymentCounts od' now h')
    as Ecounts.
  { unfold calculateDeploymentCounts.
    by rewrite !(count_Permutation (deployedBetween _ _) _ _ Hp). }
  assert (calculateDeploymentTrendText fd od now h
          = calculateDeploymentTrendText fd' od' now h') as Etext.
  { unfold calculateDeploymentTrendText.
    assert (filter (deployedBetween (now - 7 * ms_per_day) now)
              (contents h (fact_deployment od))
            ≡ₚ filter (deployedBetween (now - 7 * ms_per_day) now)
                 (contents h' (fact_deployment od'))) as Ew by (by rewrite Hp).
    by rewrite (Permutation_length Ew), (count_Permutation successful _ _ Ew). }
  assert (calculateCFRTrendStatus fd od tf now h
          = calculateCFRTrendStatus fd' od' tf now h') as Estatus.
  { unfold calculateCFRTrendStatus. destruct tf as [days|].
    - by rewrite Ed, (count_Permutation (failedInPreviousPeriod _ _) _ _ Hp).
    - by rewrite (Permutation_length Hp), (count_Permutation failed _ _ Hp). }
  destruct (snapshot_averages fd od tf now h) as (A1 & A2 & A3 & A4).
  destruct (snapshot_averages fd' od' tf now h') as (A1' & A2' & A3' & A4').
  destruct (snapshot_trends fd od tf now h) as (T1 & T2 & T3 & T4).
  destruct (snapshot_trends fd' od' tf now h') as (T1' & T2' & T3' & T4').
  destruct (snapshot_counts fd od tf now h) as (C1 & C2 & C3).
  destruct (snapshot_counts fd' od' tf now h') as (C1' & C2' & C3').
  destruct (snapshot_lead_time_extremes fd od tf now h) as (L1 & L2 & L3).
  destruct (snapshot_lead_time_extremes fd' od' tf now h') as (L1' & L2' & L3').
  destruct (snapshot_mttr_extremes fd od tf now h) as (R1 & R2 & R3).
  destruct (snapshot_mttr_extremes fd' od' tf now h') as (R1' & R2' & R3').
  destruct (snapshot_sizes fd od tf now h) as (S1 & S2 & S3).
  destruct (snapshot_sizes fd' od' tf now h') as (S1' & S2' & S3').
  destruct (snapshot_classification fd od tf now h) as (K1 & K2 & K3).
  destruct (snapshot_classification fd' od' tf now h') as (K1' & K2' & K3').
  apply DoraMetrics_ext;
    rewrite ?A1, ?A2, ?A3, ?A4, ?A1', ?A2', ?A3', ?A4',
      ?T1, ?T2, ?T3, ?T4, ?T1', ?T2', ?T3', ?T4',
      ?C1, ?C2, ?C3, ?C1', ?C2', ?C3', ?L1, ?L2, ?L3, ?L1', ?L2', ?L3',
      ?R1, ?R2, ?R3, ?R1', ?R2', ?R3', ?S1, ?S2, ?S3, ?S1', ?S2', ?S3',
      ?K1, ?K2, ?K3, ?K1', ?K2', ?K3',
      ?snapshot_trend_text, ?snapshot_cfr_status;
    by rewrite ?Ed, ?Epr, ?Ei, ?Ee, ?Es, ?Ecounts, ?Etext, ?Estatus.
Qed.

(** The view after the derivation: its deployments and its incidents
    sorted, the rest as before. *)
Lemma view_after_derivation fd od tf now h :
  view_of (calculateDoraMetrics fd od tf now h).2 fd
  = {| doc_fact_deployment :=
         sorted_by newestDeploymentFirst (doc_fact_deployment (view_of h fd));
       doc_fact_pr := doc_fact_pr (view_of h fd);
       doc_fact_incident :=
         sorted_by newestIncidentFirst <$> doc_fact_incident (view_of h fd);
       doc_dora_events := doc_dora_events (view_of h fd);
       doc_dora_summary_daily := doc_dora_summary_daily (view_of h fd) |}.
Proof.
  unfold view_of. simpl. f_equal.
  - rewrite sortIncidents_deployments, deployments_after_jsSort.
    by rewrite decide_True.
  - destruct (FilteredData.fact_pr fd); [|done]. simpl.
    by rewrite sortIncidents_prs.
  - unfold sortIncidents.
    destruct (FilteredData.fact_incident fd) as [ri|]; [|done]. simpl. f_equal.
    change (contents (T:=Incident)
              (heap_after (jsSort newestDeploymentFirst
                             (FilteredData.fact_deployment fd)) h) ri)
      with (contents (T:=Incident) h ri).
    case_decide as Hlen.
    + rewrite incidents_after_jsSort. by rewrite decide_True.
    + change (contents (T:=Incident)
                (heap_after (jsSort newestDeploymentFirst
                               (FilteredData.fact_deployment fd)) h) ri)
        with (contents (T:=Incident) h ri).
      destruct (contents (T:=Incident) h ri); [done|simpl in Hlen; lia].
  - destruct (FilteredData.dora_events fd); [|done]. simpl.
    by rewrite sortIncidents_events.
  - destruct (FilteredData.dora_summary_daily fd); [|done]. simpl. f_equal.
    unfold sortIncidents. destruct (FilteredData.fact_incident fd); [|done].
    by case_decide.
Qed.

(** X5: The snapshot is a function of what the arrays of the view hold and of
    the deployments of the store, in any order; where the arrays live in
    the heap and whether view and store share them makes no difference to
    the figures, nor to what the view holds afterwards: its deployments
    and its incidents newest first, the rest as before. *)
Theorem snapshot_depends_on_contents fd od h fd' od' h' tf now :
  view_of h fd = view_of h' fd' →
  contents (T:=Deployment) h (fact_deployment od)
  ≡ₚ contents h' (fact_deployment od') →
  let first := calculateDoraMetrics fd od tf now h in
  let second := calculateDoraMetrics fd' od' tf now h' in
  first.1 = second.1
  ∧ view_of first.2 fd = view_of second.2 fd'
  ∧ doc_fact_deployment (view_of first.2 fd)
    = sorted_by newestDeploymentFirst (doc_fact_deployment (view_of h fd))
  ∧ doc_fact_incident (view_of first.2 fd)
    = sorted_by newestIncidentFirst <$> doc_fact_incident (view_of h fd).
Proof.
  intros Ev Hp first second. split; [by apply snapshot_ext|].
  unfold first, second. rewrite !view_after_derivation. rewrite Ev.
  by split.
Qed.

Lemma snapshot_depends_on_contents_witness :
  let '(h, fd, od) := raw_records in
  let h' :=
    mkHeap (reverse (contents h 0) :: deployment_arrays h) []
           ([] :: incident_arrays h) [] [] in
  let fd' := FilteredData.mk 1 None None (Some 1%nat) None in
  let od' := mkDoraData 0 None (Some 1%nat) None None in
  (view_of h fd = view_of h' fd'
   ∧ contents (T:=Deployment) h (fact_deployment od)
     ≡ₚ contents h' (fact_deployment od'))
  ∧ (calculateDoraMetrics fd od None 86400000 h).1
    = (calculateDoraMetrics fd' od' None 86400000 h').1.
Proof.
  set (h := raw_records.1.1).
  set (h' := mkHeap (reverse (contents h 0) :: deployment_arrays h) []
                    ([] :: incident_arrays h) [] []).
  set (fd' := FilteredData.mk 1 None None (Some 1%nat) None).
  set (od' := mkDoraData 0 None (Some 1%nat) None None).
  assert (view_of h raw_records.1.2 = view_of h' fd') as H1 by reflexivity.
  assert (contents (T:=Deployment) h (fact_deployment raw_records.2)
          ≡ₚ contents h' (fact_deployment od')) as H2.
  { change (contents h' (fact_deployment od'))
      with (reverse (contents (T:=Deployment) h 0)).
    by rewrite reverse_Permutation. }
  split; [by split|].
  by destruct (snapshot_depends_on_contents raw_records.1.2 raw_records.2 h
                 fd' od' h' None 86400000 H1 H2) as [E _].
Defined.

(** X6: A window that reaches back beyond every record of the store shows what
    the unbounded window shows: the two views hold the same records in the
    same order, and so every figure derived from them for the same
    [timeFilterDays] is the same. *)
Theorem covering_window_shows_all_time data N now tf h :
  allocated h data →
  all_within (now - N * 86400000) (document_of h data) →
  let all := filterDataByDays data None now h in
  let window := filterDataByDays data (Some N) now h in
  view_of window.2 window.1 = view_of all.2 all.1
  ∧ (calculateDoraMetrics window.1 data tf now window.2).1
    = (calculateDoraMetrics all.1 data tf now all.2).1.
Proof.
  intros Ha (Hd & Hp & Hi & He & Hs) all window.
  assert (view_of window.2 window.1 = view_of all.2 all.1) as Ev.
  { pose proof (filterDataByDays_window_view data N now h) as Ew.
    pose proof (filterDataByDays_unbounded_view data now h) as Eu.
    cbv zeta in Ew, Eu. fold window in Ew. fold all in Eu. rewrite Ew, Eu.
    rewrite (filter_all _ _ (proj1 (Forall_forall _ _) Hd)),
      (filter_all _ _ (proj1 (Forall_forall _ _) Hp)),
      (filter_all _ _ (proj1 (Forall_forall _ _) Hi)),
      (filter_all _ _ (proj1 (Forall_forall _ _) He)),
      (filter_all _ _ (proj1 (Forall_forall _ _) Hs)).
    done. }
  split; [done|]. apply snapshot_ext; [done|].
  pose proof (filterDataByDays_keeps_store data (Some N) now h Ha) as Ew.
  pose proof (filterDataByDays_keeps_store data None now h Ha) as Eu.
  fold window in Ew. fold all in Eu.
  apply (f_equal doc_fact_deployment) in Ew, Eu. unfold document_of in Ew, Eu.
  cbn [doc_fact_deployment] in Ew, Eu. by rewrite Ew, Eu.
Qed.

Lemma covering_window_shows_all_time_witness :
  let '(h, _, od) := raw_records in
  let all := filterDataByDays od None 86400000 h in
  let window := filterDataByDays od (Some 1000%Z) 86400000 h in
  (allocated h od ∧ all_within (86400000 - 1000 * 86400000) (document_of h od))
  ∧ (calculateDoraMetrics window.1 od None 86400000 window.2).1
    = (calculateDoraMetrics all.1 od None 86400000 all.2).1.
Proof.
  assert (allocated raw_records.1.1 raw_records.2) as H1.
  { split; [simpl; lia|]. repeat split; intros r [= <-]; simpl; lia. }
  assert (all_within (86400000 - 1000 * 86400000)
            (document_of raw_records.1.1 raw_records.2)) as H2.
  { unfold all_within. simpl. repeat split; repeat constructor; simpl; lia. }
  split; [by split|].
  by destruct (covering_window_shows_all_time raw_records.2 1000 86400000 None
                 raw_records.1.1 H1 H2) as [_ Hm].
Defined.

(** ** [PRPerformance] *)

Lemma count_none {A} (P : A → Prop) `{∀ x, Decision (P x)} (l : list A) :
  (∀ x, x ∈ l → ¬ P x) → length (filter P l) = 0%nat.
Proof.
  induction l as [|x l IH]; intros Hall; [done|].
  rewrite filter_cons_False by (apply Hall; left).
  apply IH. intros y Hy. apply Hall. by right.
Qed.

Lemma distinctInOrder_snoc (l : list string) (a : string) :
  distinctInOrder (l ++ [a])
  = if decide (a ∈ l) then distinctInOrder l else distinctInOrder l ++ [a].
Proof.
  induction l as [|x l IH]; [done|].
  cbn [app distinctInOrder]. rewrite IH.
  destruct (decide (a ∈ l)) as [Hin|Hout].
  - by rewrite decide_True by (by right).
  - rewrite filter_app. destruct (decide (a = x)) as [->|Hne].
    + rewrite decide_True by left.
      rewrite (filter_cons_False _ x []) by (by intros []).
      by rewrite app_nil_r.
    + rewrite decide_False by (by intros [?|?]%elem_of_cons).
      by rewrite (filter_cons_True _ a []) by done.
Qed.

Lemma counted_elem_of prs a :
  a ∈ counted prs ↔ (a ∉ objectPrototypeNames) ∧ ∃ pr, pr ∈ prs ∧ author pr = a.
Proof.
  unfold counted. rewrite distinctInOrder_elem_of, list_elem_of_filter,
    list_elem_of_fmap.
  split; intros [? (pr & ? & ?)]; (split; [done|]); by exists pr.
Qed.

Lemma fold_countPR (prs : list PullRequest) :
  let acc := fold_left countPR prs (mkStatsObject [] ∅) in
  created acc = counted prs
  ∧ ∀ a, own acc !! a
         = if decide (a ∈ counted prs)
           then let n := length (filter (λ pr, author pr = a) prs) in
                Some (AuthorStats.mk a n n)
           else None.
Proof.
  induction prs as [|pr prs [IHc IHo]] using rev_ind.
  { split; [done|]. intros a. by rewrite decide_False by (by intros ?%elem_of_nil). }
  cbv zeta. rewrite fold_left_app. cbn [fold_left].
  set (acc := fold_left countPR prs (mkStatsObject [] ∅)) in *.
  cbv zeta in IHo.
  assert (counted (prs ++ [pr])
          = if decide (author pr ∈ objectPrototypeNames) then counted prs
            else if decide (author pr ∈ counted prs) then counted prs
            else counted prs ++ [author pr]) as Ecounted.
  { unfold counted. rewrite fmap_app, filter_app.
    cbn [fmap list_fmap]. rewrite filter_cons.
    destruct (decide (author pr ∈ objectPrototypeNames)) as [Hp|Hp].
    - rewrite decide_False by (by intros []). by rewrite filter_nil, app_nil_r.
    - rewrite decide_True by done. rewrite filter_nil, distinctInOrder_snoc.
      destruct (decide (author pr ∈ filter (λ a, a ∉ objectPrototypeNames)
                                       (author <$> prs))) as [Hin|Hout].
      + by rewrite decide_True by (by apply distinctInOrder_elem_of).
      + by rewrite decide_False by (by rewrite distinctInOrder_elem_of). }
  assert (∀ a, length (filter (λ pr', author pr' = a) (prs ++ [pr]))
               = if decide (author pr = a)
                 then S (length (filter (λ pr', author pr' = a) prs))
                 else length (filter (λ pr', author pr' = a) prs)) as Ecount.
  { intros a. rewrite filter_app, length_app, filter_cons, filter_nil.
    destruct (decide (author pr = a)); simpl; lia. }
  rewrite Ecounted. unfold countPR.
  destruct (decide (author pr ∈ objectPrototypeNames)) as [Hp|Hp].
  { split; [done|]. intros a. rewrite IHo.
    destruct (decide (a ∈ counted prs)) as [Ha|Ha]; [|done].
    rewrite Ecount, decide_False; [done|].
    intros <-. by apply counted_elem_of in Ha as [? _]. }
  rewrite (IHo (author pr)).
  destruct (decide (author pr ∈ counted prs)) as [Hin|Hout].
  - cbn [created own]. split; [done|]. intros a. rewrite Ecount.
    destruct (decide (author pr = a)) as [<-|Hne].
    + rewrite lookup_alter_eq, IHo, !decide_True by done. done.
    + by rewrite lookup_alter_ne, IHo by done.
  - cbn [created own]. split; [by rewrite IHc|]. intros a. rewrite Ecount.
    assert (length (filter (λ pr', author pr' = author pr) prs) = 0)%nat as Ezero.
    { apply count_none. intros pr' Hpr' E.
      apply Hout, counted_elem_of. split; [done|]. by exists pr'. }
    destruct (decide (author pr = a)) as [<-|Hne].
    + rewrite lookup_alter_eq, lookup_insert_eq, decide_True
        by (apply elem_of_app; right; left).
      simpl. by rewrite Ezero.
    + rewrite lookup_alter_ne, lookup_insert_ne, IHo by done.
      destruct (decide (a ∈ counted prs)) as [Ha|Ha].
      * by rewrite decide_True by (apply elem_of_app; by left).
      * rewrite decide_False; [done|].
        intros [?|?%list_elem_of_singleton]%elem_of_app; by subst.
Qed.

Lemma filter_ext_in {A} (P Q : A → Prop) `{∀ x, Decision (P x)}
    `{∀ x, Decision (Q x)} (l : list A) :
  (∀ x, x ∈ l → P x ↔ Q x) → filter P l = filter Q l.
Proof.
  induction l as [|x l IH]; intros Hall; [done|].
  rewrite !filter_cons, IH by (intros y Hy; apply Hall; by right).
  destruct (decide (P x)) as [HP|HP].
  - by rewrite decide_True by (by apply Hall; [left|]).
  - rewrite decide_False; [done|]. intros HQ. apply HP. by apply Hall; [left|].
Qed.

Lemma Object_values_Permutation (prs : list PullRequest) :
  Object_values (fold_left countPR prs (mkStatsObject [] ∅))
  ≡ₚ (λ a, let n := length (filter (λ pr, author pr = a) prs) in
           AuthorStats.mk a n n) <$> counted prs.
Proof.
  destruct (fold_countPR prs) as [Ec Eo]. cbv zeta in Ec, Eo.
  unfold Object_values. set (acc := fold_left countPR prs (mkStatsObject [] ∅)) in *.
  assert (sorted_by (λ a b, default 0 (arrayIndex a) - default 0 (arrayIndex b))%Z
            (filter (λ name, is_Some (arrayIndex name)) (created acc))
          ++ filter (λ name, arrayIndex name = None) (created acc)
          ≡ₚ counted prs) as ->.
  { rewrite sorted_by_Permutation, <-Ec.
    rewrite <-(filter_app_complement (λ name, is_Some (arrayIndex name))
                 (created acc)) at 3.
    f_equiv. apply reflexive_eq, list_filter_iff. intros name.
    by rewrite eq_None_not_Some. }
  apply reflexive_eq.
  assert (∀ l : list string, (∀ a, a ∈ l → a ∈ counted prs) →
               omap (λ name, own acc !! name) l
               = (λ a, let n := length (filter (λ pr, author pr = a) prs) in
                       AuthorStats.mk a n n) <$> l) as Hall.
  { induction l as [|a l IH]; intros Hl; [done|].
    cbn [omap list_omap]. rewrite Eo, decide_True by (apply Hl; left).
    rewrite fmap_cons. f_equal. apply IH. intros b Hb. apply Hl. by right. }
  by apply Hall.
Qed.

(** X22: The authors are ranked by the number of their pull requests: every
    author of the view has exactly one row, unless its name is that of a
    member of [Object.prototype], in which case it has none; a row counts
    the pull requests of its author, as total and as merged, so the
    counts add up to the pull requests of the authors that have a row;
    the rows are in descending order of their count, and the five shown
    before the list is expanded have counts no smaller than any row left
    out.  The placeholder stands for an absent or empty sequence only. *)
Theorem PRPerformance_ranks (prs : list PullRequest) :
  let rows := authorData prs in
  NoDup (AuthorStats.author <$> rows)
  ∧ (∀ a, a ∈ AuthorStats.author <$> rows ↔
          (a ∉ objectPrototypeNames) ∧ ∃ pr, pr ∈ prs ∧ author pr = a)
  ∧ (∀ s, s ∈ rows →
          AuthorStats.totalPRs s
          = length (filter (λ pr, author pr = AuthorStats.author s) prs)
          ∧ AuthorStats.mergedPRs s = AuthorStats.totalPRs s
          ∧ (1 ≤ AuthorStats.totalPRs s)%nat)
  ∧ sum_list (AuthorStats.totalPRs <$> rows)
    = length (filter (λ pr, author pr ∉ objectPrototypeNames) prs)
  ∧ StronglySorted (λ a b, (AuthorStats.totalPRs b ≤ AuthorStats.totalPRs a)%nat)
      rows
  ∧ (∀ shown hidden, shown ∈ take 5 rows → hidden ∈ drop 5 rows →
       (AuthorStats.totalPRs hidden ≤ AuthorStats.totalPRs shown)%nat)
  ∧ (∀ isExpanded,
       PRPerformance (Some prs) isExpanded
       = if decide (prs = []) then None
         else Some (if isExpanded then rows else take 5 rows))
  ∧ ∀ o isExpanded, PRPerformance o isExpanded = None ↔ nothing o.
Proof.
  intros rows.
  set (stat := λ a, let n := length (filter (λ pr, author pr = a) prs) in
                    AuthorStats.mk a n n).
  assert (rows ≡ₚ stat <$> counted prs) as Hrows.
  { unfold rows, authorData. rewrite sorted_by_Permutation.
    apply Object_values_Permutation. }
  assert (AuthorStats.author <$> rows ≡ₚ counted prs) as Hauthors.
  { rewrite Hrows, <-list_fmap_compose. apply reflexive_eq, list_fmap_id. }
  assert (StronglySorted
            (λ a b, (AuthorStats.totalPRs b ≤ AuthorStats.totalPRs a)%nat) rows)
    as Hsorted.
  { eapply StronglySorted_weaken;
      [|apply (sorted_by_descending (λ s, Z.of_nat (AuthorStats.totalPRs s)))].
    simpl. intros; lia. }
  split; [rewrite Hauthors; apply distinctInOrder_NoDup|].
  split; [intros a; rewrite Hauthors; apply counted_elem_of|].
  split.
  { intros s. rewrite Hrows. intros (a & -> & Ha)%list_elem_of_fmap.
    cbn. split; [done|]. split; [done|].
    apply counted_elem_of in Ha as [_ (pr & Hpr & E)].
    assert (pr ∈ filter (λ pr', author pr' = a) prs) as Hin
      by (by apply list_elem_of_filter).
    destruct (filter (λ pr', author pr' = a) prs);
      [by apply elem_of_nil in Hin|simpl; lia]. }
  split.
  { unfold sum_list. rewrite Hrows, <-list_fmap_compose.
    etrans; [apply (count_by_key author (counted prs) prs), distinctInOrder_NoDup|].
    f_equal. apply filter_ext_in. intros pr Hpr. rewrite counted_elem_of.
    split; [by intros [? _]|]. intros Hp. split; [done|]. by exists pr. }
  split; [done|].
  split.
  { intros shown hidden Hs Hh.
    rewrite <-(take_drop 5 rows) in Hsorted.
    by apply (StronglySorted_app_1_elem_of _ _ _ shown hidden Hsorted). }
  split.
  { intros isExpanded. by destruct prs. }
  intros o isExpanded. unfold nothing. destruct o as [[|pr l]|]; simpl.
  - split; [by right|done].
  - split; [done|by intros [|]].
  - split; [by left|done].
Qed.

(** ** The store under the unbounded window *)

(** X3: Under the unbounded window the view shares the deployment array and,
    when the store has one, the incident array of the store, and the two
    sorts of [calculateDoraMetrics] run on them: after filtering and
    deriving, the store holds its deployments and its incidents newest
    first, whatever their order was, and its other collections as
    before. *)
Theorem unbounded_window_sorts_the_store data now h :
  allocated h data →
  let store := document_of h data in
  let filtered := filterDataByDays data None now h in
  let derived := calculateDoraMetrics filtered.1 data None now filtered.2 in
  FilteredData.fact_deployment filtered.1 = fact_deployment data
  ∧ (∀ r, fact_incident data = Some r →
          FilteredData.fact_incident filtered.1 = Some r)
  ∧ document_of derived.2 data
    = {| doc_fact_deployment :=
           sorted_by newestDeploymentFirst (doc_fact_deployment store);
         doc_fact_pr := doc_fact_pr store;
         doc_fact_incident :=
           sorted_by newestIncidentFirst <$> doc_fact_incident store;
         doc_dora_events := doc_dora_events store;
         doc_dora_summary_daily := doc_dora_summary_daily store |}.
Proof.
  intros Ha store filtered derived.
  pose proof (filterDataByDays_keeps_store data None now h Ha) as Ekeep.
  fold filtered in Ekeep. fold store in Ekeep.
  assert (FilteredData.fact_deployment filtered.1 = fact_deployment data) as Ed
    by (destruct data as [rd [rp|] [ri|] [re|] [rs|]]; reflexivity).
  assert (FilteredData.fact_incident filtered.1
          = Some (default (length (incident_arrays h)) (fact_incident data))) as Ei
    by (destruct data as [rd [rp|] [ri|] [re|] [rs|]]; reflexivity).
  split; [done|]. split; [by intros r Er; rewrite Ei, Er|].
  rewrite <-Ekeep. unfold derived, document_of. simpl. f_equal.
  - rewrite sortIncidents_deployments, deployments_after_jsSort, Ed.
    by rewrite decide_True.
  - destruct (fact_pr data); [|done]. simpl. by rewrite sortIncidents_prs.
  - destruct (fact_incident data) as [ri|]; [|done]. simpl. f_equal.
    simpl in Ei. unfold sortIncidents. rewrite Ei.
    change (contents (T:=Incident)
              (heap_after (jsSort newestDeploymentFirst
                             (FilteredData.fact_deployment filtered.1)) filtered.2) ri)
      with (contents (T:=Incident) filtered.2 ri).
    case_decide as Hlen.
    + rewrite incidents_after_jsSort. by rewrite decide_True.
    + change (contents (T:=Incident)
                (heap_after (jsSort newestDeploymentFirst
                               (FilteredData.fact_deployment filtered.1)) filtered.2) ri)
        with (contents (T:=Incident) filtered.2 ri).
      destruct (contents (T:=Incident) filtered.2 ri); [done|simpl in Hlen; lia].
  - destruct (dora_events data); [|done]. simpl. by rewrite sortIncidents_events.
  - destruct (dora_summary_daily data); [|done]. simpl. f_equal.
    unfold sortIncidents. destruct (FilteredData.fact_incident filtered.1); [|done].
    by case_decide.
Qed.

Lemma unbounded_window_sorts_the_store_witness :
  let loaded := loadDoraData two_releases empty_heap in
  let filtered := filterDataByDays loaded.1 None 10000000 loaded.2 in
  let derived := calculateDoraMetrics filtered.1 loaded.1 None 10000000 filtered.2 in
  allocated loaded.2 loaded.1
  ∧ doc_fact_deployment (document_of derived.2 loaded.1)
    = sorted_by newestDeploymentFirst (doc_fact_deployment two_releases).
Proof.
  set (loaded := loadDoraData two_releases empty_heap).
  assert (allocated loaded.2 loaded.1) as H.
  { split; [simpl; lia|]. repeat split; intros r [= <-]; simpl; lia. }
  split; [done|].
  destruct (unbounded_window_sorts_the_store loaded.1 10000000 loaded.2 H)
    as (_ & _ & E).
  by rewrite E.
Defined.

(** ** Trends of short views *)

(** X16: With fewer than two rollup rows in the view the recent period is empty
    and the four trends are 0. *)
Theorem trends_need_two_rows fd od tf now h :
  (length (default [] (readOptional (T:=Rollup) h
                         (FilteredData.dora_summary_daily fd))) < 2)%nat →
  let m := (calculateDoraMetrics fd od tf now h).1 in
  DoraMetrics.deploymentFrequencyTrend m = 0
  ∧ DoraMetrics.leadTimeTrend m = 0
  ∧ DoraMetrics.cfrTrend m = 0
  ∧ DoraMetrics.mttrTrend m = 0.
Proof.
  intros Hlen m. subst m.
  destruct (snapshot_trends fd od tf now h) as (-> & -> & -> & ->).
  set (summary := default [] (readOptional (T:=Rollup) h
                                (FilteredData.dora_summary_daily fd))) in *.
  assert (length summary / 2 = 0)%nat as ->.
  { destruct summary as [|? [|? ?]]; [done|done|simpl in Hlen; lia]. }
  rewrite take_0. cbn [fmap list_fmap].
  split_and!; by apply getTrend_formula; left.
Qed.

Lemma trends_need_two_rows_witness :
  let '(h, fd, od) := raw_records in
  (length (default [] (readOptional (T:=Rollup) h
                         (FilteredData.dora_summary_daily fd))) < 2)%nat
  ∧ DoraMetrics.deploymentFrequencyTrend
      (calculateDoraMetrics fd od None 86400000 h).1 = 0.
Proof.
  assert (length (default [] (readOptional (T:=Rollup) raw_records.1.1
                    (FilteredData.dora_summary_daily raw_records.1.2))) < 2)%nat
    as H by (simpl; lia).
  split; [done|].
  by destruct (trends_need_two_rows raw_records.1.2 raw_records.2 None 86400000
                 raw_records.1.1 H) as [E _].
Defined.
